(** * Onboarding assistant: content generation, caching and progress tracking

    A shallow embedding of the backend of the onboarding assistant
    (FastAPI + SQLAlchemy + an LLM completion endpoint) and the
    verification of its specification.

    Layout: Part I holds the embedding, one block per source file;
    Part II the notions the statements use and the data of the examples;
    Part III the lemmas and the theorems.

    Conventions of the embedding:
    - a Python [str] is a [string] (a sequence of characters, read as code
      points below 256);
    - a value stored in a JSON column, or returned by the generation
      backend, is a [json];
    - a Python exception is a value of [exn]; a function that may raise
      returns [res A];
    - a database table is the list of its rows in insertion order; the
      progress table, which the code only ever reads and writes through the
      pair (candidate_id, week_number), is a finite map keyed by that pair;
    - a commit writes the columns of new rows and the attributes that were
      assigned; a value of a JSON column that was loaded and then changed
      in place is not written ([committed]);
    - the generation backend is an oracle ([Grok]) whose answers may depend
      on the number of requests made before. *)

From Stdlib Require Import ZArith QArith Qminmax Qround Lqa Ascii String DecimalString.
From stdpp Require Import base option list gmap strings sorting.

Set Warnings "-register-all".

Local Open Scope Z_scope.
Local Open Scope stdpp_scope.
Local Open Scope list_scope.

(* ================================================================== *)
(** * Part I. The embedding                                             *)
(* ================================================================== *)

(* ------------------------------------------------------------------ *)
(** ** Python strings                                                   *)
(* ------------------------------------------------------------------ *)

(** The double quote and the control characters, by code. *)
Definition dquote : string := String (ascii_of_nat 34) EmptyString.
Definition newline : string := String (ascii_of_nat 10) EmptyString.
Definition carriage_return : string := String (ascii_of_nat 13) EmptyString.

(** [s.startswith(p)]. *)
Fixpoint startswith (p s : string) : bool :=
  match p, s with
  | EmptyString, _ => true
  | String a p', String b s' => if decide (a = b) then startswith p' s' else false
  | String _ _, EmptyString => false
  end.

(** [s[n:]] and [s[:n]] for a non-negative [n]. *)
Fixpoint str_drop (n : nat) (s : string) : string :=
  match n, s with
  | O, _ => s
  | S n', String _ s' => str_drop n' s'
  | S _, EmptyString => EmptyString
  end.

Fixpoint str_take (n : nat) (s : string) : string :=
  match n, s with
  | O, _ => EmptyString
  | S n', String c s' => String c (str_take n' s')
  | S _, EmptyString => EmptyString
  end.

(** [s.partition(sep)] when [sep] occurs in [s]: the text before the first
    (leftmost) occurrence and the text after it. *)
Fixpoint cut (sep s : string) : option (string * string) :=
  if startswith sep s then Some (EmptyString, str_drop (String.length sep) s)
  else match s with
       | EmptyString => None
       | String c s' =>
           match cut sep s' with
           | Some (a, b) => Some (String c a, b)
           | None => None
           end
       end.

(** [sub in s]. *)
Definition contains (sub s : string) : bool :=
  match cut sub s with Some _ => true | None => false end.

(** The text before the first [sep], all of [s] when there is none. *)
Definition before (sep s : string) : string :=
  match cut sep s with
  | Some (a, _) => a
  | None => s
  end.

(** [s.split(sep)] for a non-empty [sep]: the pieces between the
    non-overlapping occurrences of [sep], scanned from the left.  [skip]
    counts the characters of a separator still to be passed over and [acc]
    holds the current piece, last character first. *)
Fixpoint split_go (sep : string) (skip : nat) (acc : string) (s : string)
  : list string :=
  match s with
  | EmptyString => [String.rev acc]
  | String c s' =>
      match skip with
      | S k => split_go sep k acc s'
      | O =>
          if startswith sep s
          then String.rev acc :: split_go sep (String.length sep - 1) EmptyString s'
          else split_go sep 0 (String c acc) s'
      end
  end.

Definition split (sep s : string) : list string := split_go sep 0 EmptyString s.

(** [s.count(sub)] for a non-empty [sub]: the non-overlapping occurrences. *)
Definition count (sub s : string) : nat := length (split sub s) - 1.

(** [sep.join(l)], and [s.replace(old, new)] for a non-empty [old]. *)
Fixpoint join (sep : string) (l : list string) : string :=
  match l with
  | [] => EmptyString
  | [x] => x
  | x :: l' => x +:+ sep +:+ join sep l'
  end.

Definition replace (old new s : string) : string := join new (split old s).

(** [c.isspace()] for a code point below 256. *)
Definition isspace (c : ascii) : bool :=
  let n := nat_of_ascii c in
  ((9 <=? n)%nat && (n <=? 13)%nat) || ((28 <=? n)%nat && (n <=? 32)%nat)
  || (n =? 133)%nat || (n =? 160)%nat.

Fixpoint lstrip (s : string) : string :=
  match s with
  | String c s' => if isspace c then lstrip s' else s
  | EmptyString => EmptyString
  end.

(** [s.strip()]. *)
Definition strip (s : string) : string :=
  String.rev (lstrip (String.rev (lstrip s))).

(** [c.lower()] for a code point below 256: the capital letters are A to
    Z (65 to 90) and, in Latin-1, 192 to 214 and 216 to 222; each has its
    small letter 32 places on.  [s.lower()]. *)
Definition lower_char (c : ascii) : ascii :=
  let n := nat_of_ascii c in
  if ((65 <=? n)%nat && (n <=? 90)%nat)
     || ((192 <=? n)%nat && (n <=? 214)%nat)
     || ((216 <=? n)%nat && (n <=? 222)%nat)
  then ascii_of_nat (n + 32) else c.

Fixpoint lower (s : string) : string :=
  match s with
  | EmptyString => EmptyString
  | String c s' => String (lower_char c) (lower s')
  end.

(* ------------------------------------------------------------------ *)
(** ** JSON values, exceptions                                          *)
(* ------------------------------------------------------------------ *)

(** The Python value of a JSON document: [None], [bool], [int], [str],
    [list] and [dict] (keys in insertion order).  Numbers with a fraction
    or an exponent are outside the model. *)
Inductive json : Type :=
| JNull
| JBool (b : bool)
| JInt (n : Z)
| JStr (s : string)
| JList (l : list json)
| JDict (kv : list (string * json)).

(** The exceptions the modelled code raises or lets through. *)
Inductive exn : Type :=
| ValueError (msg : string)
| JSONDecodeError (doc : string)      (* json.loads rejected [doc] *)
| KeyError (key : string)
| IndexError
| TypeError
| AttributeError
| IntegrityError (key : string)       (* a primary key inserted twice *)
| MultipleResultsFound                (* scalar_one_or_none on several rows *)
| UpstreamError (msg : string)        (* the completion endpoint failed *)
| HTTPException (status_code : Z) (detail : string).

(** [str(e)], the text an f-string puts in a response.  For the exceptions
    of the libraries only a fixed text that names the kind is kept. *)
Definition exn_str (e : exn) : string :=
  match e with
  | ValueError m => m
  | JSONDecodeError d => "Expecting value"
  | KeyError k => k
  | IndexError => "list index out of range"
  | TypeError => "TypeError"
  | AttributeError => "AttributeError"
  | IntegrityError k => "UNIQUE constraint failed: " +:+ k
  | MultipleResultsFound => "Multiple rows were found when one or none was required"
  | UpstreamError m => m
  | HTTPException _ d => d
  end.

(** A computation that returns a value or raises. *)
Definition res (A : Type) : Type := exn + A.

Definition res_bind {A B} (m : res A) (f : A -> res B) : res B :=
  match m with
  | inl e => inl e
  | inr a => f a
  end.

Notation "x <~ m ; k" := (res_bind m (fun x => k))
  (at level 100, m at next level, right associativity, only parsing).

Definition res_map {A B} (f : A -> B) (m : res A) : res B :=
  match m with
  | inl e => inl e
  | inr a => inr (f a)
  end.

Notation "f <$$> m" := (res_map (map f) m) (at level 61, left associativity).

(** [l[i]]. *)
Definition index {A} (l : list A) (i : nat) : res A :=
  match l !! i with
  | Some x => inr x
  | None => inl IndexError
  end.

(** Truth value of a Python object ([if x], [not x], [x or y]). *)
Definition truthy (v : json) : bool :=
  match v with
  | JNull => false
  | JBool b => b
  | JInt n => negb (n =? 0)
  | JStr s => negb (String.eqb s EmptyString)
  | JList l => match l with [] => false | _ => true end
  | JDict kv => match kv with [] => false | _ => true end
  end.

(** Dictionaries as association lists. *)
Fixpoint assoc (k : string) (kv : list (string * json)) : option json :=
  match kv with
  | [] => None
  | (k', v) :: kv' => if String.eqb k k' then Some v else assoc k kv'
  end.

(** [d[k] = v]: overwrite in place, or append. *)
Fixpoint assoc_set (k : string) (v : json) (kv : list (string * json))
  : list (string * json) :=
  match kv with
  | [] => [(k, v)]
  | (k', v') :: kv' =>
      if String.eqb k k' then (k, v) :: kv' else (k', v') :: assoc_set k v kv'
  end.

(** [d.get(k, default)]; an object without [get] raises. *)
Definition get (d : json) (k : string) (dflt : json) : res json :=
  match d with
  | JDict kv => inr (default dflt (assoc k kv))
  | _ => inl AttributeError
  end.

(* ------------------------------------------------------------------ *)
(** ** json.loads                                                       *)
(* ------------------------------------------------------------------ *)

(** [json.loads] belongs to Python's standard library.  The service below
    takes it as a parameter [loads : string -> option json] ([None] when it
    raises [JSONDecodeError]).  [json_loads] is a reference decoder for the
    documents of the model (integers only, no [\u] escapes), used to run
    the service on concrete responses. *)

Definition is_json_ws (c : ascii) : bool :=
  let n := nat_of_ascii c in
  (n =? 32)%nat || (n =? 9)%nat || (n =? 10)%nat || (n =? 13)%nat.

Fixpoint skip_ws (s : string) : string :=
  match s with
  | String c s' => if is_json_ws c then skip_ws s' else s
  | EmptyString => EmptyString
  end.

Definition unescape (c : ascii) : option ascii :=
  let n := nat_of_ascii c in
  if (n =? 34)%nat then Some c                      (* quote *)
  else if (n =? 92)%nat then Some c                 (* backslash *)
  else if (n =? 47)%nat then Some c                 (* slash *)
  else if (n =? 98)%nat then Some (ascii_of_nat 8)  (* b *)
  else if (n =? 102)%nat then Some (ascii_of_nat 12) (* f *)
  else if (n =? 110)%nat then Some (ascii_of_nat 10) (* n *)
  else if (n =? 114)%nat then Some (ascii_of_nat 13) (* r *)
  else if (n =? 116)%nat then Some (ascii_of_nat 9)  (* t *)
  else None.

(** The characters of a string literal after its opening quote, and the
    text after its closing quote.  Control characters are refused, as
    the strict decoder does. *)
Fixpoint parse_chars (s : string) : option (string * string) :=
  match s with
  | EmptyString => None
  | String c r =>
      let n := nat_of_ascii c in
      if (n =? 34)%nat then Some (EmptyString, r)
      else if (n =? 92)%nat then
        match r with
        | String e r' =>
            match unescape e, parse_chars r' with
            | Some ch, Some (t, r'') => Some (String ch t, r'')
            | _, _ => None
            end
        | EmptyString => None
        end
      else if (n <? 32)%nat then None
      else match parse_chars r with
           | Some (t, r') => Some (String c t, r')
           | None => None
           end
  end.

Definition digit (c : ascii) : option Z :=
  let n := nat_of_ascii c in
  if ((48 <=? n)%nat && (n <=? 57)%nat) then Some (Z.of_nat n - 48) else None.

Fixpoint parse_digits (acc : Z) (s : string) : Z * string :=
  match s with
  | String c s' =>
      match digit c with
      | Some d => parse_digits (10 * acc + d) s'
      | None => (acc, s)
      end
  | EmptyString => (acc, s)
  end.

(** An integer literal; a fraction or an exponent after it is refused. *)
Definition parse_int (s : string) : option (Z * string) :=
  let '(neg, s1) := if startswith "-" s then (true, str_drop 1 s) else (false, s) in
  match s1 with
  | String c s2 =>
      match digit c with
      | Some d =>
          let '(n, r) := if d =? 0 then (0, s2) else parse_digits d s2 in
          if startswith "." r || startswith "e" r || startswith "E" r then None
          else Some (if neg then - n else n, r)
      | None => None
      end
  | EmptyString => None
  end.

Fixpoint parse_value (fuel : nat) (s : string) : option (json * string) :=
  match fuel with
  | O => None
  | S fuel' =>
      let s := skip_ws s in
      if startswith "{" s then
        let r := skip_ws (str_drop 1 s) in
        if startswith "}" r then Some (JDict [], str_drop 1 r)
        else match parse_members fuel' r with
             | Some (kv, r') => Some (JDict kv, r')
             | None => None
             end
      else if startswith "[" s then
        let r := skip_ws (str_drop 1 s) in
        if startswith "]" r then Some (JList [], str_drop 1 r)
        else match parse_elements fuel' r with
             | Some (l, r') => Some (JList l, r')
             | None => None
             end
      else if startswith dquote s then
        match parse_chars (str_drop 1 s) with
        | Some (t, r) => Some (JStr t, r)
        | None => None
        end
      else if startswith "true" s then Some (JBool true, str_drop 4 s)
      else if startswith "false" s then Some (JBool false, str_drop 5 s)
      else if startswith "null" s then Some (JNull, str_drop 4 s)
      else match parse_int s with
           | Some (n, r) => Some (JInt n, r)
           | None => None
           end
  end
with parse_elements (fuel : nat) (s : string) : option (list json * string) :=
  match fuel with
  | O => None
  | S fuel' =>
      match parse_value fuel' s with
      | Some (v, r) =>
          let r := skip_ws r in
          if startswith "," r then
            match parse_elements fuel' (str_drop 1 r) with
            | Some (l, r') => Some (v :: l, r')
            | None => None
            end
          else if startswith "]" r then Some ([v], str_drop 1 r)
          else None
      | None => None
      end
  end
with parse_members (fuel : nat) (s : string)
  : option (list (string * json) * string) :=
  match fuel with
  | O => None
  | S fuel' =>
      let s := skip_ws s in
      if startswith dquote s then
        match parse_chars (str_drop 1 s) with
        | Some (k, r) =>
            let r := skip_ws r in
            if startswith ":" r then
              match parse_value fuel' (str_drop 1 r) with
              | Some (v, r) =>
                  let r := skip_ws r in
                  if startswith "," r then
                    match parse_members fuel' (str_drop 1 r) with
                    | Some (kv, r') => Some ((k, v) :: kv, r')
                    | None => None
                    end
                  else if startswith "}" r then Some ([(k, v)], str_drop 1 r)
                  else None
              | None => None
              end
            else None
        | None => None
        end
      else None
  end.

(** A key given twice keeps its first place and its last value. *)
Fixpoint dedup_keys (kv : list (string * json)) (acc : list (string * json))
  : list (string * json) :=
  match kv with
  | [] => acc
  | (k, v) :: kv' => dedup_keys kv' (assoc_set k v acc)
  end.

Fixpoint normalise (fuel : nat) (v : json) : json :=
  match fuel with
  | O => v
  | S fuel' =>
      match v with
      | JList l => JList (map (normalise fuel') l)
      | JDict kv =>
          JDict (dedup_keys (map (fun p => (p.1, normalise fuel' p.2)) kv) [])
      | _ => v
      end
  end.

Definition json_loads (s : string) : option json :=
  let fuel := (2 * String.length s + 2)%nat in
  match parse_value fuel s with
  | Some (v, r) =>
      if String.eqb (skip_ws r) EmptyString then Some (normalise fuel v) else None
  | None => None
  end.

(* ------------------------------------------------------------------ *)
(** ** app/services/grok_service.py                                     *)
(* ------------------------------------------------------------------ *)

Definition lbrace : ascii := ascii_of_nat 123.
Definition rbrace : ascii := ascii_of_nat 125.

(** The pattern of [_parse_json_response],
    an opening brace, text without braces, any number of groups
    (brace, text without braces, closing brace, text without braces),
    a closing brace.
    Every repetition in it is followed by a brace, so from a given start
    the match is forced.  [brace_scan inner s] reads [s] after an opening
    brace ([inner]: inside a group) and returns the number of characters up
    to and including the closing brace of the pattern. *)
Fixpoint brace_scan (inner : bool) (s : string) : option nat :=
  match s with
  | EmptyString => None
  | String c s' =>
      if decide (c = lbrace) then
        if inner then None else S <$> brace_scan true s'
      else if decide (c = rbrace) then
        if inner then S <$> brace_scan false s' else Some 1%nat
      else S <$> brace_scan inner s'
  end.

(** [re.match(pattern, s)]: the length of the match at the start of [s]. *)
Definition brace_match (s : string) : option nat :=
  match s with
  | String c s' => if decide (c = lbrace) then S <$> brace_scan false s' else None
  | EmptyString => None
  end.

(** [re.search(pattern, s, re.DOTALL)], then [match.group(0)]: the match
    at the leftmost position that has one. *)
Fixpoint re_search (s : string) : option string :=
  match brace_match s with
  | Some n => Some (str_take n s)
  | None =>
      match s with
      | String _ s' => re_search s'
      | EmptyString => None
      end
  end.

(** [response.split(fence)[1].split("```")[0].strip()]. *)
Definition fenced (fence response : string) : res string :=
  after <~ index (split fence response) 1;
  body <~ index (split "```" after) 0;
  inr (strip body).

(** The text [_parse_json_response] goes on to decode when the response as
    a whole is not JSON. *)
Definition json_candidate (response : string) : res string :=
  if contains "```json" response then fenced "```json" response
  else if contains "```" response then fenced "```" response
  else match re_search response with
       | Some m => inr m
       | None =>
           inl (ValueError ("Could not parse JSON from response: "
                            +:+ str_take 200 response))
       end.

(** [GrokService._parse_json_response]. *)
Definition _parse_json_response (loads : string -> option json)
    (response : string) : res json :=
  match loads response with
  | Some v => inr v
  | None =>
      json_str <~ json_candidate response;
      let json_str := strip json_str in
      match loads json_str with
      | Some v => inr v
      | None =>
          let json_str :=
            replace carriage_return EmptyString (replace newline " " json_str) in
          match loads json_str with
          | Some v => inr v
          | None => inl (JSONDecodeError json_str)
          end
      end
  end.

(* ------------------------------------------------------------------ *)
(** ** pathlib and the file system                                      *)
(* ------------------------------------------------------------------ *)

(** A pure POSIX path: whether it is anchored at the root, and its
    components.  Parsing drops empty components and single dots and keeps
    every double dot, as [pathlib] does. *)
Record path : Type := Path { absolute : bool; parts : list string }.

Definition keep_part (c : string) : bool :=
  negb (String.eqb c EmptyString) && negb (String.eqb c ".").

Definition parse_path (s : string) : path :=
  Path (startswith "/" s) (filter (fun c => keep_part c = true) (split "/" s)).

(** [p / s]: an anchored right operand replaces the left one. *)
Definition path_join (p : path) (s : string) : path :=
  let q := parse_path s in
  if absolute q then q else Path (absolute p) (parts p ++ parts q).

Fixpoint strip_base (base l : list string) : option (list string) :=
  match base, l with
  | [], _ => Some l
  | b :: base', x :: l' => if String.eqb b x then strip_base base' l' else None
  | _ :: _, [] => None
  end.

(** [p.relative_to(base)]: a comparison of components, nothing is
    resolved. *)
Definition relative_to (p base : path) : res path :=
  if Bool.eqb (absolute p) (absolute base) then
    match strip_base (parts base) (parts p) with
    | Some rest => inr (Path false rest)
    | None => inl (ValueError "is not in the subpath")
    end
  else inl (ValueError "is not in the subpath").

(** [str(p)]. *)
Definition path_str (p : path) : string :=
  match absolute p, parts p with
  | false, [] => "."
  | false, l => join "/" l
  | true, l => "/" +:+ join "/" l
  end.

(** The file system is a tree.  A file holds its size in bytes and its
    text when the bytes are valid UTF-8. *)
Inductive node : Type :=
| File (text : option string) (size : Z)
| Dir (entries : list (string * node)).

Fixpoint find_entry (name : string) (entries : list (string * node)) : option node :=
  match entries with
  | [] => None
  | (n, x) :: r => if String.eqb name n then Some x else find_entry name r
  end.

(** Path resolution by the operating system (no symbolic links): [stack]
    holds the directories entered so far, innermost first; a double dot
    leaves the innermost one (and stays at the root). *)
Fixpoint walk (root : node) (stack : list (string * node)) (ps : list string)
  : option (list (string * node)) :=
  match ps with
  | [] => Some stack
  | c :: r =>
      match (match stack with [] => root | (_, n) :: _ => n end) with
      | File _ _ => None
      | Dir es =>
          if String.eqb c ".." then walk root (tail stack) r
          else match find_entry c es with
               | Some n => walk root ((c, n) :: stack) r
               | None => None
               end
      end
  end.

Record filesystem : Type := FS { fs_root : node; cwd : list string }.

(** Where a path leads: the names from the root down to the node, and the
    node. *)
Definition resolve (fs : filesystem) (p : path) : option (list string * node) :=
  let ps := if absolute p then parts p else cwd fs ++ parts p in
  match walk (fs_root fs) [] ps with
  | Some [] => Some ([], fs_root fs)
  | Some ((c, n) :: st) => Some (reverse (c :: map fst st), n)
  | None => None
  end.

(* ------------------------------------------------------------------ *)
(** ** app/services/file_service.py                                     *)
(* ------------------------------------------------------------------ *)

Record FileService : Type := { storage_dir : path }.

(** The singleton [file_service = FileService()]. *)
Definition file_service : FileService :=
  {| storage_dir := parse_path "storage/codebases" |}.

Definition _get_repo_path (self : FileService) (codebase_id : string) : path :=
  path_join (storage_dir self) codebase_id.

Record FileItem : Type := {
  item_name : string;
  item_path : string;
  item_type : string;
  item_size : Z
}.

Definition is_dir (n : node) : bool :=
  match n with Dir _ => true | File _ _ => false end.

(** The sort key [(not e.is_dir(), e.name.lower())] and its order. *)
Definition entry_le (a b : string * node) : bool :=
  match is_dir a.2, is_dir b.2 with
  | true, false => true
  | false, true => false
  | _, _ => String.leb (lower a.1) (lower b.1)
  end.

(** [sorted] is stable: an entry goes after the entries whose key is not
    greater. *)
Fixpoint insert_entry (x : string * node) (l : list (string * node))
  : list (string * node) :=
  match l with
  | [] => [x]
  | y :: l' => if entry_le y x then y :: insert_entry x l' else x :: l
  end.

Definition sorted_entries (l : list (string * node)) : list (string * node) :=
  foldl (fun acc x => insert_entry x acc) [] l.

Definition file_item (subdir : string) (e : string * node) : FileItem :=
  {| item_name := e.1;
     item_path := path_str (path_join (parse_path subdir) e.1);
     item_type := if is_dir e.2 then "dir" else "file";
     item_size := match e.2 with File _ sz => sz | Dir _ => 0 end |}.

(** [FileService.list_files].  The file system of the model answers every
    lookup: [exists()] and [is_dir()] return.  Where the operating system
    refuses one (a name longer than the file system allows, a directory
    that may not be searched), [exists()] raises an [OSError], which is
    outside the model; the endpoints answer it with a 500. *)
Definition list_files (self : FileService) (fs : filesystem)
    (codebase_id subdir : string) : res (list FileItem) :=
  let repo_path := _get_repo_path self codebase_id in
  let target_dir := path_join repo_path subdir in
  match relative_to target_dir repo_path with
  | inl _ => inl (ValueError "Invalid path")
  | inr _ =>
      match resolve fs target_dir with
      | Some (_, Dir es) =>
          inr (map (file_item subdir)
                 (filter (fun e => startswith ".git" e.1 = false)
                    (sorted_entries es)))
      | _ => inr []
      end
  end.

(** [FileService.get_file_content]. *)
Definition get_file_content (self : FileService) (fs : filesystem)
    (codebase_id file_path : string) : res (option string) :=
  let repo_path := _get_repo_path self codebase_id in
  let target_file := path_join repo_path file_path in
  match relative_to target_file repo_path with
  | inl _ => inl (ValueError "Invalid path")
  | inr _ =>
      match resolve fs target_file with
      | Some (_, File (Some text) _) => inr (Some text)
      | Some (_, File None _) => inr (Some "<Binary file or non-UTF-8 content>")
      | _ => inr None
      end
  end.

(* ------------------------------------------------------------------ *)
(** ** app/database.py, app/schema.py                                   *)
(* ------------------------------------------------------------------ *)

(** Rows.  A JSON column holds a [json] ([JNull] for SQL NULL and for an
    attribute that was never set); [DateTime] columns hold a number. *)
Record Candidate : Type := {
  cand_id : Z;
  cand_name : string;
  resume_analysis : json
}.

Record CodebaseAnalysis : Type := {
  ca_codebase_id : string;
  analysis_data : json;
  analyzed_at : Z
}.

Record LearningPlan : Type := {
  lp_id : Z;
  lp_candidate_id : Z;
  lp_codebase_id : string;
  plan_data : json;
  lp_created_at : Z
}.

Record WeeklyContent : Type := {
  wc_learning_plan_id : Z;
  wc_week_number : Z;
  reading_material : json;
  coding_tasks : json;
  quiz : json
}.

(** [id] is the primary key of [master_plans]. *)
Record MasterPlan : Type := {
  mp_id : string;
  mp_codebase_id : string;
  version : Z;
  plan_overview : json;
  weeks_data : json;
  generated_at : Z
}.

Record Progress : Type := {
  reading_completed : json;
  tasks_completed : json;
  quiz_score : option Z;
  quiz_answers : option (list Z)
}.

(** The request body of the progress endpoint ([schema.ProgressUpdate]). *)
Record ProgressUpdate : Type := {
  pu_week_number : Z;
  pu_reading_completed : option bool;
  pu_task_id : option string;
  pu_quiz_answers : option (list Z)
}.

Record DB : Type := {
  candidates : list Candidate;
  codebase_analyses : list CodebaseAnalysis;
  learning_plans : list LearningPlan;
  weekly_content : list WeeklyContent;
  master_plans : list MasterPlan;
  now : Z                                  (* what datetime.utcnow() reads *)
}.

(** The progress table, one row for a pair (candidate_id, week_number). *)
Abbreviation progress_table := (gmap (Z * Z) Progress).

(** The queries of the code. [first_by] is
    [select(..).where(..).order_by(desc(key)).limit(1)] followed by
    [scalar_one_or_none()]: a row with the greatest key, the earliest
    inserted among equals. *)
Fixpoint max_by {A} (key : A -> Z) (best : A) (l : list A) : A :=
  match l with
  | [] => best
  | x :: l' => max_by key (if key best <? key x then x else best) l'
  end.

Definition first_by {A} (key : A -> Z) (l : list A) : option A :=
  match l with
  | [] => None
  | x :: l' => Some (max_by key x l')
  end.

(** [scalar_one_or_none()] on a query without a limit. *)
Definition scalar_one_or_none {A} (l : list A) : res (option A) :=
  match l with
  | [] => inr None
  | [x] => inr (Some x)
  | _ => inl MultipleResultsFound
  end.

Definition latest_analysis (d : DB) (codebase_id : string) : option CodebaseAnalysis :=
  first_by analyzed_at
    (filter (fun a => ca_codebase_id a = codebase_id) (codebase_analyses d)).

Definition latest_master_plan (d : DB) (codebase_id : string) : option MasterPlan :=
  first_by version
    (filter (fun m => mp_codebase_id m = codebase_id) (master_plans d)).

Definition latest_learning_plan (d : DB) (candidate_id : Z) : option LearningPlan :=
  first_by lp_created_at
    (filter (fun p => lp_candidate_id p = candidate_id) (learning_plans d)).

Definition find_weekly_content (d : DB) (plan_id week_number : Z) : list WeeklyContent :=
  filter (fun w => wc_learning_plan_id w = plan_id ∧ wc_week_number w = week_number)
    (weekly_content d).

Definition find_candidate (d : DB) (candidate_id : Z) : res (option Candidate) :=
  scalar_one_or_none (filter (fun c => cand_id c = candidate_id) (candidates d)).

(* ------------------------------------------------------------------ *)
(** ** app/routes.py: progress                                          *)
(* ------------------------------------------------------------------ *)

(** [Progress(candidate_id=.., week_number=..)] before it is flushed. *)
Definition new_progress : Progress :=
  {| reading_completed := JNull; tasks_completed := JNull;
     quiz_score := None; quiz_answers := None |}.

(** The INSERT of a new row fills the columns that were never set with
    their default, the empty list. *)
Definition or_default (v : json) : json :=
  match v with JNull => JList [] | _ => v end.

Definition flush (is_new : bool) (p : Progress) : Progress :=
  if is_new then
    {| reading_completed := or_default (reading_completed p);
       tasks_completed := or_default (tasks_completed p);
       quiz_score := quiz_score p; quiz_answers := quiz_answers p |}
  else p.

(** [x == s] for a string [s] and [x == n] for an int [n] ([True] and
    [False] are the ints 1 and 0). *)
Definition eq_str (s : string) (x : json) : bool :=
  match x with JStr t => String.eqb s t | _ => false end.

Definition eq_int (n : Z) (x : json) : bool :=
  match x with
  | JInt m => n =? m
  | JBool b => n =? (if b then 1 else 0)
  | _ => false
  end.

(** What a commit leaves in a JSON column.  The session writes every
    column of a new row, and a column of a loaded row when its attribute
    was assigned a value other than the loaded one.  A list that was loaded
    and then changed in place is not written: the JSON type of SQLAlchemy
    does not detect in-place mutations ([get_weekly_content] copies the
    value and calls [flag_modified] for that reason), and assigning the
    loaded object back compares it with itself.  [in_place] tells that
    [current] is the loaded object. *)
Definition committed (is_new in_place : bool) (loaded current : json) : json :=
  if is_new then current
  else if in_place then loaded
  else current.

(** [tasks = progress_record.tasks_completed or []], then the test
    [task_id not in tasks] and [tasks.append(task_id)]: the list the
    attribute holds afterwards.  It is the loaded object when the loaded
    value is truthy. *)
Definition add_task (task_id : string) (tasks_completed : json) : res json :=
  let tasks := if truthy tasks_completed then tasks_completed else JList [] in
  match tasks with
  | JList l =>
      if existsb (eq_str task_id) l then inr tasks
      else inr (JList (l ++ [JStr task_id]))
  | JStr s => if contains task_id s then inr tasks else inl AttributeError
  | JDict kv =>
      match assoc task_id kv with
      | Some _ => inr tasks
      | None => inl AttributeError
      end
  | _ => inl TypeError
  end.

(** [update_progress]: the new progress table and the response.  A raise
    happens before the commit and leaves the table as it was. *)
Definition update_progress (candidate_id : Z) (progress : ProgressUpdate)
    (t : progress_table) : res (progress_table * string) :=
  let key := (candidate_id, pu_week_number progress) in
  let '(r, is_new) :=
    match t !! key with
    | Some r => (r, false)
    | None => (new_progress, true)
    end in
  let reading :=
    match pu_reading_completed progress with
    | Some b =>
        let flag := if b then 1 else 0 in
        if eq_int flag (reading_completed r) then reading_completed r
        else JInt flag
    | None => reading_completed r
    end in
  tasks <~ match pu_task_id progress with
           | Some task_id =>
               tasks <~ add_task task_id (tasks_completed r);
               inr (committed is_new (truthy (tasks_completed r))
                      (tasks_completed r) tasks)
           | None => inr (tasks_completed r)
           end;
  let '(score, answers) :=
    match pu_quiz_answers progress with
    | Some a => (Some (Z.of_nat (length a)), Some a)
    | None => (quiz_score r, quiz_answers r)
    end in
  let r' := {| reading_completed := reading; tasks_completed := tasks;
               quiz_score := score; quiz_answers := answers |} in
  inr (<[key := flush is_new r']> t, "Progress updated successfully").

(** [mark_chapter_complete]: the new table and [completed_chapters], the
    list the attribute holds when the handler returns (the session does not
    expire its objects on commit).  A value that is no list is replaced by
    a new list; a list is appended to in place. *)
Definition mark_chapter_complete (candidate_id week_number chapter_number : Z)
    (t : progress_table) : progress_table * list json :=
  let key := (candidate_id, week_number) in
  let '(r, is_new) :=
    match t !! key with
    | Some r => (r, false)
    | None =>
        ({| reading_completed := JList []; tasks_completed := JNull;
            quiz_score := None; quiz_answers := None |}, true)
    end in
  let '(chapters, in_place) :=
    match reading_completed r with
    | JList l => (l, true)
    | _ => ([], false)   (* None, the old integer format, anything else *)
    end in
  let chapters' :=
    if existsb (eq_int chapter_number) chapters then chapters
    else chapters ++ [JInt chapter_number] in
  let r' := {| reading_completed :=
                 committed is_new in_place (reading_completed r) (JList chapters');
               tasks_completed := tasks_completed r;
               quiz_score := quiz_score r; quiz_answers := quiz_answers r |} in
  (<[key := flush is_new r']> t, chapters').

(** [get_week_progress]: completed_chapters, completed_tasks, quiz_score. *)
Definition get_week_progress (candidate_id week_number : Z) (t : progress_table)
  : json * json * option Z :=
  match t !! (candidate_id, week_number) with
  | None => (JList [], JList [], None)
  | Some p =>
      (if truthy (reading_completed p) then reading_completed p else JList [],
       if truthy (tasks_completed p) then tasks_completed p else JList [],
       quiz_score p)
  end.

(* ------------------------------------------------------------------ *)
(** ** debug_progress.py, verify_progress.py: the week percent          *)
(* ------------------------------------------------------------------ *)

(** Python evaluates the scores in binary floating point; the model keeps
    the exact rational each expression denotes. *)

(** [len(x)]. *)
Definition len (v : json) : res Z :=
  match v with
  | JList l => inr (Z.of_nat (length l))
  | JDict kv => inr (Z.of_nat (length kv))
  | JStr s => inr (Z.of_nat (String.length s))
  | _ => inl TypeError
  end.

(** [math.ceil(n / 2)] for an int [n]. *)
Definition ceil_half (n : Z) : Z := (n + 1) / 2.

(** [total_chapters = max(1, math.ceil(sections / 2)) if sections > 0 else 1]
    with [sections = reading_text.count("## ")]. *)
Definition total_chapters (reading_text : string) : Z :=
  let sections := Z.of_nat (count "## " reading_text) in
  if 0 <? sections then Z.max 1 (ceil_half sections) else 1.

(** [min(1.0, a / b)]. *)
Definition ratio (a b : Z) : Q := Qmin 1 (inject_Z a / inject_Z b).

(** [content.reading_material.get("content", "")], then [.count]. *)
Definition reading_text (content : WeeklyContent) : res string :=
  v <~ get (reading_material content) "content" (JStr EmptyString);
  match v with
  | JStr s => inr s
  | _ => inl AttributeError
  end.

(** [len(progress.reading_completed) if isinstance(.., list) else 0]. *)
Definition completed_chapters (progress : Progress) : Z :=
  match reading_completed progress with
  | JList l => Z.of_nat (length l)
  | _ => 0
  end.

(** [len(progress.tasks_completed) if progress.tasks_completed else 0]. *)
Definition completed_tasks (progress : Progress) : res Z :=
  if truthy (tasks_completed progress) then len (tasks_completed progress)
  else inr 0.

(** [progress.quiz_score or 0]. *)
Definition quiz_score_val (progress : Progress) : Z :=
  default 0 (quiz_score progress).

(** The body of the loop of [check_progress] (debug_progress.py) for a
    week that has content and a progress row: [week_p]. *)
Definition week_percent (content : WeeklyContent) (progress : Progress) : res Q :=
  text <~ reading_text content;
  let reading_score := ratio (completed_chapters progress) (total_chapters text) in
  total_tasks <~ len (coding_tasks content);
  done_tasks <~ completed_tasks progress;
  let tasks_score := if 0 <? total_tasks then ratio done_tasks total_tasks else 0%Q in
  total_quiz <~ len (quiz content);
  let quiz_score :=
    if 0 <? total_quiz then ratio (quiz_score_val progress) total_quiz else 0%Q in
  inr (reading_score * 30 + tasks_score * 40 + quiz_score * 30)%Q.

(** The same computation in [main] of verify_progress.py, where a missing
    task list or quiz counts as empty. *)
Definition week_percent_verify (content : WeeklyContent) (progress : Progress)
  : res Q :=
  text <~ reading_text content;
  let reading_score := ratio (completed_chapters progress) (total_chapters text) in
  total_tasks <~ len (if truthy (coding_tasks content) then coding_tasks content
                      else JList []);
  done_tasks <~ completed_tasks progress;
  let tasks_score :=
    if negb (total_tasks =? 0) then ratio done_tasks total_tasks else 0%Q in
  total_quiz <~ len (if truthy (quiz content) then quiz content else JList []);
  let quiz_score :=
    if negb (total_quiz =? 0) then ratio (quiz_score_val progress) total_quiz
    else 0%Q in
  inr (reading_score * 30 + tasks_score * 40 + quiz_score * 30)%Q.





(* ------------------------------------------------------------------ *)
(** ** The generation backend and the request monad                     *)
(* ------------------------------------------------------------------ *)

(** A request to the generation backend, by the method that makes it. *)
Inductive Call : Type :=
| CallPlan (codebase_analysis : json)
| CallReading (week_plan codebase_analysis : json) (expectation : option string)
| CallTasks (week_plan codebase_analysis : json) (expectation : option string)
| CallQuiz (week_plan reading_content : json)
| CallReasoning (expectation item_type : string) (title description : json)
| CallPersonalize (master_plan resume_analysis : json)
| CallAnalyze (codebase_url : string) (github_token : option string)
| CallLearningPlan (resume_analysis codebase_analysis : json).

(** The three methods of on-demand content generation. *)
Definition on_demand (c : Call) : bool :=
  match c with
  | CallReading _ _ _ | CallTasks _ _ _ | CallQuiz _ _ => true
  | _ => false
  end.

(** Each method builds a prompt, posts it and decodes the answer.  The
    backend is a black box: a method is modelled by its outcome as a
    function of its arguments and of the number of requests made before
    (the same prompt may be answered differently at another time). *)
Record Grok : Type := {
  answer_plan : nat -> json -> res json;
  answer_reading : nat -> json -> json -> option string -> res json;
  answer_tasks : nat -> json -> json -> option string -> res json;
  answer_quiz : nat -> json -> json -> res json;
  answer_reasoning : nat -> string -> string -> json -> json -> res string;
  answer_personalize : nat -> json -> json -> res json;
  answer_analyze : nat -> string -> option string -> res json;
  answer_learning_plan : nat -> json -> json -> res json
}.

(** The world of a request: the committed database and the requests made
    to the backend so far, oldest first. *)
Record World : Type := { db : DB; calls : list Call }.

Definition M (A : Type) : Type := World -> res A * World.

Definition ret {A} (a : A) : M A := fun w => (inr a, w).

Definition raise {A} (e : exn) : M A := fun w => (inl e, w).

Definition bind {A B} (m : M A) (f : A -> M B) : M B :=
  fun w =>
    match m w with
    | (inl e, w') => (inl e, w')
    | (inr a, w') => f a w'
    end.

Notation "x <- m ;; k" := (bind m (fun x => k))
  (at level 100, m at next level, right associativity, only parsing).

Definition lift {A} (r : res A) : M A := fun w => (r, w).

Definition get_db : M DB := fun w => (inr (db w), w).

(** [await db.commit()] of the pending changes [f]. *)
Definition commit (f : DB -> DB) : M unit :=
  fun w => (inr tt, {| db := f (db w); calls := calls w |}).

Definition request {A} (c : Call) (answer : nat -> res A) : M A :=
  fun w => (answer (length (calls w)), {| db := db w; calls := calls w ++ [c] |}).

Definition _generate_comprehensive_plan (g : Grok) (codebase_analysis : json) : M json :=
  request (CallPlan codebase_analysis)
    (fun n => answer_plan g n codebase_analysis).

Definition generate_weekly_reading (g : Grok) (week_plan codebase_analysis : json)
    (expectation_context : option string) : M json :=
  request (CallReading week_plan codebase_analysis expectation_context)
    (fun n => answer_reading g n week_plan codebase_analysis expectation_context).

Definition generate_coding_tasks (g : Grok) (week_plan codebase_analysis : json)
    (expectation_context : option string) : M json :=
  request (CallTasks week_plan codebase_analysis expectation_context)
    (fun n => answer_tasks g n week_plan codebase_analysis expectation_context).

Definition generate_quiz (g : Grok) (week_plan reading_content : json) : M json :=
  request (CallQuiz week_plan reading_content)
    (fun n => answer_quiz g n week_plan reading_content).

Definition generate_reasoning (g : Grok) (expectation_context item_type : string)
    (item_title item_description : json) : M string :=
  request (CallReasoning expectation_context item_type item_title item_description)
    (fun n => answer_reasoning g n expectation_context item_type item_title
                item_description).

(** [GrokService.analyze_codebase] and [GrokService.generate_learning_plan]. *)
Definition analyze_codebase (g : Grok) (codebase_url : string)
    (github_token : option string) : M json :=
  request (CallAnalyze codebase_url github_token)
    (fun n => answer_analyze g n codebase_url github_token).

Definition grok_generate_learning_plan (g : Grok)
    (resume_analysis codebase_analysis : json) : M json :=
  request (CallLearningPlan resume_analysis codebase_analysis)
    (fun n => answer_learning_plan g n resume_analysis codebase_analysis).

(** [try: .. except Exception: ..] around [m]: the outcome as a value. *)
Definition attempt {A} (m : M A) : M (res A) :=
  fun w => let '(r, w') := m w in (inr r, w').

(** More of Python on JSON values. *)

(** [d[k]] for a string [k]. *)
Definition subscript (d : json) (k : string) : res json :=
  match d with
  | JDict kv =>
      match assoc k kv with
      | Some v => inr v
      | None => inl (KeyError k)
      end
  | _ => inl TypeError
  end.

(** [for x in v]. *)
Fixpoint chars (s : string) : list json :=
  match s with
  | EmptyString => []
  | String c s' => JStr (String c EmptyString) :: chars s'
  end.

Definition iterate (v : json) : res (list json) :=
  match v with
  | JList l => inr l
  | JDict kv => inr (map (fun p => JStr p.1) kv)
  | JStr s => inr (chars s)
  | _ => inl TypeError
  end.

(** [v[:200]]. *)
Definition slice200 (v : json) : res json :=
  match v with
  | JStr s => inr (JStr (str_take 200 s))
  | JList l => inr (JList (take 200 l))
  | _ => inl TypeError
  end.

(** [d[k] = v]. *)
Definition set_item (d : json) (k : string) (v : json) : res json :=
  match d with
  | JDict kv => inr (JDict (assoc_set k v kv))
  | _ => inl TypeError
  end.

(* ------------------------------------------------------------------ *)
(** ** app/services/plan_template_service.py                            *)
(* ------------------------------------------------------------------ *)

(** The loop over the weeks of the skeleton: three requests for a week,
    the weeks in order; the first failure ends the loop. *)
Fixpoint generate_weeks (g : Grok) (codebase_analysis : json) (weeks : list json)
  : M (list json) :=
  match weeks with
  | [] => ret []
  | week :: rest =>
      week_number <- lift (subscript week "week_number");;
      reading <- generate_weekly_reading g week codebase_analysis None;;
      tasks <- generate_coding_tasks g week codebase_analysis None;;
      content <- lift (get reading "content" (JStr EmptyString));;
      quiz <- generate_quiz g week content;;
      w1 <- lift (set_item week "reading_material" reading);;
      w2 <- lift (set_item w1 "coding_tasks" tasks);;
      week_with_content <- lift (set_item w2 "quiz" quiz);;
      more <- generate_weeks g codebase_analysis rest;;
      ret (week_with_content :: more)
  end.

(** The table of master plans with one more row. *)
Definition add_master_plan (m : MasterPlan) (d : DB) : DB :=
  {| candidates := candidates d;
     codebase_analyses := codebase_analyses d;
     learning_plans := learning_plans d;
     weekly_content := weekly_content d;
     master_plans := master_plans d ++ [m];
     now := now d |}.

(** [db.add(master_plan); await db.commit()]: the INSERT fails when the
    primary key is taken. *)
Definition insert_master_plan (m : MasterPlan) : M unit :=
  d <- get_db;;
  if existsb (fun m' => String.eqb (mp_id m') (mp_id m)) (master_plans d)
  then raise (IntegrityError "master_plans.id")
  else commit (add_master_plan m).

(** [PlanTemplateService.generate_master_plan]. *)
Definition generate_master_plan (g : Grok) (codebase_id : string) : M json :=
  d <- get_db;;
  match latest_analysis d codebase_id with
  | None => raise (ValueError ("No codebase analysis found for " +:+ codebase_id))
  | Some analysis_record =>
      let codebase_analysis := analysis_data analysis_record in
      plan_data <- _generate_comprehensive_plan g codebase_analysis;;
      weeks <- lift (get plan_data "weeks" (JList []));;
      weeks <- lift (iterate weeks);;
      weeks_with_content <- generate_weeks g codebase_analysis weeks;;
      let master_plan_id := codebase_id +:+ "_v1" in
      overview <- lift (get plan_data "overview" (JStr EmptyString));;
      _ <- insert_master_plan
             {| mp_id := master_plan_id;
                mp_codebase_id := codebase_id;
                version := 1;
                plan_overview := overview;
                weeks_data := JList weeks_with_content;
                generated_at := now d |};;
      overview' <- lift (get plan_data "overview" JNull);;
      ret (JDict [("id", JStr master_plan_id);
                  ("overview", overview');
                  ("weeks", JList weeks_with_content)])
  end.

(** [PlanTemplateService.get_master_plan]. *)
Definition get_master_plan (codebase_id : string) (d : DB) : option json :=
  match latest_master_plan d codebase_id with
  | None => None
  | Some master_plan =>
      Some (JDict [("id", JStr (mp_id master_plan));
                   ("codebase_id", JStr (mp_codebase_id master_plan));
                   ("version", JInt (version master_plan));
                   ("overview", plan_overview master_plan);
                   ("weeks", weeks_data master_plan);
                   ("generated_at", JInt (generated_at master_plan))])
  end.

(** Keys of a dictionary built at run time: [None], [bool], [int] and
    [str] can be hashed; equal numbers are one key. *)
Definition hashable (v : json) : bool :=
  match v with
  | JList _ | JDict _ => false
  | _ => true
  end.

Definition key_eq (a b : json) : bool :=
  match a, b with
  | JNull, JNull => true
  | JStr s, JStr t => String.eqb s t
  | JInt n, _ => eq_int n b
  | JBool x, _ => eq_int (if x then 1 else 0) b
  | _, _ => false
  end.

(** [{adj["week_number"]: adj for adj in adjustments}], as the list of
    its items; a later item with an equal key wins. *)
Fixpoint index_adjustments (adjustments : list json) : res (list (json * json)) :=
  match adjustments with
  | [] => inr []
  | adj :: rest =>
      k <~ subscript adj "week_number";
      if hashable k then
        more <~ index_adjustments rest;
        inr ((k, adj) :: more)
      else inl TypeError
  end.

Fixpoint find_adjustment (week_num : json) (items : list (json * json)) : option json :=
  match items with
  | [] => None
  | (k, adj) :: rest =>
      match find_adjustment week_num rest with
      | Some later => Some later
      | None => if key_eq k week_num then Some adj else None
      end
  end.

(** The body of the loop of [personalize_plan] for one week. *)
Definition personalize_week (week_adjustments : list (json * json)) (week : json)
  : res json :=
  week_num <~ subscript week "week_number";
  if hashable week_num then
    match find_adjustment week_num week_adjustments with
    | Some adj =>
        difficulty <~ get adj "difficulty" (JStr "intermediate");
        w1 <~ set_item week "difficulty" difficulty;
        emphasis <~ get adj "emphasis" (JList []);
        w2 <~ set_item w1 "emphasis" emphasis;
        additional_focus <~ get adj "additional_focus" (JList []);
        set_item w2 "additional_focus" additional_focus
    | None => inr week
    end
  else inl TypeError.

Fixpoint personalize_weeks (week_adjustments : list (json * json)) (weeks : list json)
  : res (list json) :=
  match weeks with
  | [] => inr []
  | week :: rest =>
      w <~ personalize_week week_adjustments week;
      more <~ personalize_weeks week_adjustments rest;
      inr (w :: more)
  end.

(** The week titles of the prompt: [w['week_number']] and [w['title']] of
    every week. *)
Fixpoint week_titles (weeks : list json) : res unit :=
  match weeks with
  | [] => inr tt
  | w :: rest =>
      _ <~ subscript w "week_number";
      _ <~ subscript w "title";
      week_titles rest
  end.

(** [PlanTemplateService.personalize_plan].  The request and the decoding
    of its answer are the backend's: [answer_personalize] is the decoded
    dictionary of personalizations (for an answer that is no JSON and has
    no fence, the dictionary that holds the overview of the master plan
    alone). *)
Definition personalize_plan (g : Grok) (master_plan resume_analysis : json) : M json :=
  _ <- lift (get master_plan "overview" (JStr EmptyString));;
  weeks <- lift (get master_plan "weeks" (JList []));;
  weeks <- lift (iterate weeks);;
  _ <- lift (week_titles weeks);;
  _ <- lift (get resume_analysis "experience_level" (JStr "mid"));;
  personalizations <-
    request (CallPersonalize master_plan resume_analysis)
      (fun n => answer_personalize g n master_plan resume_analysis);;
  adjustments <- lift (get personalizations "week_adjustments" (JList []));;
  adjustments <- lift (iterate adjustments);;
  week_adjustments <- lift (index_adjustments adjustments);;
  personalized_weeks <- lift (personalize_weeks week_adjustments weeks);;
  overview <- lift (get master_plan "overview" JNull);;
  overview <- lift (get personalizations "personalized_overview" overview);;
  recommendations <- lift (get personalizations "recommendations" (JList []));;
  ret (JDict [("overview", overview);
              ("recommendations", recommendations);
              ("weeks", JList personalized_weeks)]).

(* ------------------------------------------------------------------ *)
(** ** app/routes.py: the master plan endpoint                          *)
(* ------------------------------------------------------------------ *)

(** [generate_master_plan_endpoint]: whatever the service raises becomes
    [HTTPException(status_code=500, ..)]. *)
Definition generate_master_plan_endpoint (g : Grok) (codebase_id : string) : M json :=
  fun w =>
    let '(r, w') := generate_master_plan g codebase_id w in
    let body :=
      master_plan <~ r;
      plan_id <~ subscript master_plan "id";
      weeks <~ subscript master_plan "weeks";
      n <~ len weeks;
      inr (JDict [("message", JStr "Master plan generated successfully");
                  ("plan_id", plan_id);
                  ("weeks_count", JInt n)]) in
    match body with
    | inr v => (inr v, w')
    | inl e =>
        (inl (HTTPException 500 ("Master plan generation failed: " +:+ exn_str e)),
         w')
    end.

(* ------------------------------------------------------------------ *)
(** ** app/routes.py: plan creation                                     *)
(* ------------------------------------------------------------------ *)

(** The request body [schema.LearningPlanCreate]. *)
Record LearningPlanCreate : Type := {
  req_candidate_id : Z;
  req_codebase_url : string;
  req_github_token : option string;
  force_regenerate : bool
}.

(** The week entries of a response: number, title, objectives, topics.
    [strict] is the variant that reads the objectives with a subscript. *)
Fixpoint week_plans (strict : bool) (weeks : list json) : res (list json) :=
  match weeks with
  | [] => inr []
  | w :: rest =>
      n <~ subscript w "week_number";
      title <~ subscript w "title";
      objectives <~ (if strict then subscript w "objectives"
                     else get w "objectives" (JList []));
      topics <~ get w "topics" (JList []);
      more <~ week_plans strict rest;
      inr (JDict [("week_number", n); ("title", title);
                  ("objectives", objectives); ("topics", topics)] :: more)
  end.

(** [LearningPlanResponse(..)] (the validation of the response model is
    left out). *)
Definition plan_response (strict : bool) (p : LearningPlan) : res json :=
  weeks <~ get (plan_data p) "weeks" (JList []);
  weeks <~ iterate weeks;
  weeks <~ week_plans strict weeks;
  inr (JDict [("id", JInt (lp_id p));
              ("candidate_id", JInt (lp_candidate_id p));
              ("codebase_url", JStr (lp_codebase_id p));
              ("weeks", JList weeks);
              ("created_at", JInt (lp_created_at p))]).

(** The weeks of the plan data of a personalized plan. *)
Fixpoint plan_weeks (weeks : list json) : res (list json) :=
  match weeks with
  | [] => inr []
  | w :: rest =>
      n <~ subscript w "week_number";
      title <~ subscript w "title";
      objectives <~ get w "objectives" (JList []);
      topics <~ get w "topics" (JList []);
      focus_areas <~ get w "focus_areas" (JList []);
      more <~ plan_weeks rest;
      inr (JDict [("week_number", n); ("title", title);
                  ("objectives", objectives); ("topics", topics);
                  ("focus_areas", focus_areas)] :: more)
  end.

(** A [WeeklyContent] object that was added to the session and is not
    written yet: the week number is the value it was built with. *)
Record PendingContent : Type := {
  pc_week_number : json;
  pc_reading_material : json;
  pc_coding_tasks : json;
  pc_quiz : json
}.

(** The objects made from the weeks of the personalized plan. *)
Fixpoint content_rows (weeks : list json) : res (list PendingContent) :=
  match weeks with
  | [] => inr []
  | week_data :: rest =>
      n <~ subscript week_data "week_number";
      reading <~ get week_data "reading_material" (JDict []);
      tasks <~ get week_data "coding_tasks" (JList []);
      quiz <~ get week_data "quiz" (JList []);
      more <~ content_rows rest;
      inr ({| pc_week_number := n; pc_reading_material := reading;
              pc_coding_tasks := tasks; pc_quiz := quiz |} :: more)
  end.

(** [week_number] is an Integer column.  The model follows the week
    numbers that are ints; for any other value the write is taken to
    fail. *)
Definition as_int (v : json) : res Z :=
  match v with
  | JInt n => inr n
  | JBool b => inr (if b then 1 else 0)
  | _ => inl TypeError
  end.

Fixpoint flush_rows (plan_id : Z) (pending : list PendingContent)
  : res (list WeeklyContent) :=
  match pending with
  | [] => inr []
  | p :: rest =>
      n <~ as_int (pc_week_number p);
      more <~ flush_rows plan_id rest;
      inr ({| wc_learning_plan_id := plan_id; wc_week_number := n;
              reading_material := pc_reading_material p;
              coding_tasks := pc_coding_tasks p;
              quiz := pc_quiz p |} :: more)
  end.

(** The next value of an autoincrement key. *)
Definition next_id (ids : list Z) : Z := 1 + foldr Z.max 0 ids.

Definition add_learning_plan (p : LearningPlan) (d : DB) : DB :=
  {| candidates := candidates d;
     codebase_analyses := codebase_analyses d;
     learning_plans := learning_plans d ++ [p];
     weekly_content := weekly_content d;
     master_plans := master_plans d;
     now := now d |}.

Definition add_weekly_content (rows : list WeeklyContent) (d : DB) : DB :=
  {| candidates := candidates d;
     codebase_analyses := codebase_analyses d;
     learning_plans := learning_plans d;
     weekly_content := weekly_content d ++ rows;
     master_plans := master_plans d;
     now := now d |}.

(** [db.add(learning_plan); await db.commit(); await db.refresh(..)]. *)
Definition insert_learning_plan (candidate_id : Z) (codebase_id : string)
    (data : json) : M LearningPlan :=
  d <- get_db;;
  let p := {| lp_id := next_id (map lp_id (learning_plans d));
              lp_candidate_id := candidate_id;
              lp_codebase_id := codebase_id;
              plan_data := data;
              lp_created_at := now d |} in
  _ <- commit (add_learning_plan p);;
  ret p.

(** The fast path: the plan and its weekly content from the master plan. *)
Definition plan_from_master (g : Grok) (candidate : Candidate) (codebase_url : string)
    (master_plan : json) : M json :=
  personalized <- personalize_plan g master_plan (resume_analysis candidate);;
  overview <- lift (subscript personalized "overview");;
  recommendations <- lift (get personalized "recommendations" (JList []));;
  weeks <- lift (subscript personalized "weeks");;
  weeks <- lift (iterate weeks);;
  entries <- lift (plan_weeks weeks);;
  learning_plan <-
    insert_learning_plan (cand_id candidate) codebase_url
      (JDict [("overview", overview);
              ("recommendations", recommendations);
              ("weeks", JList entries)]);;
  pending <- lift (content_rows weeks);;
  rows <- lift (flush_rows (lp_id learning_plan) pending);;
  _ <- commit (add_weekly_content rows);;
  lift (plan_response false learning_plan).

(** The slow path: a plan from scratch and on-demand content for its
    weeks; a week whose generation fails is skipped. *)
Fixpoint generate_all_weeks (g : Grok) (codebase_analysis : json)
    (weeks : list json) : M (list PendingContent) :=
  match weeks with
  | [] => ret []
  | week :: rest =>
      n <- lift (subscript week "week_number");;
      outcome <-
        attempt
          (reading <- generate_weekly_reading g week codebase_analysis None;;
           tasks <- generate_coding_tasks g week codebase_analysis None;;
           content <- lift (get reading "content" (JStr EmptyString));;
           quiz <- generate_quiz g week content;;
           ret {| pc_week_number := n; pc_reading_material := reading;
                  pc_coding_tasks := tasks; pc_quiz := quiz |});;
      more <- generate_all_weeks g codebase_analysis rest;;
      match outcome with
      | inr row => ret (row :: more)
      | inl _ => ret more
      end
  end.

Definition plan_from_scratch (g : Grok) (candidate : Candidate)
    (request : LearningPlanCreate) : M json :=
  d <- get_db;;
  codebase_analysis <-
    match latest_analysis d (req_codebase_url request) with
    | Some a => ret (analysis_data a)
    | None => analyze_codebase g (req_codebase_url request) (req_github_token request)
    end;;
  data <- grok_generate_learning_plan g (resume_analysis candidate) codebase_analysis;;
  learning_plan <-
    insert_learning_plan (cand_id candidate) (req_codebase_url request) data;;
  weeks <- lift (get data "weeks" (JList []));;
  weeks <- lift (iterate weeks);;
  pending <- generate_all_weeks g codebase_analysis weeks;;
  rows <- lift (flush_rows (lp_id learning_plan) pending);;
  _ <- commit (add_weekly_content rows);;
  lift (plan_response true learning_plan).

(** Seven days, in the unit of the clock (seconds). *)
Definition seven_days : Z := 7 * 86400.

(** The plan of the cache: the latest plan of the candidate for the
    codebase, when it is less than seven days old and the request does not
    force a new one. *)
Definition cached_plan (d : DB) (request : LearningPlanCreate) : option LearningPlan :=
  if force_regenerate request then None
  else
    match first_by lp_created_at
            (filter (fun p => lp_candidate_id p = req_candidate_id request
                              ∧ lp_codebase_id p = req_codebase_url request)
               (learning_plans d)) with
    | Some p => if now d - lp_created_at p <? seven_days then Some p else None
    | None => None
    end.

(** The body of the [try] of the endpoint. *)
Definition create_plan (g : Grok) (candidate : Candidate)
    (request : LearningPlanCreate) : M json :=
  d <- get_db;;
  match get_master_plan (req_codebase_url request) d with
  | Some master_plan =>
      plan_from_master g candidate (req_codebase_url request) master_plan
  | None => plan_from_scratch g candidate request
  end.

(** [except Exception as e: raise HTTPException(status_code=500, ..)]. *)
Definition or_500 {A} (detail : string) (m : M A) : M A :=
  fun w =>
    match m w with
    | (inl e, w') => (inl (HTTPException 500 (detail +:+ exn_str e)), w')
    | (inr v, w') => (inr v, w')
    end.

(** [generate_learning_plan], the endpoint. *)
Definition generate_learning_plan (g : Grok) (request : LearningPlanCreate) : M json :=
  d <- get_db;;
  candidate <- lift (find_candidate d (req_candidate_id request));;
  match candidate with
  | None => raise (HTTPException 404 "Candidate not found")
  | Some candidate =>
      if negb (truthy (resume_analysis candidate))
      then raise (HTTPException 400 "Resume must be analyzed first")
      else
        match cached_plan d request with
        | Some existing_plan => lift (plan_response false existing_plan)
        | None => or_500 "Plan generation failed: " (create_plan g candidate request)
        end
  end.

(* ------------------------------------------------------------------ *)
(** ** app/routes.py: weekly content                                    *)
(* ------------------------------------------------------------------ *)

(** The expectation prompt of the candidate's seniority band.  [prompts]
    reads a file of the directory of expectation prompts ([None] when it
    does not exist); whatever is raised on the way leaves the context
    unset. *)
Definition expectation_of (prompts : string -> option string)
    (candidate : option Candidate) : option string :=
  match candidate with
  | Some c =>
      if truthy (resume_analysis c) then
        match get (resume_analysis c) "experience_level" (JStr "junior") with
        | inr (JStr l) =>
            let level := lower l in
            let prompt_file :=
              if contains "senior" level || contains "staff" level
                 || contains "lead" level
              then "senior_engineer_prompt.md"
              else "junior_engineer_prompt.md" in
            prompts prompt_file
        | _ => None
        end
      else None
  | None => None
  end.

(** [if expectation_context:] holds for a non-empty text. *)
Definition usable (expectation_context : option string) : option string :=
  match expectation_context with
  | Some s => if String.eqb s EmptyString then None else Some s
  | None => None
  end.

(** [next((w for w in weeks if w.get("week_number") == week_number), None)]:
    the first week with that number; the weeks after it are not looked
    at. *)
Fixpoint find_week (week_number : Z) (weeks : list json) : res (option json) :=
  match weeks with
  | [] => inr None
  | w :: rest =>
      n <~ get w "week_number" JNull;
      if eq_int week_number n then inr (Some w) else find_week week_number rest
  end.

(** [not x.get("reason")]. *)
Definition lacks_reason (x : json) : res bool :=
  r <~ get x "reason" JNull;
  inr (negb (truthy r)).

(** [reading and not reading.get("reason")]. *)
Definition reading_lacks_reason (reading : json) : res bool :=
  if truthy reading then lacks_reason reading else inr false.

(** [reading["reason"] = await grok_service.generate_reasoning(..)]. *)
Definition add_reading_reason (g : Grok) (ctx : string) (reading : json) : M json :=
  title <- lift (get reading "title" (JStr "Weekly Reading"));;
  content <- lift (get reading "content" (JStr EmptyString));;
  description <- lift (slice200 content);;
  reason <- generate_reasoning g ctx "reading material" title description;;
  lift (set_item reading "reason" (JStr reason)).

(** [[not task.get("reason") for task in tasks]], evaluated before any
    request is made. *)
Fixpoint flags (tasks : list json) : res (list bool) :=
  match tasks with
  | [] => inr []
  | t :: rest =>
      b <~ lacks_reason t;
      bs <~ flags rest;
      inr (b :: bs)
  end.

Definition tasks_lacking_reason (tasks : json) : res (list bool) :=
  elements <~ iterate tasks;
  flags elements.

(** [asyncio.gather] over the tasks without a reason; the requests are
    taken in the order of the list. *)
Fixpoint add_task_reasons (g : Grok) (ctx : string) (tasks : list (json * bool))
  : M (list json) :=
  match tasks with
  | [] => ret []
  | (t, false) :: rest =>
      more <- add_task_reasons g ctx rest;;
      ret (t :: more)
  | (t, true) :: rest =>
      title <- lift (get t "title" (JStr "Task"));;
      description <- lift (get t "description" (JStr EmptyString));;
      description <- lift (slice200 description);;
      reason <- generate_reasoning g ctx "coding task" title description;;
      t' <- lift (set_item t "reason" (JStr reason));;
      more <- add_task_reasons g ctx rest;;
      ret (t' :: more)
  end.

(** [if reasoning_tasks: ..]: the task list with the missing reasons
    filled in.  Only a list gets here with a task that lacks one. *)
Definition fill_task_reasons (g : Grok) (ctx : string) (tasks : json)
    (missing : list bool) : M json :=
  match tasks with
  | JList l =>
      l' <- add_task_reasons g ctx (zip l missing);;
      ret (JList l')
  | _ => ret tasks
  end.

Definition str_of_Z (z : Z) : string := NilZero.string_of_int (Z.to_int z).

(** The branch that copies the week from the master plan. *)
Definition copy_from_master (g : Grok) (expectation_context : option string)
    (master_plan : MasterPlan) (week_number : Z) : M (json * json * json) :=
  weeks <- lift (iterate (weeks_data master_plan));;
  week_content <- lift (find_week week_number weeks);;
  match week_content with
  | Some week_content =>
      reading <- lift (get week_content "reading_material" (JDict []));;
      tasks <- lift (get week_content "coding_tasks" (JList []));;
      quiz <- lift (get week_content "quiz" (JList []));;
      match usable expectation_context with
      | Some ctx =>
          no_reason <- lift (reading_lacks_reason reading);;
          reading <- (if no_reason : bool then add_reading_reason g ctx reading
                      else ret reading);;
          missing <- lift (tasks_lacking_reason tasks);;
          tasks <- (if existsb id missing then fill_task_reasons g ctx tasks missing
                    else ret tasks);;
          ret (reading, tasks, quiz)
      | None => ret (reading, tasks, quiz)
      end
  | None =>
      raise (HTTPException 404
               ("Week " +:+ str_of_Z week_number +:+ " not found in master plan"))
  end.

(** The fallback branch: generation on demand from the week of the
    learning plan. *)
Definition generate_on_demand (g : Grok) (expectation_context : option string)
    (learning_plan : LearningPlan) (week_number : Z) : M (json * json * json) :=
  weeks <- lift (get (plan_data learning_plan) "weeks" (JList []));;
  weeks <- lift (iterate weeks);;
  week_data <- lift (find_week week_number weeks);;
  match week_data with
  | None =>
      raise (HTTPException 404
               ("Week " +:+ str_of_Z week_number +:+ " not found in learning plan"))
  | Some week_data =>
      d <- get_db;;
      let codebase_analysis :=
        match latest_analysis d (lp_codebase_id learning_plan) with
        | Some a => analysis_data a
        | None => JDict []
        end in
      reading <- generate_weekly_reading g week_data codebase_analysis
                   expectation_context;;
      tasks <- generate_coding_tasks g week_data codebase_analysis
                 expectation_context;;
      content <- lift (get reading "content" (JStr EmptyString));;
      quiz <- generate_quiz g week_data content;;
      ret (reading, tasks, quiz)
  end.

(** [if master_plan and master_plan.weeks_data:]. *)
Definition master_plan_available (master_plan : option MasterPlan) : option MasterPlan :=
  match master_plan with
  | Some m => if truthy (weeks_data m) then Some m else None
  | None => None
  end.

(** The table of weekly content with the row of the week created, or
    updated when there is one. *)
Definition put_weekly_content (existing : option WeeklyContent) (row : WeeklyContent)
    (d : DB) : DB :=
  {| candidates := candidates d;
     codebase_analyses := codebase_analyses d;
     learning_plans := learning_plans d;
     weekly_content :=
       match existing with
       | Some _ =>
           map (fun w =>
                  if decide (wc_learning_plan_id w = wc_learning_plan_id row
                             ∧ wc_week_number w = wc_week_number row)
                  then row else w)
             (weekly_content d)
       | None => weekly_content d ++ [row]
       end;
     master_plans := master_plans d;
     now := now d |}.

(** Create or update the row of the week and commit. *)
Definition save_weekly_content (existing : option WeeklyContent) (row : WeeklyContent)
  : M unit :=
  commit (put_weekly_content existing row).

(** The row when the test [not weekly_content or
    not weekly_content.reading_material or not weekly_content.coding_tasks]
    fails. *)
Definition materialized (weekly_content : option WeeklyContent) : option WeeklyContent :=
  match weekly_content with
  | Some w =>
      if truthy (reading_material w) && truthy (coding_tasks w) then Some w else None
  | None => None
  end.

Definition materialize (g : Grok) (expectation_context : option string)
    (learning_plan : LearningPlan) (week_number : Z)
    (weekly_content : option WeeklyContent) : M WeeklyContent :=
  d <- get_db;;
  content <-
    match master_plan_available
            (latest_master_plan d (lp_codebase_id learning_plan)) with
    | Some master_plan =>
        copy_from_master g expectation_context master_plan week_number
    | None =>
        generate_on_demand g expectation_context learning_plan week_number
    end;;
  let '(reading, tasks, quiz) := content in
  let row := {| wc_learning_plan_id := lp_id learning_plan;
                wc_week_number := week_number;
                reading_material := reading;
                coding_tasks := tasks;
                quiz := quiz |} in
  _ <- save_weekly_content weekly_content row;;
  ret row.

(** The backfill of reasons on content that exists; it commits when a
    reason was added. *)
Definition backfill (g : Grok) (ctx : string) (w : WeeklyContent) : M WeeklyContent :=
  let reading := reading_material w in
  let tasks := coding_tasks w in
  no_reason <- lift (reading_lacks_reason reading);;
  new_reading <- (if no_reason : bool then add_reading_reason g ctx reading
                  else ret reading);;
  missing <- (if truthy tasks then lift (tasks_lacking_reason tasks) else ret []);;
  new_tasks <- (if existsb id missing then fill_task_reasons g ctx tasks missing
                else ret tasks);;
  if no_reason || existsb id missing then
    let row := {| wc_learning_plan_id := wc_learning_plan_id w;
                  wc_week_number := wc_week_number w;
                  reading_material := new_reading;
                  coding_tasks := new_tasks;
                  quiz := quiz w |} in
    _ <- save_weekly_content (Some w) row;;
    ret row
  else ret w.

(** [get_weekly_content]; the response carries the fields of the row
    (the validation of the response model is left out). *)
Definition get_weekly_content (g : Grok) (prompts : string -> option string)
    (candidate_id week_number : Z) : M WeeklyContent :=
  d <- get_db;;
  match latest_learning_plan d candidate_id with
  | None => raise (HTTPException 404 "Learning plan not found")
  | Some learning_plan =>
      weekly_content <-
        lift (scalar_one_or_none
                (find_weekly_content d (lp_id learning_plan) week_number));;
      candidate <- lift (find_candidate d candidate_id);;
      let expectation_context := expectation_of prompts candidate in
      w <- match materialized weekly_content with
           | Some w => ret w
           | None =>
               materialize g expectation_context learning_plan week_number
                 weekly_content
           end;;
      match usable expectation_context with
      | Some ctx => backfill g ctx w
      | None => ret w
      end
  end.

(* ------------------------------------------------------------------ *)
(** ** app/routes.py: the file endpoints                                *)
(* ------------------------------------------------------------------ *)

(** [str(e)] where the text of an [HTTPException] is that of the installed
    Starlette ([http_text status detail]). *)
Definition str_exc (http_text : Z -> string -> string) (e : exn) : string :=
  match e with
  | HTTPException status_code detail => http_text status_code detail
  | _ => exn_str e
  end.

(** The handlers [except ValueError] and [except Exception] of the two
    file endpoints ([JSONDecodeError] is a [ValueError] in Python). *)
Definition file_errors {A} (http_text : Z -> string -> string) (r : res A) : res A :=
  match r with
  | inr v => inr v
  | inl (ValueError _) | inl (JSONDecodeError _) =>
      inl (HTTPException 400 "Invalid path")
  | inl e => inl (HTTPException 500 (str_exc http_text e))
  end.

(** The two endpoints of routes.py; the second one has the name of the
    method of the service it calls. *)
Module Routes.


(** [get_file_content]: the text under the key "content".  The 404 is
    raised inside the [try]. *)
Definition get_file_content (http_text : Z -> string -> string)
    (fs : filesystem) (codebase_id path : string) : res string :=
  file_errors http_text
    (content <~ get_file_content file_service fs codebase_id path;
     match content with
     | None => inl (HTTPException 404 "File not found")
     | Some content => inr content
     end).

End Routes.

(* ------------------------------------------------------------------ *)
(** ** app/routes.py: reading a plan back                               *)
(* ------------------------------------------------------------------ *)

(** [get_learning_plan]: the latest plan of the candidate; the objectives
    of a week are read with a subscript. *)
Definition get_learning_plan (candidate_id : Z) : M json :=
  d <- get_db;;
  match latest_learning_plan d candidate_id with
  | None => raise (HTTPException 404 "Learning plan not found")
  | Some learning_plan => lift (plan_response true learning_plan)
  end.

(* ------------------------------------------------------------------ *)
(** ** grok_service: the decoding inside the generation methods         *)
(* ------------------------------------------------------------------ *)

(** [json.loads(s)] where its error is let through. *)
Definition loads_or_raise (loads : string -> option json) (s : string) : res json :=
  match loads s with
  | Some v => inr v
  | None => inl (JSONDecodeError s)
  end.

(** The end of [generate_coding_tasks]: what it makes of the response of
    the completion endpoint.  A response with a fence is decoded in place;
    one without goes to [_parse_json_response], and whatever is raised
    there becomes one [ValueError]. *)
Definition decode_tasks (loads : string -> option json) (response : string)
  : res json :=
  match loads response with
  | Some result => get result "tasks" (JList [])
  | None =>
      if contains "```json" response then
        json_str <~ fenced "```json" response;
        result <~ loads_or_raise loads json_str;
        get result "tasks" (JList [])
      else if contains "```" response then
        json_str <~ fenced "```" response;
        result <~ loads_or_raise loads json_str;
        get result "tasks" (JList [])
      else
        match (result <~ _parse_json_response loads response;
               get result "tasks" (JList [])) with
        | inr tasks => inr tasks
        | inl _ => inl (ValueError "Could not parse JSON from Grok response")
        end
  end.

(** How the end of [GrokService.generate_learning_plan] leaves: with the
    plan, with an exception, or at [return plan] with [plan] not bound
    (Python's [UnboundLocalError]). *)
Inductive plan_outcome : Type :=
| Returns (plan : json)
| Raises (e : exn)
| UnboundLocalError.

(** The end of [GrokService.generate_learning_plan].  The [raise] of the
    last branch stands under the [elif], after the assignment. *)
Definition decode_learning_plan (loads : string -> option json) (response : string)
  : plan_outcome :=
  match loads response with
  | Some plan => Returns plan
  | None =>
      if contains "```json" response then
        match fenced "```json" response with
        | inl e => Raises e
        | inr json_str =>
            match loads json_str with
            | Some plan => Returns plan
            | None => Raises (JSONDecodeError json_str)
            end
        end
      else if contains "```" response then
        match fenced "```" response with
        | inl e => Raises e
        | inr json_str =>
            match loads json_str with
            | Some plan => Raises (ValueError "Could not parse JSON from Grok response")
            | None => Raises (JSONDecodeError json_str)
            end
        end
      else UnboundLocalError
  end.

(* ================================================================== *)
(** * Part II. Notions of the statements, example data                  *)
(* ================================================================== *)

(** A string that [lstrip] leaves alone: empty, or led by a character
    that is not white space. *)
Definition no_lead (s : string) : Prop :=
  match s with
  | String c _ => isspace c = false
  | EmptyString => True
  end.

(** What happens to the one candidate. *)
Definition decode (loads : string -> option json) (json_str : string) : res json :=
  match loads json_str with
  | Some v => inr v
  | None =>
      let json_str :=
        replace carriage_return EmptyString (replace newline " " json_str) in
      match loads json_str with
      | Some v => inr v
      | None => inl (JSONDecodeError json_str)
      end
  end.

(** The one candidate of a response that is not JSON as a whole: the
    stripped text from the first labeled fence to the next fence; without
    a labeled fence, the stripped text between the first two fences;
    without a fence, the stripped leftmost brace-delimited object. *)
Inductive candidate_of (response : string) : string -> Prop :=
| candidate_labeled_fence (pre rest : string) :
    cut "```json" response = Some (pre, rest) ->
    candidate_of response (strip (before "```" (before "```json" rest)))
| candidate_plain_fence (pre rest : string) :
    contains "```json" response = false ->
    cut "```" response = Some (pre, rest) ->
    candidate_of response (strip (before "```" rest))
| candidate_braces (m : string) :
    contains "```" response = false ->
    re_search response = Some m ->
    candidate_of response (strip m).

(** The candidate with its newlines replaced by spaces and its carriage
    returns removed. *)
Definition cleaned (c : string) : string :=
  replace carriage_return EmptyString (replace newline " " c).

(** The response of the specification's example and a response whose fenced
    block is not JSON although an object follows it. *)
Definition object_a1 : string :=
  "{" +:+ dquote +:+ "a" +:+ dquote +:+ ":1}".

Definition example_response : string :=
  "Here: ```json" +:+ newline +:+ object_a1 +:+ newline +:+ "```".

Definition stray_fence_response : string :=
  "```json" +:+ newline +:+ "not json" +:+ newline +:+ "``` " +:+ object_a1.

(** A server directory with a repository under storage/codebases, a
    second repository, and files of the application beside them. *)
Definition disk : filesystem :=
  FS (Dir [("srv",
        Dir [("secret.env", File (Some "KEY=1") 5);
             ("main.py", File (Some "import app") 10);
             ("storage",
              Dir [("codebases",
                Dir [("rocksdb",
                       Dir [("README.md", File (Some "RocksDB") 7);
                            ("db", Dir [])]);
                     ("other", Dir [("notes.txt", File (Some "private") 7)])])])])])
     ["srv"].

(** Whether the location [l] lies under the location [root]. *)
Definition under (root l : list string) : bool :=
  match strip_base root l with Some _ => true | None => false end.

(** The list a JSON column holds, empty when it holds no list. *)
Definition list_of (v : json) : list json :=
  match v with JList l => l | _ => [] end.

(** The completed chapters and tasks of a pair (candidate, week). *)
Definition chapters_of (t : progress_table) (k : Z * Z) : list json :=
  match t !! k with
  | Some p => list_of (reading_completed p)
  | None => []
  end.

Definition tasks_of (t : progress_table) (k : Z * Z) : list json :=
  match t !! k with
  | Some p => list_of (tasks_completed p)
  | None => []
  end.

(** The operations that update progress; a request that raises changes
    nothing. *)
Inductive progress_op : Type :=
| OpUpdate (candidate_id : Z) (progress : ProgressUpdate)
| OpMark (candidate_id week_number chapter_number : Z).

Definition apply_op (t : progress_table) (o : progress_op) : progress_table :=
  match o with
  | OpUpdate c p =>
      match update_progress c p t with
      | inr (t', _) => t'
      | inl _ => t
      end
  | OpMark c w ch => (mark_chapter_complete c w ch t).1
  end.

Definition run_ops (ops : list progress_op) (t : progress_table) : progress_table :=
  foldl apply_op t ops.

(** An operation that does not carry the boolean [reading_completed]. *)
Definition keeps_reading (o : progress_op) : Prop :=
  match o with
  | OpUpdate _ p => pu_reading_completed p = None
  | OpMark _ _ _ => True
  end.

(** The tables the operations build from the empty table. *)
Inductive reachable : progress_table -> Prop :=
| reach_empty : reachable ∅
| reach_step t o : reachable t -> reachable (apply_op t o).

Definition is_int (x : json) : Prop := exists n, x = JInt n.

(** Every list of completed chapters holds ints, each once. *)
Definition chapters_ok (t : progress_table) : Prop :=
  forall k, NoDup (chapters_of t k) /\ Forall is_int (chapters_of t k).

(** The list [mark_chapter_complete] returns when the list it starts
    from is [l]. *)
Definition with_chapter (ch : Z) (l : list json) : list json :=
  if existsb (eq_int ch) l then l else l ++ [JInt ch].

(** The chapters the column holds after [mark_chapter_complete] on the
    row [row]: a list that was loaded stays as it was. *)
Definition stored_chapters (ch : Z) (row : option Progress) : list json :=
  match row with
  | Some p =>
      match reading_completed p with
      | JList l => l
      | _ => [JInt ch]
      end
  | None => [JInt ch]
  end.

(** Three operations on the empty table: two chapters, a task. *)
Definition two_chapters : list progress_op :=
  [OpMark 1 1 1;
   OpUpdate 1 {| pu_week_number := 1; pu_reading_completed := None;
                 pu_task_id := Some "task-1"; pu_quiz_answers := None |};
   OpMark 1 1 2].

(** How often chapter [ch] stands in a list of chapters. *)
Definition occurrences (ch : Z) (l : list json) : nat :=
  length (filter (fun x => eq_int ch x = true) l).



(** A week for the example of the specification: three section markers
    (two chapters), four tasks, five questions; one chapter and two tasks
    done, three answers. *)
Definition example_week : WeeklyContent :=
  {| wc_learning_plan_id := 1;
     wc_week_number := 1;
     reading_material :=
       JDict [("title", JStr "Week 1");
              ("content", JStr "## Setup ## Build ## Test")];
     coding_tasks := JList (replicate 4 (JDict []));
     quiz := JList (replicate 5 (JDict [])) |}.

Definition example_progress : Progress :=
  {| reading_completed := JList [JInt 1];
     tasks_completed := JList [JStr "task-1"; JStr "task-2"];
     quiz_score := Some 3;
     quiz_answers := Some [0; 1; 2] |}.

(** The error, if any, of the answer to request [c] made after [n]
    requests. *)
Definition failed (g : Grok) (n : nat) (c : Call) : option exn :=
  let err {A} (r : res A) :=
    match r with inl e => Some e | inr _ => None end in
  match c with
  | CallPlan a => err (answer_plan g n a)
  | CallReading w a x => err (answer_reading g n w a x)
  | CallTasks w a x => err (answer_tasks g n w a x)
  | CallQuiz w x => err (answer_quiz g n w x)
  | CallReasoning x t ti d => err (answer_reasoning g n x t ti d)
  | CallPersonalize m r => err (answer_personalize g n m r)
  | CallAnalyze u t => err (answer_analyze g n u t)
  | CallLearningPlan r a => err (answer_learning_plan g n r a)
  end.

(** A computation that only adds to the log and ends with the error of
    the first request that fails. *)
Definition logs (g : Grok) {A} (m : M A) : Prop :=
  forall w r w', m w = (r, w') ->
    exists new, calls w' = calls w ++ new
      /\ forall i c e, new !! i = Some c ->
           failed g (length (calls w) + i) c = Some e -> r = inl e.

(** A computation that leaves the database as it is. *)
Definition reads {A} (m : M A) : Prop :=
  forall w r w', m w = (r, w') -> db w' = db w.

(** A database with one analysis of the codebase and one candidate, a
    backend that always answers, and one whose quiz request for the second
    week (the seventh request) fails. *)
Definition week_skeleton (n : Z) (title : string) : json :=
  JDict [("week_number", JInt n); ("title", JStr title);
         ("objectives", JList [JStr "Read the code"])].

Definition steady : Grok :=
  {| answer_plan := fun _ _ =>
       inr (JDict [("overview", JStr "Four weeks");
                   ("weeks", JList [week_skeleton 1 "Foundations";
                                    week_skeleton 2 "Core components"])]);
     answer_reading := fun _ week _ _ =>
       inr (JDict [("title", JStr "Reading"); ("content", JStr "## Overview")]);
     answer_tasks := fun _ _ _ _ => inr (JList [JDict [("id", JStr "task-1")]]);
     answer_quiz := fun _ _ _ => inr (JList [JDict [("id", JStr "q1")]]);
     answer_reasoning := fun _ _ _ _ _ => inr "Relevant because it is.";
     answer_personalize := fun _ _ _ =>
       inr (JDict [("personalized_overview", JStr "Your four weeks");
                   ("week_adjustments",
                    JList [JDict [("week_number", JInt 1);
                                  ("difficulty", JStr "advanced")]])]);
     answer_analyze := fun _ _ _ => inr (JDict [("architecture", JStr "LSM tree")]);
     answer_learning_plan := fun _ _ _ =>
       inr (JDict [("overview", JStr "Your four weeks");
                   ("weeks", JList [week_skeleton 1 "Foundations";
                                    week_skeleton 2 "Core components"])]) |}.

Definition flaky : Grok :=
  {| answer_plan := answer_plan steady;
     answer_reading := answer_reading steady;
     answer_tasks := answer_tasks steady;
     answer_quiz := fun n week content =>
       if (n =? 6)%nat then inl (UpstreamError "503 Service Unavailable")
       else answer_quiz steady n week content;
     answer_reasoning := answer_reasoning steady;
     answer_personalize := answer_personalize steady;
     answer_analyze := answer_analyze steady;
     answer_learning_plan := answer_learning_plan steady |}.

Definition analysed : DB :=
  {| candidates :=
       [{| cand_id := 7; cand_name := "Ada";
           resume_analysis := JDict [("experience_level", JStr "Senior")] |}];
     codebase_analyses :=
       [{| ca_codebase_id := "rocksdb";
           analysis_data := JDict [("architecture", JStr "LSM tree")];
           analyzed_at := 1 |}];
     learning_plans := [];
     weekly_content := [];
     master_plans := [];
     now := 10 |}.

Definition fresh (d : DB) : World := {| db := d; calls := [] |}.

(** The status of an error response, and the client errors. *)
Definition status_of {A} (r : res A) : option Z :=
  match r with
  | inl (HTTPException s _) => Some s
  | _ => None
  end.

Definition client_error (s : Z) : bool := (400 <=? s) && (s <? 500).

(** From the world [w], the computation makes no request for on-demand
    content. *)
Definition quiet_at {A} (w : World) (m : M A) : Prop :=
  forall r w', m w = (r, w') ->
    exists new, calls w' = calls w ++ new
                /\ Forall (fun c => on_demand c = false) new.

Definition quiet {A} (m : M A) : Prop := forall w, quiet_at w m.

(** An item without its reason, and a task list without its reasons: the
    justification texts are what a request may add to copied content. *)
Definition drop_reason (v : json) : json :=
  match v with
  | JDict kv => JDict (filter (fun p => p.1 <> "reason") kv)
  | _ => v
  end.

Definition drop_reasons (tasks : json) : json :=
  match tasks with
  | JList l => JList (map drop_reason l)
  | _ => tasks
  end.

(** [d.get(k, dflt)] on a dictionary. *)
Definition field (d : json) (k : string) (dflt : json) : json :=
  match get d k dflt with
  | inr v => v
  | inl _ => dflt
  end.

(** The request of candidate 7 for a plan on the codebase. *)
Definition ada_request : LearningPlanCreate :=
  {| req_candidate_id := 7; req_codebase_url := "rocksdb";
     req_github_token := None; force_regenerate := false |}.

(** The database of the example when the plan of candidate 7 was made
    before any master plan, by a backend whose quiz request for week 2
    failed, and the master plan was generated afterwards: the plan has a
    row for week 1 alone.  The prompt file of the senior band. *)
Definition planned : DB :=
  db (generate_master_plan steady "rocksdb"
        (fresh (db (generate_learning_plan flaky ada_request (fresh analysed)).2))).2.

Definition prompt_files (name : string) : option string :=
  if String.eqb name "senior_engineer_prompt.md"
  then Some "Own a subsystem within the first month."
  else None.




(** A week of a master plan with content of its own. *)
Definition week_v2 (n : Z) (title : string) : json :=
  JDict [("week_number", JInt n); ("title", JStr title);
         ("reading_material",
          JDict [("title", JStr "Reading, second edition");
                 ("content", JStr "## Rewritten")]);
         ("coding_tasks", JList [JDict [("id", JStr "task-9")]]);
         ("quiz", JList [JDict [("id", JStr "q9")]])].

Definition no_prompts (name : string) : option string := None.

(** [v] is the number [n] for Python's [==]: the int [n], or the bool
    that equals it. *)
Definition is_number (n : Z) (v : json) : Prop :=
  v = JInt n \/ (v = JBool true /\ n = 1) \/ (v = JBool false /\ n = 0).

(** [week] is the week of [weeks] with the number [n]: the first one
    whose key week_number holds [n]. *)
Definition week_numbered (n : Z) (weeks : list json) (week : json) : Prop :=
  exists pre post number,
    weeks = pre ++ week :: post
    /\ get week "week_number" JNull = inr number /\ is_number n number
    /\ Forall (fun w => exists v, get w "week_number" JNull = inr v
                                  /\ ~ is_number n v) pre.

(** Among the rows of [l] that satisfy [P], [x] has the greatest key;
    in [the_latest] it is the only one with that key. *)
Definition a_latest {A} (key : A -> Z) (P : A -> Prop) (l : list A) (x : A) : Prop :=
  x ∈ l /\ P x /\ forall y, y ∈ l -> P y -> key y <= key x.

Definition the_latest {A} (key : A -> Z) (P : A -> Prop) (l : list A) (x : A) : Prop :=
  x ∈ l /\ P x /\ forall y, y ∈ l -> P y -> y = x \/ key y < key x.

(** No row of the plan for the week holds both reading material and
    coding tasks. *)
Definition unmaterialized (d : DB) (plan_id week_number : Z) : Prop :=
  forall row, row ∈ weekly_content d ->
    wc_learning_plan_id row = plan_id -> wc_week_number row = week_number ->
    truthy (reading_material row) && truthy (coding_tasks row) = false.


(** The keys of a week that the personalization leaves alone. *)
Definition kept (k : string) : Prop :=
  k <> "difficulty" /\ k <> "emphasis" /\ k <> "additional_focus".

(** A backend that has no coding tasks for week 2. *)
Definition terse : Grok :=
  {| answer_plan := answer_plan steady;
     answer_reading := answer_reading steady;
     answer_tasks := fun n week codebase_analysis expectation_context =>
       if eq_int 2 (field week "week_number" JNull) then inr (JList [])
       else answer_tasks steady n week codebase_analysis expectation_context;
     answer_quiz := answer_quiz steady;
     answer_reasoning := answer_reasoning steady;
     answer_personalize := answer_personalize steady;
     answer_analyze := answer_analyze steady;
     answer_learning_plan := answer_learning_plan steady |}.

(** The database of the example when that backend has generated the
    master plan, and when the plan of candidate 7 was then made from
    it. *)
Definition generated : DB :=
  db (generate_master_plan terse "rocksdb" (fresh analysed)).2.

Definition created : DB :=
  db (generate_learning_plan terse ada_request (fresh generated)).2.

(** A backend whose content names the week it is for. *)
Definition varied : Grok :=
  {| answer_plan := answer_plan steady;
     answer_reading := fun _ week _ _ =>
       inr (JDict [("title", field week "title" JNull);
                   ("content", JStr "## Overview")]);
     answer_tasks := fun _ week _ _ =>
       inr (JList [JDict [("id", JStr "task-1");
                          ("week", field week "week_number" JNull)]]);
     answer_quiz := fun _ week _ =>
       inr (JList [JDict [("id", JStr "q1");
                          ("week", field week "week_number" JNull)]]);
     answer_reasoning := answer_reasoning steady;
     answer_personalize := answer_personalize steady;
     answer_analyze := answer_analyze steady;
     answer_learning_plan := answer_learning_plan steady |}.

(** The database of the example when the plan of candidate 7 was made
    before the codebase had a master plan, by a backend whose quiz request
    for week 2 failed (the plan has a row for week 1 alone); and the same
    after the refresh has generated the master plan of the codebase. *)
Definition made : DB :=
  db (generate_learning_plan flaky ada_request (fresh analysed)).2.

Definition drifted : DB :=
  db (generate_master_plan varied "rocksdb" (fresh made)).2.

(** A week of the master plan that backend makes. *)
Definition varied_week (n : Z) (title : string) : json :=
  JDict [("week_number", JInt n); ("title", JStr title);
         ("objectives", JList [JStr "Read the code"]);
         ("reading_material",
          JDict [("title", JStr title); ("content", JStr "## Overview")]);
         ("coding_tasks", JList [JDict [("id", JStr "task-1"); ("week", JInt n)]]);
         ("quiz", JList [JDict [("id", JStr "q1"); ("week", JInt n)]])].

(** The order of the sort key on the items of a listing: directories
    before files, then the names in lower case. *)
Definition item_le (a b : FileItem) : bool :=
  match String.eqb (item_type a) "dir", String.eqb (item_type b) "dir" with
  | true, false => true
  | false, true => false
  | _, _ => String.leb (lower (item_name a)) (lower (item_name b))
  end.

(** The names [list_files] leaves out. *)
Definition hidden (name : string) : bool := startswith ".git" name.

(** Two names with a letter of Latin-1: the first starts with the
    capital E with an acute accent (201), the second with the small one
    (233). *)
Definition etude : string := String (ascii_of_nat 201) "tude.md".
Definition ecole : string := String (ascii_of_nat 233) "cole.md".

(** A checkout with the files of git beside the sources. *)
Definition checkout : filesystem :=
  FS (Dir [("storage",
        Dir [("codebases",
          Dir [("rocksdb",
            Dir [(etude, File (Some "Notes") 5);
                 ("README.md", File (Some "RocksDB") 7);
                 (ecole, File (Some "Cours") 5);
                 (".gitignore", File (Some "*.o") 3);
                 ("db", Dir [("db_impl.cc", File (Some "// db") 5)]);
                 (".git", Dir [("HEAD", File (Some "ref") 3)]);
                 ("Makefile", File (Some "all:") 4);
                 (".github", Dir []);
                 ("build.sh", File None 9);
                 ("CMake", Dir [])])])])])
     [].

Definition is_str (x : json) : Prop := exists s, x = JStr s.

(** A row as the two handlers leave it: the tasks are a list of strings,
    each once; the chapters are a list of ints, each once, or the column
    holds the flag 0 or 1; the score is the number of the stored
    answers. *)
Definition row_ok (p : Progress) : Prop :=
  (exists l, tasks_completed p = JList l /\ NoDup l /\ Forall is_str l)
  /\ ((exists l, reading_completed p = JList l /\ NoDup l /\ Forall is_int l)
      \/ reading_completed p = JInt 0 \/ reading_completed p = JInt 1)
  /\ quiz_score p = (fun a => Z.of_nat (length a)) <$> quiz_answers p.

(** The pair an operation is about. *)
Definition op_key (o : progress_op) : Z * Z :=
  match o with
  | OpUpdate c p => (c, pu_week_number p)
  | OpMark c w _ => (c, w)
  end.

(** A table whose rows are all well formed. *)
Definition table_ok (t : progress_table) : Prop :=
  forall k r, t !! k = Some r -> row_ok r.

(** The row [update_progress] writes, field by field. *)
Definition new_reading (progress : ProgressUpdate) (old : json) : json :=
  match pu_reading_completed progress with
  | Some b =>
      let flag := if b then 1 else 0 in
      if eq_int flag old then old else JInt flag
  | None => old
  end.

Definition new_tasks (is_new : bool) (progress : ProgressUpdate) (old : json)
  : res json :=
  match pu_task_id progress with
  | Some task_id =>
      tasks <~ add_task task_id old;
      inr (committed is_new (truthy old) old tasks)
  | None => inr old
  end.

(** The three requests made for the week [week] of a master plan. *)
Definition week_requests (codebase_analysis week : json) (cs : list Call) : Prop :=
  exists content,
    cs = [CallReading week codebase_analysis None;
          CallTasks week codebase_analysis None;
          CallQuiz week content].

(** A week of a master plan with its content: the week of the skeleton
    with the three keys set. *)
Definition week_with_content (week full : json) : Prop :=
  exists reading tasks quiz w1 w2,
    set_item week "reading_material" reading = inr w1
    /\ set_item w1 "coding_tasks" tasks = inr w2
    /\ set_item w2 "quiz" quiz = inr full.

(** A personalized week beside the week of the master plan: the keys the
    personalization leaves alone have the values they had. *)
Definition same_kept (week week' : json) : Prop :=
  forall k, kept k ->
    subscript week' k = subscript week k
    /\ forall dflt, get week' k dflt = get week k dflt.

(** The world is left as it was. *)
Definition untouched {A} (m : M A) (w : World) : Prop := (m w).2 = w.

(** The world when the clock reads [t]. *)
Definition at_time (t : Z) (w : World) : World :=
  {| db := {| candidates := candidates (db w);
              codebase_analyses := codebase_analyses (db w);
              learning_plans := learning_plans (db w);
              weekly_content := weekly_content (db w);
              master_plans := master_plans (db w);
              now := t |};
     calls := calls w |}.

(** The request sent again, without the flag that forces a new plan. *)
Definition again (request : LearningPlanCreate) : LearningPlanCreate :=
  {| req_candidate_id := req_candidate_id request;
     req_codebase_url := req_codebase_url request;
     req_github_token := req_github_token request;
     force_regenerate := false |}.

(** The plans of the candidate were made before the clock's time. *)
Definition plans_are_older (candidate_id : Z) (d : DB) : Prop :=
  forall p, p ∈ learning_plans d -> lp_candidate_id p = candidate_id ->
            lp_created_at p < now d.

(** The database [d'] is [d] with the plans [new] and the content rows
    [rows] added at the end of their tables. *)
Definition appended (new : list LearningPlan) (rows : list WeeklyContent)
    (d d' : DB) : Prop :=
  d' = {| candidates := candidates d;
          codebase_analyses := codebase_analyses d;
          learning_plans := learning_plans d ++ new;
          weekly_content := weekly_content d ++ rows;
          master_plans := master_plans d;
          now := now d |}.

(** The week numbers of the weeks of a plan. *)
Definition week_numbers (weeks : list json) : list json :=
  map (fun week => field week "week_number" JNull) weeks.

(** Every item of the row has a reason: the reading, and each coding
    task. *)
Definition reasoned (row : WeeklyContent) : Prop :=
  reading_lacks_reason (reading_material row) = inr false
  /\ exists missing,
       tasks_lacking_reason (coding_tasks row) = inr missing
       /\ existsb id missing = false.

(** The candidate has an expectation prompt to hand to the backend. *)
Definition has_prompt (prompts : string -> option string) (d : DB)
    (candidate_id : Z) : Prop :=
  exists cand ctx,
    find_candidate d candidate_id = inr cand
    /\ usable (expectation_of prompts cand) = Some ctx.

(** A response that holds its document in a labeled fence, and one that
    holds it in a fence without a label. *)
Definition labeled_tasks : string :=
  "Here you go:" +:+ newline +:+ "```json" +:+ newline
  +:+ "{" +:+ dquote +:+ "tasks" +:+ dquote +:+ ": [1, 2]}" +:+ newline +:+ "```".

Definition unlabeled_plan : string :=
  "```" +:+ newline
  +:+ "{" +:+ dquote +:+ "weeks" +:+ dquote +:+ ": []}" +:+ newline +:+ "```".

(* ================================================================== *)
(** * Part III. Properties                                              *)
(* ================================================================== *)

(* ------------------------------------------------------------------ *)
(** ** Strings: [split] in terms of the first occurrence                *)
(* ------------------------------------------------------------------ *)

Lemma append_cons (c : ascii) (s t : string) :
  String c s +:+ t = String c (s +:+ t).
Proof. reflexivity. Qed.

Lemma append_empty_l (s : string) : EmptyString +:+ s = s.
Proof. reflexivity. Qed.

Lemma append_empty_r (s : string) : s +:+ EmptyString = s.
Proof.
  induction s as [|c s IH]; [reflexivity|].
  now rewrite append_cons, IH.
Qed.

Lemma append_assoc (a b c : string) : (a +:+ b) +:+ c = a +:+ (b +:+ c).
Proof.
  induction a as [|x a IH]; [reflexivity|].
  now rewrite !append_cons, IH.
Qed.

Lemma rev_app_append (s t : string) :
  String.rev_app s t = String.rev_app s EmptyString +:+ t.
Proof.
  revert t. induction s as [|c s IH]; intros t; simpl; [reflexivity|].
  rewrite (IH (String c t)), (IH (String c EmptyString)).
  now rewrite append_assoc.
Qed.

Lemma rev_cons (c : ascii) (s : string) :
  String.rev (String c s) = String.rev s +:+ String c EmptyString.
Proof. unfold String.rev. simpl. apply rev_app_append. Qed.

Lemma startswith_empty_l (sep : string) :
  sep <> EmptyString -> startswith sep EmptyString = false.
Proof. destruct sep; [congruence | reflexivity]. Qed.

Lemma startswith_spec (p s : string) :
  startswith p s = true -> s = p +:+ str_drop (String.length p) s.
Proof.
  revert s. induction p as [|a p IH]; intros s H; simpl in *; [reflexivity|].
  destruct s as [|b s]; [discriminate|].
  destruct (decide (a = b)) as [->|]; [|discriminate].
  rewrite append_cons. f_equal. now apply IH.
Qed.

Lemma startswith_append (p s t : string) :
  startswith p s = true -> startswith p (s +:+ t) = true.
Proof.
  revert s. induction p as [|a p IH]; intros s H; [reflexivity|].
  destruct s as [|b s]; [discriminate|]. simpl in *.
  destruct (decide (a = b)); [now apply IH | discriminate].
Qed.

Lemma split_go_skip (sep : string) (k : nat) (acc s : string) :
  split_go sep k acc s = split_go sep 0 acc (str_drop k s).
Proof.
  revert k. induction s as [|c s IH]; intros k.
  - destruct k; reflexivity.
  - destruct k as [|k]; [reflexivity|]. simpl. apply IH.
Qed.

Lemma split_go_cut (sep : string) (acc s : string) :
  sep <> EmptyString ->
  split_go sep 0 acc s =
    match cut sep s with
    | Some (a, b) => (String.rev acc +:+ a) :: split sep b
    | None => [String.rev acc +:+ s]
    end.
Proof.
  intros Hsep. revert acc. induction s as [|c s IH]; intros acc.
  - simpl. rewrite (startswith_empty_l sep Hsep). now rewrite append_empty_r.
  - cbn [split_go cut].
    destruct (startswith sep (String c s)) eqn:Hp.
    + rewrite append_empty_r. f_equal.
      rewrite split_go_skip. unfold split. f_equal.
      destruct sep as [|a sep]; [congruence|]. simpl.
      now rewrite Nat.sub_0_r.
    + rewrite IH. destruct (cut sep s) as [[a b]|].
      * rewrite rev_cons, append_assoc. reflexivity.
      * rewrite rev_cons, append_assoc. reflexivity.
Qed.

(** [s.split(sep)] starts with the text before the first [sep]. *)
Lemma split_cut (sep s : string) :
  sep <> EmptyString ->
  split sep s =
    match cut sep s with
    | Some (a, b) => a :: split sep b
    | None => [s]
    end.
Proof. intros Hsep. unfold split at 1. now rewrite split_go_cut. Qed.

(** The meaning of [cut]: the separator stands between the two halves,
    and it does not occur in the first. *)
Lemma cut_spec (sep s a b : string) :
  cut sep s = Some (a, b) -> s = a +:+ sep +:+ b.
Proof.
  revert a. induction s as [|c s IH]; intros a; cbn [cut].
  - destruct (startswith sep EmptyString) eqn:Hp; [|discriminate].
    intros [= <- <-]. now apply startswith_spec.
  - destruct (startswith sep (String c s)) eqn:Hp.
    + intros [= <- <-]. now apply startswith_spec.
    + destruct (cut sep s) as [[a' b']|] eqn:Hc; [|discriminate].
      intros [= <- <-]. rewrite append_cons. f_equal. now apply IH.
Qed.

Lemma cut_before_none (sep s a b : string) :
  sep <> EmptyString -> cut sep s = Some (a, b) -> cut sep a = None.
Proof.
  intros Hsep. revert a. induction s as [|c s IH]; intros a; cbn [cut].
  - now rewrite (startswith_empty_l sep Hsep).
  - destruct (startswith sep (String c s)) eqn:Hp.
    + intros [= <- <-]. cbn [cut]. now rewrite (startswith_empty_l sep Hsep).
    + destruct (cut sep s) as [[a' b']|] eqn:Hc; [|discriminate].
      intros [= <- <-]. cbn [cut]. rewrite (IH a' eq_refl).
      destruct (startswith sep (String c a')) eqn:Hp'; [|reflexivity].
      apply (startswith_append _ _ (sep +:+ b')) in Hp'.
      rewrite append_cons, <- (cut_spec _ _ _ _ Hc) in Hp'. congruence.
Qed.

Lemma before_idem (sep s : string) :
  sep <> EmptyString -> before sep (before sep s) = before sep s.
Proof.
  intros Hsep. unfold before at 2 3.
  destruct (cut sep s) as [[a b]|] eqn:Hc; [|unfold before; now rewrite Hc].
  unfold before. now rewrite (cut_before_none _ _ _ _ Hsep Hc).
Qed.

Lemma split_head (sep s : string) :
  sep <> EmptyString -> index (split sep s) 0 = inr (before sep s).
Proof.
  intros Hsep. rewrite split_cut by assumption. unfold before.
  now destruct (cut sep s) as [[a b]|].
Qed.

Lemma split_second (sep s a b : string) :
  sep <> EmptyString -> cut sep s = Some (a, b) ->
  index (split sep s) 1 = inr (before sep b).
Proof.
  intros Hsep Hc. rewrite split_cut, Hc by assumption.
  apply (split_head sep b Hsep).
Qed.

Lemma contains_cut (sep s : string) :
  contains sep s = true <-> exists a b, cut sep s = Some (a, b).
Proof.
  unfold contains. destruct (cut sep s) as [[a b]|]; split.
  - eauto.
  - reflexivity.
  - discriminate.
  - intros (a & b & [=]).
Qed.

(* ------------------------------------------------------------------ *)
(** ** Strings: [strip] is idempotent                                   *)
(* ------------------------------------------------------------------ *)

Lemma rev_app_app (s t acc : string) :
  String.rev_app (s +:+ t) acc = String.rev_app t (String.rev_app s acc).
Proof.
  revert acc. induction s as [|c s IH]; intros acc; [reflexivity|].
  rewrite append_cons. simpl. apply IH.
Qed.

Lemma rev_app_rev_app (s t u : string) :
  String.rev_app (String.rev_app s t) u = String.rev_app t (s +:+ u).
Proof.
  revert t u. induction s as [|c s IH]; intros t u; [reflexivity|].
  simpl. rewrite IH. simpl. now rewrite append_cons.
Qed.

Lemma rev_involutive (s : string) : String.rev (String.rev s) = s.
Proof.
  unfold String.rev. rewrite rev_app_rev_app. simpl. apply append_empty_r.
Qed.

Lemma rev_snoc (s : string) (c : ascii) :
  String.rev (s +:+ String c EmptyString) = String c (String.rev s).
Proof. unfold String.rev. now rewrite rev_app_app. Qed.

Lemma lstrip_no_lead (s : string) : no_lead (lstrip s).
Proof.
  induction s as [|c s IH]; simpl; [exact I|].
  destruct (isspace c) eqn:Hc; [exact IH | exact Hc].
Qed.

Lemma lstrip_id (s : string) : no_lead s -> lstrip s = s.
Proof. destruct s as [|c s]; simpl; [reflexivity | now intros ->]. Qed.

Lemma lstrip_snoc (s : string) (c : ascii) :
  isspace c = false ->
  lstrip (s +:+ String c EmptyString) = lstrip s +:+ String c EmptyString.
Proof.
  intros Hc. induction s as [|a s IH].
  - simpl. now rewrite Hc.
  - rewrite append_cons. simpl. destruct (isspace a); [exact IH | reflexivity].
Qed.

(** [strip] leaves no white space at either end. *)
Lemma strip_no_lead (s : string) : no_lead (strip s).
Proof.
  unfold strip. pose proof (lstrip_no_lead s) as Hl.
  destruct (lstrip s) as [|c t]; [exact I|]. simpl in Hl.
  rewrite rev_cons, (lstrip_snoc _ _ Hl), rev_snoc. exact Hl.
Qed.

Lemma strip_idem (s : string) : strip (strip s) = strip s.
Proof.
  unfold strip at 1. rewrite (lstrip_id _ (strip_no_lead s)).
  unfold strip. rewrite rev_involutive.
  now rewrite (lstrip_id _ (lstrip_no_lead _)).
Qed.

(* ------------------------------------------------------------------ *)
(** ** grok_service: structured extraction                              *)
(* ------------------------------------------------------------------ *)

Lemma startswith_self_append (p t : string) : startswith p (p +:+ t) = true.
Proof.
  induction p as [|a p IH]; [reflexivity|].
  rewrite append_cons. simpl. now rewrite decide_True by reflexivity.
Qed.

Lemma contains_middle (p a t : string) : contains p (a +:+ p +:+ t) = true.
Proof.
  unfold contains. induction a as [|c a IH].
  - rewrite append_empty_l.
    destruct (p +:+ t) as [|x y] eqn:E; cbn [cut];
      rewrite <- E, startswith_self_append; reflexivity.
  - rewrite append_cons. cbn [cut].
    destruct (startswith p (String c (a +:+ p +:+ t))); [reflexivity|].
    destruct (cut p (a +:+ p +:+ t)) as [[x y]|]; [reflexivity | discriminate].
Qed.

(** A response with a labeled fence has a fence. *)
Lemma labeled_fence_is_fence (response : string) :
  contains "```json" response = true -> contains "```" response = true.
Proof.
  intros H. apply contains_cut in H as (a & b & Hc).
  apply cut_spec in Hc. subst response.
  change "```json" with ("```" +:+ "json"). rewrite append_assoc.
  apply contains_middle.
Qed.

Lemma fence_nonempty : "```" <> EmptyString.
Proof. discriminate. Qed.

Lemma fenced_cut (fence response pre rest : string) :
  fence <> EmptyString ->
  cut fence response = Some (pre, rest) ->
  fenced fence response = inr (strip (before "```" (before fence rest))).
Proof.
  intros Hf Hc. unfold fenced.
  rewrite (split_second _ _ _ _ Hf Hc). cbn [res_bind].
  rewrite (split_head _ _ fence_nonempty). reflexivity.
Qed.

Lemma parse_by_candidate (loads : string -> option json) (response : string) :
  loads response = None ->
  _parse_json_response loads response =
    res_bind (json_candidate response) (fun c => decode loads (strip c)).
Proof. intros H. unfold _parse_json_response. now rewrite H. Qed.

Lemma candidate_labeled (response pre rest : string) :
  cut "```json" response = Some (pre, rest) ->
  json_candidate response = inr (strip (before "```" (before "```json" rest))).
Proof.
  intros Hc. unfold json_candidate.
  assert (contains "```json" response = true) as -> by (apply contains_cut; eauto).
  apply (fenced_cut _ _ pre rest); [discriminate | assumption].
Qed.

Lemma candidate_unlabeled (response pre rest : string) :
  contains "```json" response = false ->
  cut "```" response = Some (pre, rest) ->
  json_candidate response = inr (strip (before "```" rest)).
Proof.
  intros Hn Hc. unfold json_candidate. rewrite Hn.
  assert (contains "```" response = true) as -> by (apply contains_cut; eauto).
  rewrite (fenced_cut _ _ _ _ fence_nonempty Hc).
  now rewrite (before_idem _ _ fence_nonempty).
Qed.

Lemma candidate_brace (response : string) :
  contains "```" response = false ->
  json_candidate response =
    match re_search response with
    | Some m => inr m
    | None => inl (ValueError ("Could not parse JSON from response: "
                               +:+ str_take 200 response))
    end.
Proof.
  intros Hn. unfold json_candidate. rewrite Hn.
  destruct (contains "```json" response) eqn:E; [|reflexivity].
  apply labeled_fence_is_fence in E. congruence.
Qed.

(** A response with a fence always has a candidate. *)
Lemma candidate_fenced (response : string) :
  contains "```" response = true -> exists c, json_candidate response = inr c.
Proof.
  intros H. destruct (contains "```json" response) eqn:E.
  - apply contains_cut in E as (a & b & Hc). eexists.
    apply (candidate_labeled _ _ _ Hc).
  - apply contains_cut in H as (a & b & Hc). eexists.
    apply (candidate_unlabeled _ _ _ E Hc).
Qed.

Lemma decode_error (loads : string -> option json) (c : string) (e : exn) :
  decode loads c = inl e -> exists doc, e = JSONDecodeError doc /\ loads doc = None.
Proof.
  unfold decode. destruct (loads c); [discriminate|].
  destruct (loads (replace _ _ _)) eqn:E; [discriminate|].
  intros [= <-]. eauto.
Qed.

(** The candidate of the amended claim is the text the code goes on to
    decode. *)
Lemma candidate_of_code (response c : string) :
  candidate_of response c ->
  exists c', json_candidate response = inr c' /\ strip c' = c.
Proof.
  intros [pre rest Hc|pre rest Hj Hc|m Hf Hm].
  - eexists. split; [exact (candidate_labeled _ _ _ Hc)|apply strip_idem].
  - eexists. split; [exact (candidate_unlabeled _ _ _ Hj Hc)|apply strip_idem].
  - exists m. split; [|reflexivity]. now rewrite (candidate_brace _ Hf), Hm.
Qed.

(** C5, as the code has it.  The decoded response is returned when the
    response as a whole is JSON.  Otherwise exactly one candidate is
    decoded: with a labeled fence in the response, the stripped text from
    the first labeled fence to the next fence; else, with a fence, the
    stripped text between the first two fences; else the leftmost
    brace-delimited object with at most one level of inner braces.  The
    ValueError that carries the first 200 characters of the response is
    raised exactly when the response is not JSON and has neither a fence
    nor such an object; every other failure is the decoder's error on the
    candidate.  The candidate alone decides the outcome: it is decoded as
    it is, else with its newlines replaced by spaces and its carriage
    returns removed, and when neither decodes the result is the decoder's
    error on the cleaned candidate; no other part of the response is
    tried. *)
Theorem parse_json_response_shapes (loads : string -> option json) (response : string) :
  (forall v, loads response = Some v ->
     _parse_json_response loads response = inr v)
  /\ (forall pre rest v,
        loads response = None ->
        cut "```json" response = Some (pre, rest) ->
        loads (strip (before "```" (before "```json" rest))) = Some v ->
        _parse_json_response loads response = inr v)
  /\ (forall pre rest v,
        loads response = None ->
        contains "```json" response = false ->
        cut "```" response = Some (pre, rest) ->
        loads (strip (before "```" rest)) = Some v ->
        _parse_json_response loads response = inr v)
  /\ (forall m v,
        loads response = None ->
        contains "```" response = false ->
        re_search response = Some m ->
        loads (strip m) = Some v ->
        _parse_json_response loads response = inr v)
  /\ (forall msg,
        _parse_json_response loads response = inl (ValueError msg) <->
        loads response = None /\ contains "```" response = false
        /\ re_search response = None
        /\ msg = "Could not parse JSON from response: " +:+ str_take 200 response)
  /\ (forall e,
        _parse_json_response loads response = inl e ->
        (exists msg, e = ValueError msg)
        \/ (exists doc, e = JSONDecodeError doc /\ loads doc = None))
  /\ (forall c,
        loads response = None ->
        candidate_of response c ->
        _parse_json_response loads response =
          match loads c with
          | Some v => inr v
          | None =>
              match loads (cleaned c) with
              | Some v => inr v
              | None => inl (JSONDecodeError (cleaned c))
              end
          end).
Proof.
  refine (conj _ (conj _ (conj _ (conj _ (conj _ (conj _ _)))))).
  7: {
    intros c Hn Hc. rewrite (parse_by_candidate _ _ Hn).
    destruct (candidate_of_code _ _ Hc) as (c' & -> & <-). reflexivity. }
  all: repeat split.
  - intros v H. unfold _parse_json_response. now rewrite H.
  - intros pre rest v Hn Hc Hv. rewrite parse_by_candidate by assumption.
    rewrite (candidate_labeled _ _ _ Hc). cbn [res_bind].
    rewrite strip_idem. unfold decode. now rewrite Hv.
  - intros pre rest v Hn Hj Hc Hv. rewrite parse_by_candidate by assumption.
    rewrite (candidate_unlabeled _ _ _ Hj Hc). cbn [res_bind].
    rewrite strip_idem. unfold decode. now rewrite Hv.
  - intros m v Hn Hf Hm Hv. rewrite parse_by_candidate by assumption.
    rewrite (candidate_brace _ Hf), Hm. cbn [res_bind].
    unfold decode. now rewrite Hv.
  - destruct (loads response) eqn:Hn.
    { unfold _parse_json_response in H. rewrite Hn in H. discriminate. }
    reflexivity.
  - rewrite parse_by_candidate in H
      by (destruct (loads response) eqn:Hn; [|reflexivity];
          unfold _parse_json_response in H; rewrite Hn in H; discriminate).
    destruct (contains "```" response) eqn:Hf; [|reflexivity].
    destruct (candidate_fenced _ Hf) as [c Hc]. rewrite Hc in H.
    cbn [res_bind] in H. apply decode_error in H as (doc & [=] & _).
  - destruct (loads response) eqn:Hn.
    { unfold _parse_json_response in H. rewrite Hn in H. discriminate. }
    rewrite parse_by_candidate in H by assumption.
    destruct (contains "```" response) eqn:Hf.
    { destruct (candidate_fenced _ Hf) as [c Hc]. rewrite Hc in H.
      cbn [res_bind] in H. apply decode_error in H as (doc & [=] & _). }
    rewrite (candidate_brace _ Hf) in H.
    destruct (re_search response); [|reflexivity].
    cbn [res_bind] in H. apply decode_error in H as (doc & [=] & _).
  - destruct (loads response) eqn:Hn.
    { unfold _parse_json_response in H. rewrite Hn in H. discriminate. }
    rewrite parse_by_candidate in H by assumption.
    destruct (contains "```" response) eqn:Hf.
    { destruct (candidate_fenced _ Hf) as [c Hc]. rewrite Hc in H.
      cbn [res_bind] in H. apply decode_error in H as (doc & [=] & _). }
    rewrite (candidate_brace _ Hf) in H.
    destruct (re_search response).
    { cbn [res_bind] in H. apply decode_error in H as (doc & [=] & _). }
    cbn [res_bind] in H. congruence.
  - intros (Hn & Hf & Hm & ->). rewrite parse_by_candidate by assumption.
    now rewrite (candidate_brace _ Hf), Hm.
  - intros e H. destruct (loads response) eqn:Hn.
    { unfold _parse_json_response in H. rewrite Hn in H. discriminate. }
    rewrite parse_by_candidate in H by assumption.
    destruct (json_candidate response) as [e'|c] eqn:Hc.
    + cbn [res_bind] in H. injection H as <-.
      destruct (contains "```" response) eqn:Hf.
      { destruct (candidate_fenced _ Hf) as [c' Hc']. congruence. }
      rewrite (candidate_brace _ Hf) in Hc.
      destruct (re_search response); [discriminate|].
      injection Hc as <-. left. eauto.
    + cbn [res_bind] in H. right. now apply (decode_error loads (strip c)).
Qed.

(** The example of the specification, by the labeled-fence case. *)
Lemma parse_json_response_example :
  _parse_json_response json_loads example_response = inr (JDict [("a", JInt 1)]).
Proof.
  apply (proj1 (proj2 (parse_json_response_shapes json_loads example_response))
           "Here: " (newline +:+ object_a1 +:+ newline +:+ "```"));
    vm_compute; reflexivity.
Defined.

(** C5, as the specification states it, fails: a fenced block that is not
    JSON ends the extraction with the decoder's error, which does not
    carry the response, although the response holds a brace-delimited
    object that decodes. *)
Lemma parse_json_response_counterexample :
  _parse_json_response json_loads stray_fence_response
    = inl (JSONDecodeError "not json")
  /\ re_search stray_fence_response = Some object_a1
  /\ json_loads object_a1 = Some (JDict [("a", JInt 1)])
  /\ contains (str_take 200 stray_fence_response)
       (exn_str (JSONDecodeError "not json")) = false.
Proof. vm_compute. repeat split; reflexivity. Qed.

(* ------------------------------------------------------------------ *)
(** ** file_service: the path check                                     *)
(* ------------------------------------------------------------------ *)



(** C10 at the path "../../..": the check passes, the directory that is
    listed is the working directory of the server, which lies outside the
    repository root, and a file of it is returned. *)
Theorem list_files_leaves_repository :
  let root := _get_repo_path file_service "rocksdb" in
  let target := path_join root "../../.." in
  fst <$> resolve disk root = Some ["srv"; "storage"; "codebases"; "rocksdb"]
  /\ fst <$> resolve disk target = Some ["srv"]
  /\ under ["srv"; "storage"; "codebases"; "rocksdb"] ["srv"] = false
  /\ item_name <$$> list_files file_service disk "rocksdb" "../../.."
     = inr ["storage"; "main.py"; "secret.env"]
  /\ get_file_content file_service disk "rocksdb" "../../../secret.env"
     = inr (Some "KEY=1")
  /\ get_file_content file_service disk "rocksdb" "../other/notes.txt"
     = inr (Some "private").
Proof. vm_compute. repeat split; reflexivity. Qed.

(* ------------------------------------------------------------------ *)
(** ** Progress: the completed sets                                     *)
(* ------------------------------------------------------------------ *)

Lemma list_of_or_default (v : json) : list_of (or_default v) = list_of v.
Proof. now destruct v. Qed.

Lemma flush_reading (b : bool) (p : Progress) :
  list_of (reading_completed (flush b p)) = list_of (reading_completed p).
Proof. destruct b; [apply list_of_or_default | reflexivity]. Qed.

Lemma flush_tasks (b : bool) (p : Progress) :
  list_of (tasks_completed (flush b p)) = list_of (tasks_completed p).
Proof. destruct b; [apply list_of_or_default | reflexivity]. Qed.

Lemma list_of_falsy (v : json) : truthy v = false -> list_of v = [].
Proof. destruct v as [| | | |l|]; try reflexivity. now destruct l. Qed.

Lemma add_task_grows (task_id : string) (v v' : json) :
  add_task task_id v = inr v' -> list_of v `prefix_of` list_of v'.
Proof.
  unfold add_task. destruct (truthy v) eqn:Ht.
  - destruct v as [| | | s |l|kv]; try discriminate.
    + destruct (contains task_id s); [|discriminate]. now intros [= <-].
    + destruct (existsb (eq_str task_id) l); intros [= <-]; [done|].
      now apply prefix_app_r.
    + destruct (assoc task_id kv); [|discriminate]. now intros [= <-].
  - rewrite (list_of_falsy _ Ht). intros _. apply prefix_nil.
Qed.

Lemma chapters_of_insert (t : progress_table) (k k' : Z * Z) (p : Progress) :
  chapters_of (<[k := p]> t) k' =
    if decide (k = k') then list_of (reading_completed p) else chapters_of t k'.
Proof. unfold chapters_of. rewrite lookup_insert. now destruct (decide (k = k')). Qed.

Lemma tasks_of_insert (t : progress_table) (k k' : Z * Z) (p : Progress) :
  tasks_of (<[k := p]> t) k' =
    if decide (k = k') then list_of (tasks_completed p) else tasks_of t k'.
Proof. unfold tasks_of. rewrite lookup_insert. now destruct (decide (k = k')). Qed.

(** The row the two operations start from. *)
Lemma chapters_of_lookup (t : progress_table) (k : Z * Z) :
  chapters_of t k = list_of (reading_completed (default new_progress (t !! k))).
Proof. unfold chapters_of. now destruct (t !! k). Qed.

Lemma tasks_of_lookup (t : progress_table) (k : Z * Z) :
  tasks_of t k = list_of (tasks_completed (default new_progress (t !! k))).
Proof. unfold tasks_of. now destruct (t !! k). Qed.

(** The row [update_progress] writes. *)
Lemma update_progress_row (c : Z) (p : ProgressUpdate) (t t' : progress_table)
    (msg : string) :
  update_progress c p t = inr (t', msg) ->
  let key := (c, pu_week_number p) in
  let old := default new_progress (t !! key) in
  exists r',
    t' = <[key := r']> t
    /\ list_of (tasks_completed old) `prefix_of` list_of (tasks_completed r')
    /\ (pu_reading_completed p = None ->
        list_of (reading_completed r') = list_of (reading_completed old))
    /\ (forall b, pu_reading_completed p = Some b ->
        list_of (reading_completed r') = list_of (reading_completed old)
        \/ list_of (reading_completed r') = []).
Proof.
  intros H. cbv zeta. unfold update_progress in H.
  set (key := (c, pu_week_number p)) in *.
  destruct (t !! key) as [r|] eqn:Hr; cbn [default];
    (destruct (pu_task_id p) as [task_id|];
     [destruct (add_task task_id _) as [e|tasks] eqn:Ha; [discriminate|];
      apply add_task_grows in Ha
     |]);
    cbn [res_bind] in H; destruct (pu_quiz_answers p); injection H as <- _;
    eexists; (split; [reflexivity|]);
    rewrite ?flush_tasks, ?flush_reading;
    cbn [tasks_completed reading_completed default from_option id];
    rewrite ?list_of_or_default;
    (split; [try destruct (truthy _); done|]);
    (split; [now intros ->|]);
    intros b ->; try destruct (eq_int _ _); auto.
Qed.

Lemma update_progress_tasks (c : Z) (p : ProgressUpdate) (t t' : progress_table)
    (msg : string) (k : Z * Z) :
  update_progress c p t = inr (t', msg) -> tasks_of t k `prefix_of` tasks_of t' k.
Proof.
  intros (r' & -> & Ht & _)%update_progress_row.
  rewrite tasks_of_insert. destruct (decide _) as [<-|]; [|done].
  now rewrite tasks_of_lookup.
Qed.

Lemma update_progress_chapters (c : Z) (p : ProgressUpdate) (t t' : progress_table)
    (msg : string) (k : Z * Z) :
  pu_reading_completed p = None ->
  update_progress c p t = inr (t', msg) -> chapters_of t' k = chapters_of t k.
Proof.
  intros Hnone (r' & -> & _ & Hc & _)%update_progress_row.
  rewrite chapters_of_insert. destruct (decide _) as [<-|]; [|done].
  now rewrite chapters_of_lookup, Hc.
Qed.

Lemma mark_chapter_tasks (c w ch : Z) (t : progress_table) (k : Z * Z) :
  tasks_of (mark_chapter_complete c w ch t).1 k = tasks_of t k.
Proof.
  unfold mark_chapter_complete. rewrite (tasks_of_lookup t k).
  destruct (t !! (c, w)) as [r|] eqn:Hr; [destruct (reading_completed r)|];
    cbn [fst reading_completed tasks_completed quiz_score quiz_answers];
    rewrite tasks_of_insert;
    destruct (decide ((c, w) = k)) as [<-|Hne];
    rewrite ?flush_tasks; cbn [tasks_completed];
    try (rewrite Hr; cbn [default]); try done;
    try (rewrite <- tasks_of_lookup; done).
Qed.

Lemma mark_chapter_chapters (c w ch : Z) (t : progress_table) (k : Z * Z) :
  chapters_of (mark_chapter_complete c w ch t).1 k =
    if decide ((c, w) = k) then stored_chapters ch (t !! (c, w))
    else chapters_of t k.
Proof.
  unfold mark_chapter_complete, stored_chapters.
  destruct (t !! (c, w)) as [r|] eqn:Hr; [destruct (reading_completed r) eqn:Hl|];
    cbn [fst reading_completed tasks_completed quiz_score quiz_answers];
    rewrite chapters_of_insert;
    destruct (decide ((c, w) = k)) as [<-|Hne]; try done.
Qed.

Lemma stored_chapters_grow (ch : Z) (t : progress_table) (k : Z * Z) :
  chapters_of t k `prefix_of` stored_chapters ch (t !! k).
Proof.
  unfold chapters_of, stored_chapters. destruct (t !! k) as [r|]; [|apply prefix_nil].
  destruct (reading_completed r); cbn [list_of]; try apply prefix_nil. done.
Qed.

(** One operation. *)
Lemma apply_op_tasks (t : progress_table) (o : progress_op) (k : Z * Z) :
  tasks_of t k `prefix_of` tasks_of (apply_op t o) k.
Proof.
  destruct o as [c p|c w ch]; cbn [apply_op].
  - destruct (update_progress c p t) as [e|[t' msg]] eqn:Hu; [done|].
    apply (update_progress_tasks _ _ _ _ _ _ Hu).
  - now rewrite mark_chapter_tasks.
Qed.

Lemma apply_op_chapters (t : progress_table) (o : progress_op) (k : Z * Z) :
  keeps_reading o -> chapters_of t k `prefix_of` chapters_of (apply_op t o) k.
Proof.
  destruct o as [c p|c w ch]; cbn [apply_op keeps_reading]; intros Hk.
  - destruct (update_progress c p t) as [e|[t' msg]] eqn:Hu; [done|].
    now rewrite (update_progress_chapters _ _ _ _ _ _ Hk Hu).
  - rewrite mark_chapter_chapters. destruct (decide ((c, w) = k)) as [<-|]; [|done].
    apply stored_chapters_grow.
Qed.

(** C3, as the code has it.  Over every sequence of progress updates the
    completed tasks that are stored only grow: the list before is a prefix
    of the list after.  The completed chapters grow in the same way over
    the operations that do not carry the boolean [reading_completed]. *)
Theorem completed_sets_grow (ops : list progress_op) (t : progress_table) (k : Z * Z) :
  tasks_of t k `prefix_of` tasks_of (run_ops ops t) k
  /\ (Forall keeps_reading ops ->
      chapters_of t k `prefix_of` chapters_of (run_ops ops t) k).
Proof.
  unfold run_ops. revert t. induction ops as [|o ops IH]; intros t; cbn [foldl].
  - split; done.
  - destruct (IH (apply_op t o)) as [IHt IHc]. split.
    + etrans; [apply apply_op_tasks | exact IHt].
    + intros Hk. apply Forall_cons in Hk as [Ho Hops].
      etrans; [apply (apply_op_chapters _ _ _ Ho) | exact (IHc Hops)].
Qed.

Lemma completed_sets_grow_example :
  chapters_of (run_ops [OpMark 1 1 1] ∅) (1, 1)
  `prefix_of` chapters_of (run_ops two_chapters ∅) (1, 1).
Proof.
  change (run_ops two_chapters ∅)
    with (run_ops (tail two_chapters) (run_ops [OpMark 1 1 1] ∅)).
  apply (proj2 (completed_sets_grow (tail two_chapters) _ (1, 1))).
  repeat constructor.
Defined.

(** C3, as the specification states it, fails: the progress update that
    carries [reading_completed] overwrites the list of chapters with an
    int, and the next chapter starts a new list. *)
Lemma completed_chapters_shrink :
  let flag := {| pu_week_number := 1; pu_reading_completed := Some true;
                 pu_task_id := None; pu_quiz_answers := None |} in
  let t1 := run_ops [OpMark 1 1 1] ∅ in
  let t2 := run_ops [OpUpdate 1 flag] t1 in
  let t3 := run_ops [OpMark 1 1 2] t2 in
  chapters_of t1 (1, 1) = [JInt 1]
  /\ reading_completed <$> t2 !! (1, 1) = Some (JInt 1)
  /\ chapters_of t2 (1, 1) = []
  /\ (get_week_progress 1 1 t2).1.1 = JInt 1
  /\ chapters_of t3 (1, 1) = [JInt 2].
Proof. vm_compute. repeat split; reflexivity. Qed.

(* ------------------------------------------------------------------ *)
(** ** Progress: chapter completion                                     *)
(* ------------------------------------------------------------------ *)

Lemma eq_int_JInt (n m : Z) : eq_int n (JInt m) = true <-> n = m.
Proof. cbn. apply Z.eqb_eq. Qed.

Lemma existsb_eq_int (ch : Z) (l : list json) :
  Forall is_int l -> existsb (eq_int ch) l = true <-> JInt ch ∈ l.
Proof.
  induction 1 as [|x l [m ->] Hl IH]; cbn [existsb].
  - split; [discriminate | by intros ?%elem_of_nil].
  - rewrite orb_true_iff, IH, elem_of_cons, eq_int_JInt.
    split; (intros [H|H]; [left | now right]); congruence.
Qed.

Lemma with_chapter_ok (ch : Z) (l : list json) :
  NoDup l -> Forall is_int l ->
  NoDup (with_chapter ch l) /\ Forall is_int (with_chapter ch l).
Proof.
  intros Hn Hi. unfold with_chapter.
  destruct (existsb (eq_int ch) l) eqn:He; [done|]. split.
  - apply NoDup_app. repeat split; [done | | apply NoDup_singleton].
    intros x Hx ->%list_elem_of_singleton.
    apply (existsb_eq_int ch l Hi) in Hx. congruence.
  - apply Forall_app. split; [done|]. repeat constructor. now exists ch.
Qed.

Lemma one_chapter_ok (ch : Z) : NoDup [JInt ch] /\ Forall is_int [JInt ch].
Proof. split; [apply NoDup_singleton | repeat constructor; now exists ch]. Qed.

Lemma stored_chapters_ok (ch : Z) (t : progress_table) (k : Z * Z) :
  chapters_ok t ->
  NoDup (stored_chapters ch (t !! k)) /\ Forall is_int (stored_chapters ch (t !! k)).
Proof.
  intros Hok. specialize (Hok k). revert Hok. unfold chapters_of, stored_chapters.
  destruct (t !! k) as [r|]; [|intros _; apply one_chapter_ok].
  destruct (reading_completed r); cbn [list_of]; intros Hok;
    try apply one_chapter_ok. exact Hok.
Qed.

Lemma chapters_ok_empty : chapters_ok ∅.
Proof. intros k. unfold chapters_of. rewrite lookup_empty. split; constructor. Qed.

Lemma update_progress_chapters_ok (c : Z) (p : ProgressUpdate)
    (t t' : progress_table) (msg : string) :
  chapters_ok t -> update_progress c p t = inr (t', msg) -> chapters_ok t'.
Proof.
  intros Hok (r' & -> & _ & Hnone & Hsome)%update_progress_row k.
  rewrite chapters_of_insert. destruct (decide _) as [<-|]; [|apply Hok].
  destruct (pu_reading_completed p) as [b|].
  - destruct (Hsome b eq_refl) as [-> | ->]; [|split; constructor].
    rewrite <- chapters_of_lookup. apply Hok.
  - rewrite (Hnone eq_refl), <- chapters_of_lookup. apply Hok.
Qed.

Lemma apply_op_chapters_ok (t : progress_table) (o : progress_op) :
  chapters_ok t -> chapters_ok (apply_op t o).
Proof.
  intros Hok. destruct o as [c p|c w ch]; cbn [apply_op].
  - destruct (update_progress c p t) as [e|[t' msg]] eqn:Hu; [done|].
    apply (update_progress_chapters_ok _ _ _ _ _ Hok Hu).
  - intros k. rewrite mark_chapter_chapters.
    destruct (decide ((c, w) = k)); [|apply Hok].
    now apply stored_chapters_ok.
Qed.

Lemma reachable_chapters_ok (t : progress_table) : reachable t -> chapters_ok t.
Proof.
  induction 1 as [|t o _ IH]; [apply chapters_ok_empty|].
  now apply apply_op_chapters_ok.
Qed.

Lemma with_chapter_member (ch : Z) (l : list json) :
  existsb (eq_int ch) (with_chapter ch l) = true.
Proof.
  unfold with_chapter. destruct (existsb (eq_int ch) l) eqn:He; [done|].
  rewrite existsb_app. cbn. rewrite Z.eqb_refl. apply orb_true_r.
Qed.

Lemma occurrences_absent (ch : Z) (l : list json) :
  existsb (eq_int ch) l = false -> occurrences ch l = 0%nat.
Proof.
  unfold occurrences. induction l as [|x l IH]; [done|]. cbn [existsb].
  intros [Hx Hl]%orb_false_iff. rewrite filter_cons_False by congruence.
  now apply IH.
Qed.

Lemma occurrences_once (ch : Z) (l : list json) :
  NoDup l -> Forall is_int l -> existsb (eq_int ch) l = true ->
  occurrences ch l = 1%nat.
Proof.
  unfold occurrences. induction 1 as [|x l Hx Hn IH]; [discriminate|].
  intros [[m ->] Hi]%Forall_cons. cbn [existsb].
  destruct (eq_int ch (JInt m)) eqn:Hm.
  - intros _. rewrite filter_cons_True by done. cbn [length]. f_equal.
    apply eq_int_JInt in Hm as ->. apply occurrences_absent.
    destruct (existsb (eq_int m) l) eqn:He; [|done].
    apply (existsb_eq_int m l Hi) in He. contradiction.
  - cbn [orb]. intros He. rewrite filter_cons_False by congruence. now apply IH.
Qed.

Lemma mark_chapter_result (c w ch : Z) (t : progress_table) :
  (mark_chapter_complete c w ch t).2 = with_chapter ch (chapters_of t (c, w)).
Proof.
  unfold mark_chapter_complete, with_chapter, chapters_of.
  destruct (t !! (c, w)) as [r|]; [destruct (reading_completed r)|]; reflexivity.
Qed.

Lemma mark_chapter_row (c w ch : Z) (t : progress_table) :
  is_Some ((mark_chapter_complete c w ch t).1 !! (c, w)).
Proof.
  unfold mark_chapter_complete.
  destruct (t !! (c, w)) as [r|]; [destruct (reading_completed r)|];
    cbn [fst reading_completed]; rewrite lookup_insert_eq; eauto.
Qed.

(** A row that holds a list of chapters is left as it is. *)
Lemma mark_chapter_loaded_list (c w ch : Z) (t : progress_table) (p : Progress)
    (l : list json) :
  t !! (c, w) = Some p -> reading_completed p = JList l ->
  (mark_chapter_complete c w ch t).1 = t.
Proof.
  intros Hp Hl. unfold mark_chapter_complete. rewrite Hp, Hl. cbn [fst committed flush].
  rewrite <- Hl. destruct p. now apply insert_id.
Qed.

Lemma mark_chapter_twice (c w ch : Z) (t : progress_table) :
  mark_chapter_complete c w ch (mark_chapter_complete c w ch t).1
  = mark_chapter_complete c w ch t.
Proof.
  destruct (t !! (c, w)) as [p|] eqn:Hp;
    [destruct (reading_completed p) as [| | | |l|] eqn:Hl|].
  5: { now rewrite (mark_chapter_loaded_list c w ch t p l Hp Hl). }
  all: unfold mark_chapter_complete at 2 3; rewrite Hp; rewrite ?Hl;
    cbn [fst committed flush reading_completed tasks_completed quiz_score
         quiz_answers or_default existsb app];
    unfold mark_chapter_complete; rewrite lookup_insert_eq;
    cbn [fst committed flush reading_completed tasks_completed quiz_score
         quiz_answers or_default existsb app eq_int orb];
    rewrite Z.eqb_refl; cbn [orb]; rewrite insert_insert_eq; reflexivity.
Qed.

(** Chapter completion is idempotent.  On a table built by the progress
    operations, marking a chapter complete twice leaves the table and the
    returned list as the first call left them; the row of the pair exists
    after the first call, and the returned list holds the chapter exactly
    once.  The list that is stored is that of [stored_chapters]: it gains
    the chapter when the call creates the row or finds no list in it, and
    stays as it was loaded otherwise. *)
Lemma mark_chapter_complete_idempotent (t : progress_table)
    (candidate_id week_number chapter : Z) :
  reachable t ->
  let first := mark_chapter_complete candidate_id week_number chapter t in
  let second := mark_chapter_complete candidate_id week_number chapter first.1 in
  second = first
  /\ is_Some (first.1 !! (candidate_id, week_number))
  /\ occurrences chapter first.2 = 1%nat
  /\ chapters_of first.1 (candidate_id, week_number)
     = stored_chapters chapter (t !! (candidate_id, week_number)).
Proof.
  intros Hr first second. subst second first. repeat split.
  - apply mark_chapter_twice.
  - apply mark_chapter_row.
  - rewrite mark_chapter_result.
    destruct (reachable_chapters_ok t Hr (candidate_id, week_number)) as [Hn Hi].
    destruct (with_chapter_ok chapter _ Hn Hi) as [Hn' Hi'].
    apply occurrences_once; [done | done | apply with_chapter_member].
  - rewrite mark_chapter_chapters. now destruct (decide _).
Qed.

(** C9 at the second chapter of a week.  The first call for chapter 1
    creates the row.  Both calls for chapter 2 answer with the chapters 1
    and 2, and the row keeps the list it was loaded with: the stored set
    never holds chapter 2. *)
Theorem appended_chapter_is_not_stored :
  let t1 := (mark_chapter_complete 1 1 1 ∅).1 in
  let first := mark_chapter_complete 1 1 2 t1 in
  let second := mark_chapter_complete 1 1 2 first.1 in
  chapters_of t1 (1, 1) = [JInt 1]
  /\ first.2 = [JInt 1; JInt 2]
  /\ second.2 = [JInt 1; JInt 2]
  /\ chapters_of second.1 (1, 1) = [JInt 1]
  /\ (get_week_progress 1 1 second.1).1.1 = JList [JInt 1].
Proof. vm_compute. repeat split; reflexivity. Qed.

(* ------------------------------------------------------------------ *)
(** ** The week percent                                                 *)
(* ------------------------------------------------------------------ *)





(* ------------------------------------------------------------------ *)
(** ** Queries                                                          *)
(* ------------------------------------------------------------------ *)

Lemma max_by_elem {A} (key : A -> Z) (best : A) (l : list A) :
  max_by key best l = best \/ max_by key best l ∈ l.
Proof.
  revert best. induction l as [|x l IH]; intros best; cbn [max_by]; [now left|].
  destruct (IH (if key best <? key x then x else best)) as [H|H].
  - rewrite H. destruct (key best <? key x); [right; left | now left].
  - right. now right.
Qed.

Lemma max_by_ge_best {A} (key : A -> Z) (best : A) (l : list A) :
  key best <= key (max_by key best l).
Proof.
  revert best. induction l as [|x l IH]; intros best; cbn [max_by]; [lia|].
  etrans; [|apply IH].
  destruct (key best <? key x) eqn:E; [apply Z.ltb_lt in E|]; lia.
Qed.

Lemma max_by_ge {A} (key : A -> Z) (best : A) (l : list A) (x : A) :
  x ∈ l -> key x <= key (max_by key best l).
Proof.
  revert best. induction l as [|y l IH]; intros best; [by intros ?%elem_of_nil|].
  intros [->|H]%elem_of_cons; cbn [max_by]; [|now apply IH].
  etrans; [|apply max_by_ge_best].
  destruct (key best <? key y) eqn:E; [|apply Z.ltb_ge in E]; lia.
Qed.

(** [first_by] returns a row of the list with the greatest key. *)
Lemma first_by_spec {A} (key : A -> Z) (l : list A) (x : A) :
  first_by key l = Some x -> x ∈ l /\ forall y, y ∈ l -> key y <= key x.
Proof.
  destruct l as [|a l]; [discriminate|]. cbn [first_by]. intros [= <-]. split.
  - destruct (max_by_elem key a l) as [->|H]; [left | now right].
  - intros y [->|H]%elem_of_cons; [apply max_by_ge_best | now apply max_by_ge].
Qed.

Lemma first_by_none {A} (key : A -> Z) (l : list A) :
  first_by key l = None <-> l = [].
Proof. now destruct l. Qed.

(** The latest master plan of a codebase is a stored row of that codebase
    with the highest version among them. *)
Lemma latest_master_plan_spec (d : DB) (codebase_id : string) (m : MasterPlan) :
  latest_master_plan d codebase_id = Some m ->
  m ∈ master_plans d /\ mp_codebase_id m = codebase_id
  /\ forall m', m' ∈ master_plans d -> mp_codebase_id m' = codebase_id ->
                version m' <= version m.
Proof.
  intros [Hin Hmax]%first_by_spec. apply list_elem_of_filter in Hin as [Hc Hin].
  repeat split; [done | done |]. intros m' Hm' Hc'. apply Hmax.
  apply list_elem_of_filter. now split.
Qed.

Lemma latest_analysis_none (d : DB) (codebase_id : string) :
  latest_analysis d codebase_id = None <->
  forall a, a ∈ codebase_analyses d -> ca_codebase_id a <> codebase_id.
Proof.
  unfold latest_analysis. rewrite first_by_none. split.
  - intros H a Ha Hc.
    assert (a ∈ filter (fun a => ca_codebase_id a = codebase_id)
                  (codebase_analyses d)) as Hin
      by (apply list_elem_of_filter; now split).
    rewrite H in Hin. now apply elem_of_nil in Hin.
  - intros H. apply elem_of_nil_inv. intros a [Hc Ha]%list_elem_of_filter.
    now apply (H a).
Qed.

(* ------------------------------------------------------------------ *)
(** ** The request monad                                                *)
(* ------------------------------------------------------------------ *)

Lemma bind_inv {A B} (m : M A) (f : A -> M B) (w w' : World) (r : res B) :
  bind m f w = (r, w') ->
  (exists e, m w = (inl e, w') /\ r = inl e)
  \/ (exists a w1, m w = (inr a, w1) /\ f a w1 = (r, w')).
Proof.
  unfold bind. destruct (m w) as [[e|a] w1].
  - intros [= <- <-]. left. eauto.
  - intros H. right. eauto.
Qed.

Lemma logs_silent (g : Grok) {A} (m : M A) :
  (forall w r w', m w = (r, w') -> calls w' = calls w) -> logs g m.
Proof.
  intros H w r w' Hm. exists []. rewrite app_nil_r.
  split; [apply (H _ _ _ Hm)|]. intros i c e Hi. now rewrite lookup_nil in Hi.
Qed.

Lemma logs_ret (g : Grok) {A} (a : A) : logs g (ret a).
Proof. apply logs_silent. now intros w r w' [= _ <-]. Qed.

Lemma logs_raise (g : Grok) {A} (e : exn) : logs g (@raise A e).
Proof. apply logs_silent. now intros w r w' [= _ <-]. Qed.

Lemma logs_lift (g : Grok) {A} (r : res A) : logs g (lift r).
Proof. apply logs_silent. now intros w r' w' [= _ <-]. Qed.

Lemma logs_get_db (g : Grok) : logs g get_db.
Proof. apply logs_silent. now intros w r w' [= _ <-]. Qed.

Lemma logs_commit (g : Grok) (f : DB -> DB) : logs g (commit f).
Proof. apply logs_silent. now intros w r w' [= _ <-]. Qed.

Lemma logs_bind (g : Grok) {A B} (m : M A) (f : A -> M B) :
  logs g m -> (forall a, logs g (f a)) -> logs g (bind m f).
Proof.
  intros Hm Hf w r w' [(e & H1 & ->)|(a & w1 & H1 & H2)]%bind_inv.
  - destruct (Hm _ _ _ H1) as (new1 & Hc1 & Hf1).
    exists new1. split; [done|].
    intros i c e' Hi Hfail. specialize (Hf1 _ _ _ Hi Hfail). congruence.
  - destruct (Hm _ _ _ H1) as (new1 & Hc1 & Hf1).
    destruct (Hf a _ _ _ H2) as (new2 & Hc2 & Hf2).
    exists (new1 ++ new2). split.
    { rewrite Hc2, Hc1. now rewrite app_assoc. }
    intros i c e Hi Hfail.
    destruct (decide (i < length new1)%nat) as [Hlt|Hge].
    + rewrite lookup_app_l in Hi by done. discriminate (Hf1 _ _ _ Hi Hfail).
    + rewrite lookup_app_r in Hi by lia. apply (Hf2 _ _ _ Hi).
      rewrite Hc1, length_app.
      replace (length (calls w) + length new1 + (i - length new1))%nat
        with (length (calls w) + i)%nat by lia.
      exact Hfail.
Qed.

Lemma logs_request (g : Grok) {A} (c : Call) (answer : nat -> res A) :
  (forall n e, failed g n c = Some e -> answer n = inl e) ->
  logs g (request c answer).
Proof.
  intros H w r w'. unfold request. intros [= <- <-].
  exists [c]. split; [done|]. intros i c' e Hi Hfail.
  apply list_lookup_singleton_Some in Hi as [-> <-].
  rewrite Nat.add_0_r in Hfail. now apply H.
Qed.

Ltac failed_answer :=
  intros n e; cbn [failed];
  match goal with |- context [match ?r with _ => _ end] => destruct r end;
  congruence.

Lemma logs_plan (g : Grok) (a : json) : logs g (_generate_comprehensive_plan g a).
Proof. apply logs_request. failed_answer. Qed.

Lemma logs_reading (g : Grok) (w a : json) (x : option string) :
  logs g (generate_weekly_reading g w a x).
Proof. apply logs_request. failed_answer. Qed.

Lemma logs_tasks (g : Grok) (w a : json) (x : option string) :
  logs g (generate_coding_tasks g w a x).
Proof. apply logs_request. failed_answer. Qed.

Lemma logs_quiz (g : Grok) (w c : json) : logs g (generate_quiz g w c).
Proof. apply logs_request. failed_answer. Qed.

Lemma logs_reasoning (g : Grok) (x t : string) (ti d : json) :
  logs g (generate_reasoning g x t ti d).
Proof. apply logs_request. failed_answer. Qed.

Ltac logs_step :=
  first
    [ apply logs_bind; [|intros ?]
    | apply logs_ret | apply logs_raise | apply logs_lift
    | apply logs_get_db | apply logs_commit
    | apply logs_plan | apply logs_reading | apply logs_tasks
    | apply logs_quiz | apply logs_reasoning
    | match goal with
      | |- logs _ (match ?x with _ => _ end) => destruct x
      end ].

Lemma logs_generate_weeks (g : Grok) (analysis : json) (weeks : list json) :
  logs g (generate_weeks g analysis weeks).
Proof.
  induction weeks as [|week rest IH]; cbn [generate_weeks].
  - apply logs_ret.
  - repeat logs_step. exact IH.
Qed.

Lemma logs_insert_master_plan (g : Grok) (m : MasterPlan) :
  logs g (insert_master_plan m).
Proof. unfold insert_master_plan. repeat logs_step. Qed.

Lemma logs_generate_master_plan (g : Grok) (codebase_id : string) :
  logs g (generate_master_plan g codebase_id).
Proof.
  unfold generate_master_plan. repeat logs_step;
    auto using logs_generate_weeks, logs_insert_master_plan.
Qed.

Lemma reads_pure {A} (m : M A) :
  (forall w, exists r, m w = (r, w)) -> reads m.
Proof.
  intros H w r w' Hm. destruct (H w) as [r0 Hr]. rewrite Hr in Hm.
  now injection Hm as <- <-.
Qed.

Lemma reads_ret {A} (a : A) : reads (ret a).
Proof. apply reads_pure. intros w. now eexists. Qed.

Lemma reads_raise {A} (e : exn) : reads (@raise A e).
Proof. apply reads_pure. intros w. now eexists. Qed.

Lemma reads_lift {A} (r : res A) : reads (lift r).
Proof. apply reads_pure. intros w. now eexists. Qed.

Lemma reads_get_db : reads get_db.
Proof. apply reads_pure. intros w. now eexists. Qed.

Lemma reads_request {A} (c : Call) (answer : nat -> res A) :
  reads (request c answer).
Proof. now intros w r w' [= _ <-]. Qed.

Lemma reads_bind {A B} (m : M A) (f : A -> M B) :
  reads m -> (forall a, reads (f a)) -> reads (bind m f).
Proof.
  intros Hm Hf w r w' [(e & H1 & ->)|(a & w1 & H1 & H2)]%bind_inv.
  - apply (Hm _ _ _ H1).
  - rewrite (Hf _ _ _ _ H2). apply (Hm _ _ _ H1).
Qed.

Ltac reads_step :=
  first
    [ apply reads_bind; [|intros ?]
    | apply reads_ret | apply reads_raise | apply reads_lift
    | apply reads_get_db | apply reads_request
    | match goal with
      | |- reads (match ?x with _ => _ end) => destruct x
      end ].

Lemma reads_generate_weeks (g : Grok) (analysis : json) (weeks : list json) :
  reads (generate_weeks g analysis weeks).
Proof.
  induction weeks as [|week rest IH]; cbn [generate_weeks].
  - apply reads_ret.
  - repeat reads_step. exact IH.
Qed.

(* ------------------------------------------------------------------ *)
(** ** plan_template_service: master plan generation                    *)
(* ------------------------------------------------------------------ *)

Lemma get_twice (d : json) (k : string) (a b v : json) :
  get d k a = inr v -> exists v', get d k b = inr v'.
Proof. destruct d; try discriminate. intros _. now eexists. Qed.

(** The outcome of [insert_master_plan]. *)
Lemma insert_master_plan_inv (m : MasterPlan) (w w' : World) (r : res unit) :
  insert_master_plan m w = (r, w') ->
  (r = inl (IntegrityError "master_plans.id") /\ w' = w
   /\ exists m', m' ∈ master_plans (db w) /\ mp_id m' = mp_id m)
  \/ (r = inr tt /\ w' = {| db := add_master_plan m (db w); calls := calls w |}
      /\ forall m', m' ∈ master_plans (db w) -> mp_id m' <> mp_id m).
Proof.
  unfold insert_master_plan, bind, get_db.
  destruct (existsb _ (master_plans (db w))) eqn:E; intros [= <- <-].
  - left. repeat split. apply existsb_exists in E as (m' & Hin & He).
    exists m'. split; [now apply list_elem_of_In | now apply String.eqb_eq].
  - right. repeat split. intros m' Hin He.
    assert (existsb (fun m' => String.eqb (mp_id m') (mp_id m))
              (master_plans (db w)) = true) as E'
      by (apply existsb_exists; exists m'; split;
          [now apply list_elem_of_In | now apply String.eqb_eq]).
    congruence.
Qed.

(** The outcome of [generate_master_plan]: an error and the database as
    it was, or one new row, of version 1 and with the fixed identifier. *)
Lemma generate_master_plan_inv (g : Grok) (codebase_id : string)
    (w w' : World) (r : res json) :
  generate_master_plan g codebase_id w = (r, w') ->
  (exists e, r = inl e /\ db w' = db w)
  \/ (exists v m, r = inr v /\ db w' = add_master_plan m (db w)
        /\ mp_id m = codebase_id +:+ "_v1" /\ mp_codebase_id m = codebase_id
        /\ version m = 1
        /\ forall m', m' ∈ master_plans (db w) -> mp_id m' <> mp_id m).
Proof.
  unfold generate_master_plan. intros H.
  apply bind_inv in H as [(e & H & ->)|(d & w0 & H0 & H)]; [discriminate H|].
  injection H0 as <- <-.
  destruct (latest_analysis (db w) codebase_id) as [a|].
  2:{ injection H as <- <-. left. eauto. }
  apply bind_inv in H as [(e & H & ->)|(plan_data & w1 & H1 & H)].
  { left. eexists. split; [done|]. apply (reads_request _ _ _ _ _ H). }
  apply (reads_request _ _ _ _ _) in H1.
  apply bind_inv in H as [(e & H & ->)|(weeks & w2 & H2 & H)].
  { injection H as _ <-. left. eauto. }
  injection H2 as H2 <-.
  apply bind_inv in H as [(e & H & ->)|(ws & w3 & H3 & H)].
  { injection H as _ <-. left. eauto. }
  injection H3 as H3 <-.
  apply bind_inv in H as [(e & H & ->)|(content & w4 & H4 & H)].
  { left. eexists. split; [done|].
    rewrite (reads_generate_weeks _ _ _ _ _ _ H). exact H1. }
  apply reads_generate_weeks in H4.
  apply bind_inv in H as [(e & H & ->)|(overview & w5 & H5 & H)].
  { injection H as _ <-. left. eexists. split; [done|]. congruence. }
  injection H5 as H5 <-.
  apply bind_inv in H as [(e & H & ->)|([] & w6 & H6 & H)].
  { apply insert_master_plan_inv in H as [(_ & -> & _)|([=] & _)].
    left. eexists. split; [done|]. congruence. }
  apply insert_master_plan_inv in H6 as [([=] & _)|(_ & -> & Hfresh)].
  destruct (get_twice _ _ _ JNull _ H5) as [overview' Ho].
  unfold bind, lift in H. rewrite Ho in H. injection H as <- <-.
  right. eexists _, _. split; [done|]. cbn [db].
  assert (db w4 = db w) as Hdb by congruence. rewrite Hdb in *.
  repeat split; try done.
Qed.

(** C7.  When a request of the generation fails (the reading, the tasks
    or the quiz of a week, or the skeleton), [generate_master_plan] ends
    with that error; and whenever it ends with an error the database is
    as it was, so the latest master plan is the one stored before. *)
Theorem failed_week_aborts_generation (g : Grok) (codebase_id : string)
    (w w' : World) (r : res json) :
  generate_master_plan g codebase_id w = (r, w') ->
  (forall e, r = inl e ->
     db w' = db w
     /\ get_master_plan codebase_id (db w') = get_master_plan codebase_id (db w))
  /\ exists new, calls w' = calls w ++ new
       /\ forall i c e, new !! i = Some c ->
            failed g (length (calls w) + i) c = Some e ->
            r = inl e /\ master_plans (db w') = master_plans (db w).
Proof.
  intros H. assert (forall e, r = inl e -> db w' = db w) as Hdb.
  { intros e ->.
    apply generate_master_plan_inv in H
      as [(e' & _ & Hd)|(v & m & [=] & _)]. exact Hd. }
  split.
  - intros e He. rewrite (Hdb e He). now split.
  - destruct (logs_generate_master_plan g codebase_id _ _ _ H) as (new & Hc & Hf).
    exists new. split; [exact Hc|]. intros i c e Hi Hfail.
    pose proof (Hf _ _ _ Hi Hfail) as Hr. split; [exact Hr|].
    now rewrite (Hdb e Hr).
Qed.

Lemma failed_week_aborts_example :
  let run := generate_master_plan flaky "rocksdb" (fresh analysed) in
  run.1 = inl (UpstreamError "503 Service Unavailable")
  /\ db run.2 = analysed
  /\ length (calls run.2) = 7%nat.
Proof.
  set (run := generate_master_plan flaky "rocksdb" (fresh analysed)).
  destruct (failed_week_aborts_generation flaky "rocksdb" (fresh analysed)
              run.2 run.1 (surjective_pairing run)) as (Hdb & new & Hc & Hf).
  assert (run.1 = inl (UpstreamError "503 Service Unavailable")) as Hr
    by (vm_compute; reflexivity).
  split; [exact Hr|]. split; [exact (proj1 (Hdb _ Hr)) | vm_compute; reflexivity].
Defined.

Lemma latest_analysis_exists (d : DB) (codebase_id : string) (a : CodebaseAnalysis) :
  a ∈ codebase_analyses d -> ca_codebase_id a = codebase_id ->
  exists a', latest_analysis d codebase_id = Some a'.
Proof.
  intros Hin Hc. destruct (latest_analysis d codebase_id) as [a'|] eqn:E; [eauto|].
  destruct (proj1 (latest_analysis_none d codebase_id) E a Hin Hc).
Qed.

Lemma request_then_logs (g : Grok) {A B} (c : Call) (answer : nat -> res A)
    (f : A -> M B) (w : World) :
  (forall a, logs g (f a)) ->
  exists new, calls (bind (request c answer) f w).2 = calls w ++ c :: new.
Proof.
  intros Hf. unfold bind, request.
  destruct (answer (length (calls w))) as [e|a]; cbn [snd calls].
  - exists []. reflexivity.
  - match goal with
    | |- context [f a ?w1] =>
        destruct (Hf a w1 _ _ (surjective_pairing (f a w1))) as (new & Hc & _)
    end.
    exists new. rewrite Hc. cbn [calls]. now rewrite <- app_assoc.
Qed.

(** C6, as the code has it.  Without a stored analysis of the codebase
    the generation raises the ValueError of the missing analysis, makes no
    request and writes nothing, and the endpoint answers with status 500.
    With a stored analysis the generation goes on: its first request is
    for the skeleton, from the latest analysis. *)
Theorem master_plan_needs_analysis (g : Grok) (codebase_id : string) (w : World) :
  ((forall a, a ∈ codebase_analyses (db w) -> ca_codebase_id a <> codebase_id) ->
   generate_master_plan g codebase_id w
     = (inl (ValueError ("No codebase analysis found for " +:+ codebase_id)), w)
   /\ generate_master_plan_endpoint g codebase_id w
     = (inl (HTTPException 500
               ("Master plan generation failed: No codebase analysis found for "
                +:+ codebase_id)), w))
  /\ (forall a, a ∈ codebase_analyses (db w) -> ca_codebase_id a = codebase_id ->
      exists latest new,
        latest_analysis (db w) codebase_id = Some latest
        /\ calls (generate_master_plan g codebase_id w).2
           = calls w ++ CallPlan (analysis_data latest) :: new).
Proof.
  split.
  - intros Hnone. apply latest_analysis_none in Hnone.
    assert (generate_master_plan g codebase_id w
            = (inl (ValueError ("No codebase analysis found for " +:+ codebase_id)), w))
      as Hg by (unfold generate_master_plan, bind, get_db; now rewrite Hnone).
    split; [exact Hg|]. unfold generate_master_plan_endpoint. now rewrite Hg.
  - intros a Hin Hc.
    destruct (latest_analysis_exists _ _ _ Hin Hc) as [latest Hl].
    exists latest.
    enough (exists new, calls (generate_master_plan g codebase_id w).2
                        = calls w ++ CallPlan (analysis_data latest) :: new)
      as [new Hn] by (exists new; now split).
    unfold generate_master_plan, bind at 1, get_db. rewrite Hl.
    unfold _generate_comprehensive_plan. apply request_then_logs with (g := g).
    intros plan_data.
    repeat logs_step; auto using logs_generate_weeks, logs_insert_master_plan.
Qed.

Lemma missing_analysis_example :
  generate_master_plan steady "mysql" (fresh analysed)
  = (inl (ValueError "No codebase analysis found for mysql"), fresh analysed).
Proof.
  apply (proj1 (master_plan_needs_analysis steady "mysql" (fresh analysed))).
  intros a ->%list_elem_of_singleton. discriminate.
Defined.

(** C6, as the specification states it, fails: the missing analysis
    reaches the user with status 500, which is no client error. *)
Lemma missing_analysis_is_server_error :
  status_of (generate_master_plan_endpoint steady "mysql" (fresh analysed)).1
    = Some 500
  /\ client_error 500 = false.
Proof. vm_compute. split; reflexivity. Qed.

(** A generation that succeeds writes one row, of version 1 and with the
    identifier made of the codebase and the suffix _v1. *)
Lemma generation_writes_version_1 (g : Grok) (codebase_id : string)
    (w w' : World) (v : json) :
  generate_master_plan g codebase_id w = (inr v, w') ->
  exists m, master_plans (db w') = master_plans (db w) ++ [m]
            /\ mp_id m = codebase_id +:+ "_v1" /\ version m = 1.
Proof.
  intros [(e & [=] & _)|(v' & m & _ & Hd & Hid & _ & Hv & _)]%generate_master_plan_inv.
  exists m. rewrite Hd. now repeat split.
Qed.

(** After one success every further generation for the codebase fails
    and writes nothing: no second row, no higher version. *)
Lemma regeneration_fails (g g' : Grok) (codebase_id : string)
    (w w1 w2 : World) (v : json) (r : res json) :
  generate_master_plan g codebase_id w = (inr v, w1) ->
  generate_master_plan g' codebase_id w1 = (r, w2) ->
  (exists e, r = inl e) /\ db w2 = db w1.
Proof.
  intros (m & Hm & Hid & _)%generation_writes_version_1.
  intros [(e & -> & Hd)|(v' & m' & _ & _ & Hid' & _ & _ & Hfresh)]%generate_master_plan_inv.
  - split; [eauto | exact Hd].
  - exfalso. apply (Hfresh m); [|congruence].
    rewrite Hm. apply elem_of_app. right. now left.
Qed.

(** C1 on two runs of the generation for one codebase: the first writes
    the row of version 1; the second makes all its
    requests again, fails on the primary key and leaves the table as it was, so
    the latest version stays 1. *)
Theorem regeneration_keeps_version_1 :
  let first := generate_master_plan steady "rocksdb" (fresh analysed) in
  let second := generate_master_plan steady "rocksdb" first.2 in
  (mp_id <$> master_plans (db first.2) = ["rocksdb_v1"]
   /\ version <$> master_plans (db first.2) = [1])
  /\ second.1 = inl (IntegrityError "master_plans.id")
  /\ db second.2 = db first.2
  /\ version <$> latest_master_plan (db second.2) "rocksdb" = Some 1.
Proof. vm_compute. repeat split; reflexivity. Qed.

(* ------------------------------------------------------------------ *)
(** ** Weekly content: which requests are made                          *)
(* ------------------------------------------------------------------ *)

Lemma quiet_silent {A} (m : M A) :
  (forall w r w', m w = (r, w') -> calls w' = calls w) -> quiet m.
Proof.
  intros H w r w' Hm. exists []. rewrite app_nil_r.
  split; [apply (H _ _ _ Hm) | constructor].
Qed.

Lemma quiet_ret {A} (a : A) : quiet (ret a).
Proof. apply quiet_silent. now intros w r w' [= _ <-]. Qed.

Lemma quiet_raise {A} (e : exn) : quiet (@raise A e).
Proof. apply quiet_silent. now intros w r w' [= _ <-]. Qed.

Lemma quiet_lift {A} (r : res A) : quiet (lift r).
Proof. apply quiet_silent. now intros w r' w' [= _ <-]. Qed.

Lemma quiet_get_db : quiet get_db.
Proof. apply quiet_silent. now intros w r w' [= _ <-]. Qed.

Lemma quiet_commit (f : DB -> DB) : quiet (commit f).
Proof. apply quiet_silent. now intros w r w' [= _ <-]. Qed.

Lemma quiet_at_bind {A B} (w : World) (m : M A) (f : A -> M B) :
  quiet_at w m ->
  (forall a w1, m w = (inr a, w1) -> quiet_at w1 (f a)) ->
  quiet_at w (bind m f).
Proof.
  intros Hm Hf r w' [(e & H1 & ->)|(a & w1 & H1 & H2)]%bind_inv.
  - apply (Hm _ _ H1).
  - destruct (Hm _ _ H1) as (new1 & Hc1 & Hq1).
    destruct (Hf a w1 H1 _ _ H2) as (new2 & Hc2 & Hq2).
    exists (new1 ++ new2). split.
    + rewrite Hc2, Hc1. now rewrite app_assoc.
    + now apply Forall_app.
Qed.

Lemma quiet_bind {A B} (m : M A) (f : A -> M B) :
  quiet m -> (forall a, quiet (f a)) -> quiet (bind m f).
Proof.
  intros Hm Hf w. apply quiet_at_bind; [apply Hm|]. intros a w1 _. apply Hf.
Qed.

Lemma quiet_reasoning (g : Grok) (x t : string) (ti d : json) :
  quiet (generate_reasoning g x t ti d).
Proof.
  intros w r w'. unfold generate_reasoning, request. intros [= _ <-].
  eexists [_]. split; [reflexivity|]. now repeat constructor.
Qed.

Ltac quiet_step :=
  first
    [ apply quiet_bind; [|intros ?]
    | apply quiet_ret | apply quiet_raise | apply quiet_lift
    | apply quiet_get_db | apply quiet_commit | apply quiet_reasoning
    | match goal with
      | |- quiet (match ?x with _ => _ end) => destruct x
      end ].

Lemma quiet_add_reading_reason (g : Grok) (ctx : string) (reading : json) :
  quiet (add_reading_reason g ctx reading).
Proof. unfold add_reading_reason. repeat quiet_step. Qed.

Lemma quiet_add_task_reasons (g : Grok) (ctx : string) (tasks : list (json * bool)) :
  quiet (add_task_reasons g ctx tasks).
Proof.
  induction tasks as [|[t b] rest IH]; cbn [add_task_reasons].
  - apply quiet_ret.
  - destruct b; repeat quiet_step; exact IH.
Qed.

Lemma quiet_fill_task_reasons (g : Grok) (ctx : string) (tasks : json)
    (missing : list bool) :
  quiet (fill_task_reasons g ctx tasks missing).
Proof.
  unfold fill_task_reasons.
  destruct tasks; repeat quiet_step; apply quiet_add_task_reasons.
Qed.

Lemma quiet_copy_from_master (g : Grok) (x : option string) (m : MasterPlan)
    (week_number : Z) :
  quiet (copy_from_master g x m week_number).
Proof.
  unfold copy_from_master.
  repeat quiet_step;
    auto using quiet_add_reading_reason, quiet_fill_task_reasons.
Qed.

Lemma quiet_save (existing : option WeeklyContent) (row : WeeklyContent) :
  quiet (save_weekly_content existing row).
Proof. apply quiet_commit. Qed.

Lemma quiet_backfill (g : Grok) (ctx : string) (w : WeeklyContent) :
  quiet (backfill g ctx w).
Proof.
  unfold backfill.
  repeat quiet_step;
    auto using quiet_add_reading_reason, quiet_fill_task_reasons, quiet_save.
Qed.

Lemma logs_add_task_reasons (g : Grok) (ctx : string) (tasks : list (json * bool)) :
  logs g (add_task_reasons g ctx tasks).
Proof.
  induction tasks as [|[t b] rest IH]; cbn [add_task_reasons].
  - apply logs_ret.
  - destruct b; repeat logs_step; exact IH.
Qed.

Lemma logs_get_weekly_content (g : Grok) (prompts : string -> option string)
    (candidate_id week_number : Z) :
  logs g (get_weekly_content g prompts candidate_id week_number).
Proof.
  unfold get_weekly_content, materialize, backfill, copy_from_master,
    generate_on_demand, add_reading_reason, fill_task_reasons,
    save_weekly_content.
  repeat logs_step; auto using logs_add_task_reasons.
Qed.

Lemma quiet_at_materialize (g : Grok) (x : option string) (lp : LearningPlan)
    (week_number : Z) (existing : option WeeklyContent) (w : World) (m : MasterPlan) :
  master_plan_available (latest_master_plan (db w) (lp_codebase_id lp)) = Some m ->
  quiet_at w (materialize g x lp week_number existing).
Proof.
  intros Hm. unfold materialize.
  apply quiet_at_bind; [apply quiet_get_db|]. intros d w1 [= <- <-].
  rewrite Hm.
  apply quiet_at_bind; [apply quiet_copy_from_master|].
  intros [[reading tasks] quiz] w2 _.
  apply quiet_bind; [apply quiet_save|]. intros _. apply quiet_ret.
Qed.

(** The tail of [get_weekly_content] after the week is materialized. *)
Lemma quiet_backfill_or_not (g : Grok) (x : option string) (row : WeeklyContent) :
  quiet (match usable x with
         | Some ctx => backfill g ctx row
         | None => ret row
         end).
Proof. destruct (usable x); [apply quiet_backfill | apply quiet_ret]. Qed.

(** A request for on-demand content is made only when the week has no
    materialized row and no master plan is available. *)
Lemma on_demand_needs_no_master (g : Grok) (prompts : string -> option string)
    (candidate_id week_number : Z) (w w' : World) (r : res WeeklyContent) :
  get_weekly_content g prompts candidate_id week_number w = (r, w') ->
  exists new, calls w' = calls w ++ new
    /\ (Exists (fun c => on_demand c = true) new ->
        exists lp existing,
          latest_learning_plan (db w) candidate_id = Some lp
          /\ scalar_one_or_none (find_weekly_content (db w) (lp_id lp) week_number)
             = inr existing
          /\ materialized existing = None
          /\ master_plan_available
               (latest_master_plan (db w) (lp_codebase_id lp)) = None).
Proof.
  intros H.
  destruct (logs_get_weekly_content g prompts _ _ _ _ _ H) as (new & Hc & _).
  exists new. split; [exact Hc|]. intros Hex.
  assert (quiet_at w (get_weekly_content g prompts candidate_id week_number)
          -> False) as Hnq.
  { intros Hq. destruct (Hq _ _ H) as (new' & Hc' & Hall).
    rewrite Hc in Hc'. apply app_inv_head in Hc' as <-.
    apply Exists_exists in Hex as (c & Hin & Hc1).
    rewrite Forall_forall in Hall. specialize (Hall c Hin). congruence. }
  destruct (latest_learning_plan (db w) candidate_id) as [lp|] eqn:Hlp.
  2:{ destruct Hnq. unfold get_weekly_content.
      apply quiet_at_bind; [apply quiet_get_db|]. intros d w1 [= <- <-].
      rewrite Hlp. apply quiet_raise. }
  destruct (scalar_one_or_none (find_weekly_content (db w) (lp_id lp) week_number))
    as [e|existing] eqn:Hex1.
  { destruct Hnq. unfold get_weekly_content.
    apply quiet_at_bind; [apply quiet_get_db|]. intros d w1 [= <- <-].
    rewrite Hlp, Hex1.
    apply quiet_at_bind; [apply quiet_lift | intros a w1 [=]]. }
  exists lp, existing. split; [done|]. split; [done|].
  destruct (materialized existing) as [row|] eqn:Hmat.
  { destruct Hnq. unfold get_weekly_content.
    apply quiet_at_bind; [apply quiet_get_db|]. intros d w1 [= <- <-].
    rewrite Hlp, Hex1.
    apply quiet_at_bind; [apply quiet_lift|]. intros a w1 [= <- <-].
    apply quiet_bind; [apply quiet_lift|]. intros cand. rewrite Hmat.
    apply quiet_bind; [apply quiet_ret|]. intros row'.
    apply quiet_backfill_or_not. }
  split; [done|].
  destruct (master_plan_available _) as [m|] eqn:Hm; [|done].
  destruct Hnq. unfold get_weekly_content.
  apply quiet_at_bind; [apply quiet_get_db|]. intros d w1 [= <- <-].
  rewrite Hlp, Hex1.
  apply quiet_at_bind; [apply quiet_lift|]. intros a w1 [= <- <-].
  apply quiet_at_bind; [apply quiet_lift|]. intros cand w1 [= _ <-].
  rewrite Hmat.
  apply quiet_at_bind; [now apply (quiet_at_materialize _ _ _ _ _ _ m)|].
  intros row w2 _. apply quiet_backfill_or_not.
Qed.

(* ------------------------------------------------------------------ *)
(** ** Weekly content: what is copied                                   *)
(* ------------------------------------------------------------------ *)

Lemma filter_assoc_set_reason (v : json) (kv : list (string * json)) :
  filter (fun p => p.1 <> "reason") (assoc_set "reason" v kv)
  = filter (fun p : string * json => p.1 <> "reason") kv.
Proof.
  induction kv as [|[k x] kv IH]; cbn [assoc_set].
  - now rewrite filter_cons_False by (cbn; congruence).
  - destruct (String.eqb_spec "reason" k) as [<-|Hne].
    + rewrite !filter_cons_False by (cbn; congruence). reflexivity.
    + rewrite !filter_cons_True by (cbn; congruence). now rewrite IH.
Qed.

Lemma set_reason_drop (x x' : json) (reason : string) :
  set_item x "reason" (JStr reason) = inr x' -> drop_reason x' = drop_reason x.
Proof.
  destruct x; try discriminate. intros [= <-]. cbn [drop_reason].
  now rewrite filter_assoc_set_reason.
Qed.

Lemma lift_inv {A} (r r' : res A) (w w' : World) :
  lift r w = (r', w') -> r' = r /\ w' = w.
Proof. now intros [= <- <-]. Qed.

Lemma add_reading_reason_drop (g : Grok) (ctx : string) (reading reading' : json)
    (w w' : World) :
  add_reading_reason g ctx reading w = (inr reading', w') ->
  drop_reason reading' = drop_reason reading /\ db w' = db w.
Proof.
  unfold add_reading_reason. intros H.
  apply bind_inv in H as [(e & _ & [=])|(title & w1 & [_ ->]%lift_inv & H)].
  apply bind_inv in H as [(e & _ & [=])|(content & w2 & [_ ->]%lift_inv & H)].
  apply bind_inv in H as [(e & _ & [=])|(descr & w3 & [_ ->]%lift_inv & H)].
  apply bind_inv in H as [(e & _ & [=])|(reason & w4 & H4 & H)].
  apply reads_request in H4. apply lift_inv in H as [H ->].
  split; [|exact H4]. symmetry in H. apply (set_reason_drop _ _ _ H).
Qed.

Lemma flags_length (l : list json) (bs : list bool) :
  flags l = inr bs -> length bs = length l.
Proof.
  revert bs. induction l as [|t l IH]; intros bs; cbn [flags].
  - now intros [= <-].
  - destruct (lacks_reason t) as [e|b]; [discriminate|]. cbn [res_bind].
    destruct (flags l) as [e|bs']; [discriminate|]. cbn [res_bind].
    intros [= <-]. cbn [length]. f_equal. now apply IH.
Qed.

Lemma add_task_reasons_drop (g : Grok) (ctx : string) (tasks : list (json * bool))
    (l' : list json) (w w' : World) :
  add_task_reasons g ctx tasks w = (inr l', w') ->
  map drop_reason l' = map drop_reason tasks.*1 /\ db w' = db w.
Proof.
  revert l' w w'. induction tasks as [|[t b] rest IH]; intros l' w w';
    cbn [add_task_reasons].
  - now intros [= <- <-].
  - destruct b.
    + intros H.
      apply bind_inv in H as [(e & _ & [=])|(title & w1 & [_ ->]%lift_inv & H)].
      apply bind_inv in H as [(e & _ & [=])|(d0 & w2 & [_ ->]%lift_inv & H)].
      apply bind_inv in H as [(e & _ & [=])|(descr & w3 & [_ ->]%lift_inv & H)].
      apply bind_inv in H as [(e & _ & [=])|(reason & w4 & H4 & H)].
      apply reads_request in H4.
      apply bind_inv in H as [(e & _ & [=])|(t' & w5 & [Ht ->]%lift_inv & H)].
      apply bind_inv in H as [(e & _ & [=])|(more & w6 & H6 & H)].
      apply IH in H6 as [Hmore Hd]. injection H as <- <-.
      split; [|congruence]. cbn [map fmap list_fmap fst]. f_equal; [|exact Hmore].
      symmetry in Ht. apply (set_reason_drop _ _ _ Ht).
    + intros H.
      apply bind_inv in H as [(e & _ & [=])|(more & w6 & H6 & H)].
      apply IH in H6 as [Hmore Hd]. injection H as <- <-.
      split; [|exact Hd]. cbn [map fmap list_fmap fst]. f_equal. exact Hmore.
Qed.

Lemma tasks_lacking_reason_list (l : list json) (missing : list bool) :
  tasks_lacking_reason (JList l) = inr missing -> length missing = length l.
Proof. unfold tasks_lacking_reason. cbn [iterate res_bind]. apply flags_length. Qed.

Lemma fill_task_reasons_drop (g : Grok) (ctx : string) (tasks tasks' : json)
    (missing : list bool) (w w' : World) :
  tasks_lacking_reason tasks = inr missing ->
  fill_task_reasons g ctx tasks missing w = (inr tasks', w') ->
  drop_reasons tasks' = drop_reasons tasks /\ db w' = db w.
Proof.
  intros Hm. unfold fill_task_reasons.
  destruct tasks as [| | | |l|]; try (now intros [= <- <-]).
  intros H.
  apply bind_inv in H as [(e & _ & [=])|(l' & w1 & H1 & H)].
  injection H as <- <-. apply add_task_reasons_drop in H1 as [H1 Hd].
  split; [|exact Hd]. cbn [drop_reasons]. f_equal. rewrite H1.
  rewrite fst_zip; [reflexivity|].
  apply tasks_lacking_reason_list in Hm. lia.
Qed.

Lemma get_field (d : json) (k : string) (dflt v : json) :
  get d k dflt = inr v -> v = field d k dflt.
Proof. unfold field. now intros ->. Qed.

(** The reason of the reading, added when it is missing. *)
Lemma reading_step_drop (g : Grok) (ctx : string) (reading reading' : json)
    (b : bool) (w w' : World) :
  (if b then add_reading_reason g ctx reading else ret reading) w
    = (inr reading', w') ->
  drop_reason reading' = drop_reason reading /\ db w' = db w.
Proof.
  destruct b; [apply add_reading_reason_drop | now intros [= <- <-]].
Qed.

Lemma tasks_step_drop (g : Grok) (ctx : string) (tasks tasks' : json)
    (missing : list bool) (w w' : World) :
  tasks_lacking_reason tasks = inr missing ->
  (if existsb id missing then fill_task_reasons g ctx tasks missing else ret tasks) w
    = (inr tasks', w') ->
  drop_reasons tasks' = drop_reasons tasks /\ db w' = db w.
Proof.
  intros Hm. destruct (existsb id missing);
    [now apply fill_task_reasons_drop | now intros [= <- <-]].
Qed.

(** What [copy_from_master] returns for a week of the master plan. *)
Lemma copy_from_master_content (g : Grok) (x : option string) (m : MasterPlan)
    (week_number : Z) (weeks : list json) (week : json)
    (reading tasks quiz : json) (w w' : World) :
  iterate (weeks_data m) = inr weeks ->
  find_week week_number weeks = inr (Some week) ->
  copy_from_master g x m week_number w = (inr (reading, tasks, quiz), w') ->
  drop_reason reading = drop_reason (field week "reading_material" (JDict []))
  /\ drop_reasons tasks = drop_reasons (field week "coding_tasks" (JList []))
  /\ quiz = field week "quiz" (JList [])
  /\ (usable x = None ->
      reading = field week "reading_material" (JDict [])
      /\ tasks = field week "coding_tasks" (JList []))
  /\ db w' = db w.
Proof.
  intros Hi Hf. unfold copy_from_master. rewrite Hi. intros H.
  apply bind_inv in H as [(e & _ & [=])|(ws & w1 & [[= <-] ->]%lift_inv & H)].
  rewrite Hf in H.
  apply bind_inv in H as [(e & _ & [=])|(wc & w1 & [[= ->] ->]%lift_inv & H)].
  apply bind_inv in H as [(e & _ & [=])|(r0 & w1 & [Hr ->]%lift_inv & H)].
  apply bind_inv in H as [(e & _ & [=])|(t0 & w1 & [Ht ->]%lift_inv & H)].
  apply bind_inv in H as [(e & _ & [=])|(q0 & w1 & [Hq ->]%lift_inv & H)].
  symmetry in Hr, Ht, Hq.
  apply get_field in Hr as ->. apply get_field in Ht as ->.
  apply get_field in Hq as ->.
  destruct (usable x) as [ctx|].
  - apply bind_inv in H as [(e & _ & [=])|(b & w1 & [_ ->]%lift_inv & H)].
    apply bind_inv in H as [(e & _ & [=])|(r1 & w1 & H1 & H)].
    apply reading_step_drop in H1 as [Hr1 Hd1].
    apply bind_inv in H as [(e & _ & [=])|(missing & w2 & [Hm ->]%lift_inv & H)].
    apply bind_inv in H as [(e & _ & [=])|(t1 & w2 & H2 & H)].
    symmetry in Hm. apply (tasks_step_drop _ _ _ _ _ _ _ Hm) in H2 as [Ht1 Hd2].
    injection H as <- <- <- <-.
    repeat split; [done | done | discriminate | discriminate | congruence].
  - injection H as <- <- <- <-. repeat split.
Qed.

Lemma backfill_content (g : Grok) (ctx : string) (row row' : WeeklyContent)
    (w w' : World) :
  backfill g ctx row w = (inr row', w') ->
  drop_reason (reading_material row') = drop_reason (reading_material row)
  /\ drop_reasons (coding_tasks row') = drop_reasons (coding_tasks row)
  /\ quiz row' = quiz row
  /\ wc_learning_plan_id row' = wc_learning_plan_id row
  /\ wc_week_number row' = wc_week_number row
  /\ (db w' = db w /\ row' = row
      \/ db w' = put_weekly_content (Some row) row' (db w)).
Proof.
  unfold backfill. intros H.
  apply bind_inv in H as [(e & _ & [=])|(b & w1 & [_ ->]%lift_inv & H)].
  apply bind_inv in H as [(e & _ & [=])|(r1 & w1 & H1 & H)].
  apply reading_step_drop in H1 as [Hr1 Hd1].
  apply bind_inv in H as [(e & _ & [=])|(missing & w2 & Hm & H)].
  assert (w2 = w1 /\ (truthy (coding_tasks row) = true ->
                      tasks_lacking_reason (coding_tasks row) = inr missing)
          /\ (truthy (coding_tasks row) = false -> missing = [])) as (-> & Hm1 & Hm2).
  { destruct (truthy (coding_tasks row)).
    - apply lift_inv in Hm as [Hm ->].
      split; [done|]. split; [intros _; now symmetry | discriminate].
    - injection Hm as <- <-.
      split; [done|]. split; [discriminate | done]. }
  apply bind_inv in H as [(e & _ & [=])|(t1 & w2 & H2 & H)].
  assert (drop_reasons t1 = drop_reasons (coding_tasks row) /\ db w2 = db w1)
    as [Ht1 Hd2].
  { destruct (truthy (coding_tasks row)) eqn:Ht.
    - apply (tasks_step_drop _ _ _ _ _ _ _ (Hm1 eq_refl) H2).
    - rewrite (Hm2 eq_refl) in H2. now injection H2 as <- <-. }
  destruct (b || existsb id missing).
  - apply bind_inv in H as [(e & _ & [=])|([] & w3 & [= <-] & H)].
    injection H as <- <-. cbn [reading_material coding_tasks quiz
      wc_learning_plan_id wc_week_number db].
    repeat split; [done | done |]. right. congruence.
  - injection H as <- <-. repeat split. left. split; [congruence | done].
Qed.

Lemma iterate_truthy (v : json) (ws : list json) :
  iterate v = inr ws -> ws <> [] -> truthy v = true.
Proof.
  destruct v as [| | |s|l|kv]; try discriminate; intros [= <-] Hne.
  - now destruct s.
  - now destruct l.
  - now destruct kv.
Qed.

Lemma find_week_nonempty (n : Z) (ws : list json) (week : json) :
  find_week n ws = inr (Some week) -> ws <> [].
Proof. now destruct ws. Qed.

(** A master plan whose weeks hold the week is available. *)
Lemma master_plan_with_week_available (m : MasterPlan) (n : Z) (ws : list json)
    (week : json) :
  iterate (weeks_data m) = inr ws -> find_week n ws = inr (Some week) ->
  master_plan_available (Some m) = Some m.
Proof.
  intros Hi Hf. cbn [master_plan_available].
  now rewrite (iterate_truthy _ _ Hi (find_week_nonempty _ _ _ Hf)).
Qed.

Lemma scalar_one_elem {A} (l : list A) (x : A) :
  scalar_one_or_none l = inr (Some x) -> l = [x].
Proof. destruct l as [|a [|b l]]; try discriminate. now intros [= ->]. Qed.

Lemma put_weekly_content_elem (existing : option WeeklyContent)
    (row : WeeklyContent) (d : DB) :
  (forall old, existing = Some old ->
     old ∈ weekly_content d
     /\ wc_learning_plan_id old = wc_learning_plan_id row
     /\ wc_week_number old = wc_week_number row) ->
  row ∈ weekly_content (put_weekly_content existing row d).
Proof.
  intros H. cbn [put_weekly_content weekly_content].
  destruct existing as [old|].
  - destruct (H old eq_refl) as (Hin & Hp & Hw).
    apply list_elem_of_fmap. exists old. split; [|exact Hin].
    now rewrite decide_True by done.
  - apply elem_of_app. right. now left.
Qed.

Lemma existing_row (d : DB) (plan_id week_number : Z) (old : WeeklyContent) :
  scalar_one_or_none (find_weekly_content d plan_id week_number) = inr (Some old) ->
  old ∈ weekly_content d /\ wc_learning_plan_id old = plan_id
  /\ wc_week_number old = week_number.
Proof.
  intros H%scalar_one_elem.
  assert (old ∈ find_weekly_content d plan_id week_number) as Hin
    by (rewrite H; now left).
  apply list_elem_of_filter in Hin as [[Hp Hw] Hin]. now repeat split.
Qed.

(** The tail of [get_weekly_content] keeps the copied content and leaves
    the row in the table. *)
Lemma backfill_or_not_content (g : Grok) (x : option string)
    (row row' : WeeklyContent) (w w' : World) :
  row ∈ weekly_content (db w) ->
  (match usable x with
   | Some ctx => backfill g ctx row
   | None => ret row
   end) w = (inr row', w') ->
  drop_reason (reading_material row') = drop_reason (reading_material row)
  /\ drop_reasons (coding_tasks row') = drop_reasons (coding_tasks row)
  /\ quiz row' = quiz row
  /\ wc_learning_plan_id row' = wc_learning_plan_id row
  /\ wc_week_number row' = wc_week_number row
  /\ (usable x = None -> row' = row)
  /\ row' ∈ weekly_content (db w').
Proof.
  intros Hin. destruct (usable x) as [ctx|].
  - intros (Hr & Ht & Hq & Hp & Hw & Hd)%backfill_content.
    repeat split; try done.
    destruct Hd as [[Hd ->]|Hd]; rewrite Hd; [done|].
    apply put_weekly_content_elem. intros old [= <-]. now repeat split.
  - intros [= <- <-]. now repeat split.
Qed.

(** The content of a request that finds the week in the latest master
    plan and no materialized row: it is the content of that week of the
    master plan, apart from the reasons. *)
Lemma copied_from_master (g : Grok) (prompts : string -> option string)
    (candidate_id week_number : Z) (w w' : World) (row : WeeklyContent)
    (lp : LearningPlan) (existing : option WeeklyContent) (m : MasterPlan)
    (weeks : list json) (week : json) :
  latest_learning_plan (db w) candidate_id = Some lp ->
  scalar_one_or_none (find_weekly_content (db w) (lp_id lp) week_number)
    = inr existing ->
  materialized existing = None ->
  latest_master_plan (db w) (lp_codebase_id lp) = Some m ->
  iterate (weeks_data m) = inr weeks ->
  find_week week_number weeks = inr (Some week) ->
  get_weekly_content g prompts candidate_id week_number w = (inr row, w') ->
  drop_reason (reading_material row)
    = drop_reason (field week "reading_material" (JDict []))
  /\ drop_reasons (coding_tasks row)
    = drop_reasons (field week "coding_tasks" (JList []))
  /\ quiz row = field week "quiz" (JList [])
  /\ wc_learning_plan_id row = lp_id lp
  /\ wc_week_number row = week_number
  /\ row ∈ weekly_content (db w').
Proof.
  intros Hlp Hex Hmat Hm Hi Hf. unfold get_weekly_content. intros H.
  apply bind_inv in H as [(e & _ & [=])|(d & w1 & [= <- <-] & H)].
  rewrite Hlp, Hex in H.
  apply bind_inv in H as [(e & _ & [=])|(ex & w1 & [[= ->] ->]%lift_inv & H)].
  apply bind_inv in H as [(e & _ & [=])|(cand & w1 & [_ ->]%lift_inv & H)].
  rewrite Hmat in H.
  apply bind_inv in H as [(e & _ & [=])|(row0 & w1 & H1 & H)].
  unfold materialize in H1.
  apply bind_inv in H1 as [(e & _ & [=])|(d & w2 & [= <- <-] & H1)].
  rewrite Hm, (master_plan_with_week_available _ _ _ _ Hi Hf) in H1.
  apply bind_inv in H1 as [(e & _ & [=])|([[r0 t0] q0] & w2 & Hc & H1)].
  apply (copy_from_master_content _ _ _ _ _ _ _ _ _ _ _ Hi Hf) in Hc
    as (Hr0 & Ht0 & Hq0 & _ & Hd0).
  apply bind_inv in H1 as [(e & _ & [=])|([] & w3 & [= <-] & H1)].
  injection H1 as <- <-.
  apply backfill_or_not_content in H
    as (Hr & Ht & Hq & Hp & Hw & _ & Hin).
  - cbn [reading_material coding_tasks quiz wc_learning_plan_id wc_week_number]
      in Hr, Ht, Hq, Hp, Hw.
    repeat split; first [congruence | exact Hin].
  - cbn [db]. apply put_weekly_content_elem. intros old ->.
    rewrite Hd0. cbn [wc_learning_plan_id wc_week_number].
    now apply existing_row.
Qed.

Lemma eq_int_is_number (n : Z) (v : json) : eq_int n v = true <-> is_number n v.
Proof.
  unfold is_number. destruct v as [|[]|m| | |]; cbn; split;
    try (intros [H|[[H ?]|[H ?]]]; discriminate H); try discriminate.
  - intros H%Z.eqb_eq. right. left. now split.
  - intros [H|[[_ ->]|[H _]]]; [discriminate H | reflexivity | discriminate H].
  - intros H%Z.eqb_eq. right. right. now split.
  - intros [H|[[H _]|[_ ->]]]; [discriminate H | discriminate H | reflexivity].
  - intros H%Z.eqb_eq. left. now subst.
  - intros [[= ->]|[[H _]|[H _]]]; [apply Z.eqb_refl | discriminate H ..].
Qed.

(** [find_week] finds the week with the number. *)
Lemma find_week_numbered (n : Z) (weeks : list json) (week : json) :
  week_numbered n weeks week -> find_week n weeks = inr (Some week).
Proof.
  intros (pre & post & number & -> & Hg & Hn & Hpre).
  induction Hpre as [|w pre (v & Hv & Hne) _ IH]; cbn [app find_week].
  - rewrite Hg. cbn [res_bind]. now apply eq_int_is_number in Hn as ->.
  - rewrite Hv. cbn [res_bind].
    destruct (eq_int n v) eqn:E; [|exact IH].
    now apply eq_int_is_number in E.
Qed.

Lemma the_latest_first_by {A} (key : A -> Z) (P : A -> Prop)
    `{forall x, Decision (P x)} (l : list A) (x : A) :
  the_latest key P l x -> first_by key (filter P l) = Some x.
Proof.
  intros (Hin & HP & Hmax).
  destruct (first_by key (filter P l)) as [y|] eqn:E.
  - apply first_by_spec in E as [Hy Hge].
    apply list_elem_of_filter in Hy as [HPy Hy].
    destruct (Hmax y Hy HPy) as [->|Hlt]; [reflexivity|].
    assert (key x <= key y) by (apply Hge, list_elem_of_filter; now split). lia.
  - apply first_by_none in E.
    assert (x ∈ filter P l) as Hx by (apply list_elem_of_filter; now split).
    rewrite E in Hx. now apply elem_of_nil in Hx.
Qed.

Lemma first_by_a_latest {A} (key : A -> Z) (P : A -> Prop)
    `{forall x, Decision (P x)} (l : list A) (x : A) :
  first_by key (filter P l) = Some x -> a_latest key P l x.
Proof.
  intros [Hin Hmax]%first_by_spec. apply list_elem_of_filter in Hin as [HP Hin].
  repeat split; [done..|]. intros y Hy HPy. apply Hmax, list_elem_of_filter.
  now split.
Qed.

Lemma first_by_filter_none {A} (key : A -> Z) (P : A -> Prop)
    `{forall x, Decision (P x)} (l : list A) :
  first_by key (filter P l) = None -> forall y, y ∈ l -> ~ P y.
Proof.
  intros E%first_by_none y Hy HP.
  assert (y ∈ filter P l) as Hin by (apply list_elem_of_filter; now split).
  rewrite E in Hin. now apply elem_of_nil in Hin.
Qed.

(** The row the request looks at, when no row of the week is
    materialized. *)
Lemma unmaterialized_existing (d : DB) (plan_id week_number : Z)
    (existing : option WeeklyContent) :
  unmaterialized d plan_id week_number ->
  scalar_one_or_none (find_weekly_content d plan_id week_number) = inr existing ->
  materialized existing = None.
Proof.
  intros Hun Hex. destruct existing as [row|]; [|reflexivity].
  apply existing_row in Hex as (Hin & Hp & Hw). cbn [materialized].
  now rewrite (Hun row Hin Hp Hw).
Qed.

Lemma existing_unmaterialized (d : DB) (plan_id week_number : Z)
    (existing : option WeeklyContent) :
  scalar_one_or_none (find_weekly_content d plan_id week_number) = inr existing ->
  materialized existing = None ->
  unmaterialized d plan_id week_number.
Proof.
  intros Hex Hmat row Hin Hp Hw.
  assert (row ∈ find_weekly_content d plan_id week_number) as Hrow
    by (apply list_elem_of_filter; now split).
  destruct (find_weekly_content d plan_id week_number) as [|a [|b l]];
    [now apply elem_of_nil in Hrow | | discriminate].
  apply list_elem_of_singleton in Hrow as ->. injection Hex as <-.
  cbn [materialized] in Hmat. now destruct (_ && _).
Qed.

(** A request that fails before it looks for content. *)
Lemma get_weekly_content_ambiguous (g : Grok) (prompts : string -> option string)
    (candidate_id week_number : Z) (w w' : World) (r : res WeeklyContent)
    (lp : LearningPlan) (e : exn) :
  latest_learning_plan (db w) candidate_id = Some lp ->
  scalar_one_or_none (find_weekly_content (db w) (lp_id lp) week_number) = inl e ->
  get_weekly_content g prompts candidate_id week_number w = (r, w') ->
  r = inl e.
Proof.
  intros Hlp Hex. unfold get_weekly_content, bind at 1, get_db.
  rewrite Hlp, Hex. unfold bind at 1, lift at 1. now intros [= <- _].
Qed.

(** C4.  The requests a call of [get_weekly_content] makes hold a request
    for on-demand content (reading, tasks or quiz) only when no row of the
    candidate's latest plan for the week holds both reading material and
    coding tasks, and the codebase of the plan has no master plan or its
    master plan of the highest version has no weeks.  When no row of the
    week is materialized and the master plan of the highest version holds
    a week with that number, no such request is made, and the row that is
    returned and stored carries the reading, the tasks and the quiz of the
    first week of the master plan with that number (apart from the reasons
    added for the candidate). *)
Theorem copy_before_on_demand (g : Grok) (prompts : string -> option string)
    (candidate_id week_number : Z) (w w' : World) (r : res WeeklyContent) :
  get_weekly_content g prompts candidate_id week_number w = (r, w') ->
  exists new, calls w' = calls w ++ new
    /\ (Exists (fun c => on_demand c = true) new ->
        exists lp,
          a_latest lp_created_at (fun p => lp_candidate_id p = candidate_id)
            (learning_plans (db w)) lp
          /\ unmaterialized (db w) (lp_id lp) week_number
          /\ ((forall m, m ∈ master_plans (db w) ->
                         mp_codebase_id m <> lp_codebase_id lp)
              \/ exists m,
                   a_latest version (fun m => mp_codebase_id m = lp_codebase_id lp)
                     (master_plans (db w)) m
                   /\ truthy (weeks_data m) = false))
    /\ (forall lp m weeks week,
          the_latest lp_created_at (fun p => lp_candidate_id p = candidate_id)
            (learning_plans (db w)) lp ->
          unmaterialized (db w) (lp_id lp) week_number ->
          the_latest version (fun m => mp_codebase_id m = lp_codebase_id lp)
            (master_plans (db w)) m ->
          weeks_data m = JList weeks ->
          week_numbered week_number weeks week ->
          Forall (fun c => on_demand c = false) new
          /\ forall row, r = inr row ->
               drop_reason (reading_material row)
                 = drop_reason (field week "reading_material" (JDict []))
               /\ drop_reasons (coding_tasks row)
                  = drop_reasons (field week "coding_tasks" (JList []))
               /\ quiz row = field week "quiz" (JList [])
               /\ row ∈ weekly_content (db w')).
Proof.
  intros H.
  destruct (on_demand_needs_no_master _ _ _ _ _ _ _ H) as (new & Hc & Hod).
  exists new. split; [exact Hc|]. split.
  - intros Hex. destruct (Hod Hex) as (lp & existing & Hlp & Hex1 & Hmat & Hav).
    exists lp. split; [exact (first_by_a_latest _ _ _ _ Hlp)|].
    split; [exact (existing_unmaterialized _ _ _ _ Hex1 Hmat)|].
    destruct (latest_master_plan (db w) (lp_codebase_id lp)) as [m|] eqn:Hm.
    + right. exists m. split; [exact (first_by_a_latest _ _ _ _ Hm)|].
      cbn [master_plan_available] in Hav. now destruct (truthy (weeks_data m)).
    + left. exact (first_by_filter_none _ _ _ Hm).
  - intros lp m weeks week Hlp0 Hun Hm0 Hw Hf%find_week_numbered.
    pose proof (the_latest_first_by _ _ _ _ Hlp0) as Hlp.
    pose proof (the_latest_first_by _ _ _ _ Hm0) as Hm.
    fold (latest_learning_plan (db w) candidate_id) in Hlp.
    fold (latest_master_plan (db w) (lp_codebase_id lp)) in Hm.
    assert (iterate (weeks_data m) = inr weeks) as Hi by now rewrite Hw.
    split.
    + apply Forall_forall. intros c Hin.
      destruct (on_demand c) eqn:Hc1; [|reflexivity]. exfalso.
      destruct Hod as (lp' & ex' & Hlp' & _ & _ & Hav).
      { apply Exists_exists. eauto. }
      rewrite Hlp in Hlp'. injection Hlp' as <-.
      rewrite Hm, (master_plan_with_week_available _ _ _ _ Hi Hf) in Hav.
      discriminate.
    + intros row ->.
      destruct (scalar_one_or_none
                  (find_weekly_content (db w) (lp_id lp) week_number))
        as [e|existing] eqn:Hex.
      { now apply (get_weekly_content_ambiguous _ _ _ _ _ _ _ _ _ Hlp Hex) in H. }
      pose proof (unmaterialized_existing _ _ _ _ Hun Hex) as Hmat.
      destruct (copied_from_master _ _ _ _ _ _ _ _ _ _ _ _ Hlp Hex Hmat Hm Hi Hf H)
        as (Hr & Ht & Hq & _ & _ & Hin).
      now repeat split.
Qed.

Lemma copy_before_on_demand_example :
  let run := get_weekly_content steady no_prompts 7 2 (fresh drifted) in
  Forall (fun c => on_demand c = false) (calls run.2)
  /\ res_map reading_material run.1
     = inr (JDict [("title", JStr "Core components");
                   ("content", JStr "## Overview")])
  /\ res_map coding_tasks run.1
     = inr (JList [JDict [("id", JStr "task-1"); ("week", JInt 2)]])
  /\ res_map quiz run.1
     = inr (JList [JDict [("id", JStr "q1"); ("week", JInt 2)]]).
Proof.
  set (run := get_weekly_content steady no_prompts 7 2 (fresh drifted)).
  destruct (copy_before_on_demand steady no_prompts 7 2 (fresh drifted)
              run.2 run.1 (surjective_pairing run)) as (new & Hc & _ & Hcopy).
  destruct (learning_plans drifted) as [|lp [|]] eqn:Elp;
    try (vm_compute in Elp; discriminate).
  destruct (master_plans drifted) as [|m [|]] eqn:Em;
    try (vm_compute in Em; discriminate).
  destruct (Hcopy lp m
              [varied_week 1 "Foundations"; varied_week 2 "Core components"]
              (varied_week 2 "Core components")) as [Hall _].
  - cbn [db fresh]. rewrite Elp. split; [left|]. split.
    + vm_compute in Elp. now injection Elp as <-.
    + intros y [->|[]%elem_of_nil]%elem_of_cons _. now left.
  - intros row Hrow _ Hw. exfalso.
    assert (Forall (fun row => wc_week_number row <> 2)
              (weekly_content (db (fresh drifted)))) as HF
      by (vm_compute; repeat constructor; discriminate).
    rewrite Forall_forall in HF. exact (HF row Hrow Hw).
  - cbn [db fresh]. rewrite Em. split; [left|]. split.
    + vm_compute in Em, Elp. injection Em as <-. now injection Elp as <-.
    + intros y [->|[]%elem_of_nil]%elem_of_cons _. now left.
  - vm_compute in Em. now injection Em as <-.
  - exists [varied_week 1 "Foundations"], [], (JInt 2).
    split; [reflexivity|]. split; [reflexivity|]. split; [now left|].
    constructor; [|constructor]. exists (JInt 1). split; [reflexivity|].
    intros [[=]|[[[=] _]|[[=] _]]].
  - split; [rewrite Hc; exact Hall|]. vm_compute. repeat split; reflexivity.
Defined.

(* ------------------------------------------------------------------ *)
(** ** Plan creation: what is copied from the master plan                *)
(* ------------------------------------------------------------------ *)

Lemma assoc_set_other (k k' : string) (v : json) (kv : list (string * json)) :
  k' <> k -> assoc k' (assoc_set k v kv) = assoc k' kv.
Proof.
  intros Hne. induction kv as [|[k0 v0] kv IH]; cbn [assoc_set assoc].
  - destruct (String.eqb_spec k' k); [contradiction|reflexivity].
  - destruct (String.eqb_spec k k0) as [->|Hk]; cbn [assoc].
    + destruct (String.eqb_spec k' k0); [contradiction|reflexivity].
    + rewrite IH. reflexivity.
Qed.

Lemma set_item_other (d d' : json) (k k' : string) (v : json) :
  set_item d k v = inr d' -> k' <> k ->
  subscript d' k' = subscript d k' /\ forall dflt, get d' k' dflt = get d k' dflt.
Proof.
  destruct d; try discriminate. intros [= <-] Hne. cbn [subscript get].
  rewrite assoc_set_other by exact Hne. split; reflexivity.
Qed.

Lemma personalize_week_kept (adjs : list (json * json)) (week week' : json) (k : string) :
  personalize_week adjs week = inr week' -> kept k ->
  subscript week' k = subscript week k /\ forall dflt, get week' k dflt = get week k dflt.
Proof.
  unfold personalize_week. intros H (H1 & H2 & H3).
  destruct (subscript week "week_number") as [e|n]; [discriminate|]. cbn [res_bind] in H.
  destruct (hashable n); [|discriminate].
  destruct (find_adjustment n adjs) as [adj|]; [|injection H as <-; now split].
  destruct (get adj "difficulty" _) as [e|d]; [discriminate|]. cbn [res_bind] in H.
  destruct (set_item week "difficulty" d) as [e|w1] eqn:E1; [discriminate|].
  cbn [res_bind] in H.
  destruct (get adj "emphasis" _) as [e|em]; [discriminate|]. cbn [res_bind] in H.
  destruct (set_item w1 "emphasis" em) as [e|w2] eqn:E2; [discriminate|].
  cbn [res_bind] in H.
  destruct (get adj "additional_focus" _) as [e|af]; [discriminate|]. cbn [res_bind] in H.
  destruct (set_item_other _ _ _ k _ E1 H1) as [Ha Ha'].
  destruct (set_item_other _ _ _ k _ E2 H2) as [Hb Hb'].
  destruct (set_item_other _ _ _ k _ H H3) as [Hc Hc'].
  split; [congruence|]. intros dflt. rewrite Hc', Hb', Ha'. reflexivity.
Qed.

Lemma kept_week_number : kept "week_number".
Proof. repeat split; discriminate. Qed.
Lemma kept_reading_material : kept "reading_material".
Proof. repeat split; discriminate. Qed.
Lemma kept_coding_tasks : kept "coding_tasks".
Proof. repeat split; discriminate. Qed.
Lemma kept_quiz : kept "quiz".
Proof. repeat split; discriminate. Qed.

Lemma personalize_weeks_content (adjs : list (json * json)) (weeks weeks' : list json) :
  personalize_weeks adjs weeks = inr weeks' ->
  content_rows weeks' = content_rows weeks.
Proof.
  revert weeks'. induction weeks as [|week rest IH]; intros weeks'; cbn [personalize_weeks].
  - now intros [= <-].
  - destruct (personalize_week adjs week) as [e|w] eqn:E; [discriminate|].
    cbn [res_bind]. destruct (personalize_weeks adjs rest) as [e|more]; [discriminate|].
    cbn [res_bind]. intros [= <-]. cbn [content_rows].
    rewrite (IH more eq_refl).
    rewrite (proj1 (personalize_week_kept _ _ _ _ E kept_week_number)).
    rewrite (proj2 (personalize_week_kept _ _ _ _ E kept_reading_material)).
    rewrite (proj2 (personalize_week_kept _ _ _ _ E kept_coding_tasks)).
    rewrite (proj2 (personalize_week_kept _ _ _ _ E kept_quiz)).
    reflexivity.
Qed.

Lemma subscript_field (d : json) (k : string) (dflt v : json) :
  subscript d k = inr v -> v = field d k dflt.
Proof.
  unfold field, subscript, get. destruct d as [| | | | |kv]; try discriminate.
  destruct (assoc k kv); [|discriminate]. now intros [= ->].
Qed.



Lemma request_inv {A} (c : Call) (answer : nat -> res A) (w w' : World) (r : res A) :
  request c answer w = (r, w') -> db w' = db w.
Proof. unfold request. now intros [= _ <-]. Qed.

(** A personalized plan has the weeks of the master plan, each with the
    content it had. *)
Lemma personalize_plan_inv (g : Grok) (master_plan resume_analysis p : json)
    (w w' : World) :
  personalize_plan g master_plan resume_analysis w = (inr p, w') ->
  db w' = db w
  /\ exists wk weeks weeks' overview recommendations,
       get master_plan "weeks" (JList []) = inr wk
       /\ iterate wk = inr weeks
       /\ content_rows weeks' = content_rows weeks
       /\ p = JDict [("overview", overview);
                     ("recommendations", recommendations);
                     ("weeks", JList weeks')].
Proof.
  unfold personalize_plan. intros H.
  apply bind_inv in H as [(e & _ & [=])|(? & w1 & [_ ->]%lift_inv & H)].
  apply bind_inv in H as [(e & _ & [=])|(wk & w1 & [Hwk ->]%lift_inv & H)].
  apply bind_inv in H as [(e & _ & [=])|(weeks & w1 & [Hweeks ->]%lift_inv & H)].
  apply bind_inv in H as [(e & _ & [=])|(? & w1 & [_ ->]%lift_inv & H)].
  apply bind_inv in H as [(e & _ & [=])|(? & w1 & [_ ->]%lift_inv & H)].
  apply bind_inv in H as [(e & _ & [=])|(pers & w1 & Hreq%request_inv & H)].
  apply bind_inv in H as [(e & _ & [=])|(? & w2 & [_ ->]%lift_inv & H)].
  apply bind_inv in H as [(e & _ & [=])|(? & w2 & [_ ->]%lift_inv & H)].
  apply bind_inv in H as [(e & _ & [=])|(adjs & w2 & [_ ->]%lift_inv & H)].
  apply bind_inv in H as [(e & _ & [=])|(weeks' & w2 & [Hp ->]%lift_inv & H)].
  apply bind_inv in H as [(e & _ & [=])|(? & w2 & [_ ->]%lift_inv & H)].
  apply bind_inv in H as [(e & _ & [=])|(overview & w2 & [_ ->]%lift_inv & H)].
  apply bind_inv in H as [(e & _ & [=])|(recs & w2 & [_ ->]%lift_inv & H)].
  injection H as <- <-. split; [exact Hreq|].
  exists wk, weeks, weeks', overview, recs.
  repeat split; auto. symmetry in Hp. now apply personalize_weeks_content in Hp.
Qed.




Lemma find_candidate_id (d : DB) (candidate_id : Z) (c : Candidate) :
  find_candidate d candidate_id = inr (Some c) -> cand_id c = candidate_id.
Proof.
  unfold find_candidate, scalar_one_or_none. intros H.
  destruct (filter _ (candidates d)) as [|x [|y l]] eqn:E; try discriminate.
  injection H as ->.
  assert (c ∈ filter (fun c => cand_id c = candidate_id) (candidates d)) as Hin
    by (rewrite E; apply list_elem_of_singleton; reflexivity).
  now apply list_elem_of_filter in Hin as [Hin _].
Qed.


(* ------------------------------------------------------------------ *)
(** ** Weekly content and later master plans                            *)
(* ------------------------------------------------------------------ *)









(** The request for a week that is materialized. *)
Lemma get_weekly_content_materialized (g : Grok) (prompts : string -> option string)
    (candidate_id week_number : Z) (w : World) (lp : LearningPlan)
    (row : WeeklyContent) :
  latest_learning_plan (db w) candidate_id = Some lp ->
  scalar_one_or_none (find_weekly_content (db w) (lp_id lp) week_number)
    = inr (Some row) ->
  materialized (Some row) = Some row ->
  get_weekly_content g prompts candidate_id week_number w =
    match find_candidate (db w) candidate_id with
    | inl e => (inl e, w)
    | inr cand =>
        (match usable (expectation_of prompts cand) with
         | Some ctx => backfill g ctx row
         | None => ret row
         end) w
    end.
Proof.
  intros Hlp Hex Hmat. unfold get_weekly_content, bind at 1, get_db.
  rewrite Hlp, Hex. unfold bind at 1, lift at 1. unfold bind at 1, lift at 1.
  destruct (find_candidate (db w) candidate_id) as [e|cand]; [reflexivity|].
  rewrite Hmat. reflexivity.
Qed.





(* ------------------------------------------------------------------ *)
(** ** file_service and the file endpoints: listings and statuses       *)
(* ------------------------------------------------------------------ *)


Lemma ascii_compare_trans (c : comparison) (a b d : ascii) :
  Ascii.compare a b = c -> Ascii.compare b d = c -> Ascii.compare a d = c.
Proof.
  unfold Ascii.compare. destruct c; intros H1 H2.
  - apply N.compare_eq_iff in H1, H2. apply N.compare_eq_iff. congruence.
  - apply N.compare_lt_iff in H1. apply N.compare_lt_iff in H2.
    apply N.compare_lt_iff. now apply (N.lt_trans _ _ _ H1).
  - apply N.compare_gt_iff in H1. apply N.compare_gt_iff in H2.
    apply N.compare_gt_iff. now apply (N.lt_trans _ _ _ H2).
Qed.

Lemma string_compare_gt_trans (s1 s2 s3 : string) :
  String.compare s1 s2 <> Gt -> String.compare s2 s3 <> Gt ->
  String.compare s1 s3 <> Gt.
Proof.
  revert s2 s3. induction s1 as [|a s1 IH]; intros [|b s2] [|d s3]; cbn;
    try congruence.
  destruct (Ascii.compare a b) eqn:Hab; try congruence;
    destruct (Ascii.compare b d) eqn:Hbd; try congruence.
  - apply Ascii.compare_eq_iff in Hab, Hbd. subst.
    assert (Ascii.compare d d = Eq) as -> by apply N.compare_refl.
    apply IH.
  - apply Ascii.compare_eq_iff in Hab. subst. now rewrite Hbd.
  - apply Ascii.compare_eq_iff in Hbd. subst. now rewrite Hab.
  - now rewrite (ascii_compare_trans Lt a b d Hab Hbd).
Qed.

Lemma string_leb_trans (s1 s2 s3 : string) :
  String.leb s1 s2 = true -> String.leb s2 s3 = true -> String.leb s1 s3 = true.
Proof.
  unfold String.leb. intros H1 H2.
  pose proof (string_compare_gt_trans s1 s2 s3) as H.
  destruct (String.compare s1 s2); try discriminate;
    destruct (String.compare s2 s3); try discriminate;
    destruct (String.compare s1 s3); try reflexivity; exfalso; apply H; congruence.
Qed.

Lemma entry_le_total (a b : string * node) :
  entry_le a b = true \/ entry_le b a = true.
Proof.
  unfold entry_le. destruct (is_dir a.2), (is_dir b.2); auto;
    apply String.leb_total.
Qed.

Lemma entry_le_trans (a b c : string * node) :
  entry_le a b = true -> entry_le b c = true -> entry_le a c = true.
Proof.
  unfold entry_le. destruct (is_dir a.2), (is_dir b.2), (is_dir c.2);
    try discriminate; try reflexivity; apply string_leb_trans.
Qed.

Lemma insert_entry_perm (x : string * node) (l : list (string * node)) :
  insert_entry x l ≡ₚ x :: l.
Proof.
  induction l as [|y l IH]; cbn [insert_entry]; [done|].
  destruct (entry_le y x); [|done]. rewrite IH. apply Permutation_swap.
Qed.

Lemma insert_entry_sorted (x : string * node) (l : list (string * node)) :
  StronglySorted (fun a b => entry_le a b = true) l ->
  StronglySorted (fun a b => entry_le a b = true) (insert_entry x l).
Proof.
  induction 1 as [|y l Hl IH Hy]; cbn [insert_entry].
  - repeat constructor.
  - destruct (entry_le y x) eqn:Hyx.
    + constructor; [exact IH|].
      rewrite insert_entry_perm. constructor; [exact Hyx | exact Hy].
    + assert (entry_le x y = true) as Hxy
        by (destruct (entry_le_total x y); congruence).
      constructor; [now constructor|]. constructor; [exact Hxy|].
      eapply Forall_impl; [exact Hy|]. intros z Hz. now apply (entry_le_trans x y z).
Qed.

Lemma foldl_insert_entry (l acc : list (string * node)) :
  StronglySorted (fun a b => entry_le a b = true) acc ->
  StronglySorted (fun a b => entry_le a b = true)
    (foldl (fun acc x => insert_entry x acc) acc l)
  /\ foldl (fun acc x => insert_entry x acc) acc l ≡ₚ acc ++ l.
Proof.
  revert acc. induction l as [|x l IH]; intros acc Hacc; cbn [foldl].
  - split; [exact Hacc | now rewrite app_nil_r].
  - destruct (IH (insert_entry x acc) (insert_entry_sorted x acc Hacc)) as [Hs Hp].
    split; [exact Hs|]. rewrite Hp, insert_entry_perm. cbn [app].
    apply Permutation_middle.
Qed.

Lemma sorted_entries_spec (l : list (string * node)) :
  StronglySorted (fun a b => entry_le a b = true) (sorted_entries l)
  /\ sorted_entries l ≡ₚ l.
Proof. apply (foldl_insert_entry l []). constructor. Qed.

Lemma item_le_entry (subdir : string) (a b : string * node) :
  item_le (file_item subdir a) (file_item subdir b) = entry_le a b.
Proof.
  unfold item_le, entry_le, file_item. cbn [item_type item_name].
  destruct (is_dir a.2), (is_dir b.2); reflexivity.
Qed.

Lemma StronglySorted_filter {A} (R : A -> A -> Prop) (P : A -> Prop)
    `{forall x, Decision (P x)} (l : list A) :
  StronglySorted R l -> StronglySorted R (filter P l).
Proof.
  induction 1 as [|x l Hl IH Hx]; [constructor|].
  rewrite filter_cons. destruct (decide (P x)); [|exact IH].
  constructor; [exact IH|]. apply Forall_forall. intros y [_ Hy]%list_elem_of_filter.
  revert y Hy. now apply Forall_forall.
Qed.

Lemma StronglySorted_map {A B} (R : A -> A -> Prop) (S : B -> B -> Prop)
    (f : A -> B) (l : list A) :
  (forall a b, R a b -> S (f a) (f b)) ->
  StronglySorted R l -> StronglySorted S (map f l).
Proof.
  intros Hf. induction 1 as [|x l Hl IH Hx]; cbn [map]; constructor; [exact IH|].
  apply Forall_map. eapply Forall_impl; [exact Hx|]. intros y. apply Hf.
Qed.

Lemma visible_names (l : list (string * node)) :
  map fst (filter (fun e => startswith ".git" e.1 = false) l)
  = filter (fun n => hidden n = false) (map fst l).
Proof.
  induction l as [|[n x] l IH]; [reflexivity|].
  cbn [map fst]. rewrite !filter_cons. unfold hidden at 1. cbn [fst].
  destruct (decide (startswith ".git" n = false)); cbn [map fst]; now rewrite IH.
Qed.

(** X1.  [list_files] on a directory of the repository lists every entry
    whose name does not start with .git, each once, and no other; the
    listing is sorted, directories before files and then by the name in
    lower case. *)
Theorem list_files_sorted_visible (self : FileService) (fs : filesystem)
    (codebase_id subdir : string) (items : list FileItem)
    (loc : list string) (es : list (string * node)) :
  list_files self fs codebase_id subdir = inr items ->
  resolve fs (path_join (_get_repo_path self codebase_id) subdir)
    = Some (loc, Dir es) ->
  map item_name items ≡ₚ filter (fun n => hidden n = false) (map fst es)
  /\ StronglySorted (fun a b => item_le a b = true) items.
Proof.
  unfold list_files. intros H Hres.
  destruct (relative_to _ _); [discriminate|]. rewrite Hres in H.
  assert (items = map (file_item subdir)
                    (filter (fun e => startswith ".git" e.1 = false)
                       (sorted_entries es))) as -> by congruence.
  clear H. destruct (sorted_entries_spec es) as [Hs Hp].
  split.
  - rewrite map_map. rewrite (map_ext _ fst) by reflexivity.
    rewrite visible_names.
    now rewrite Hp.
  - apply (StronglySorted_map (fun a b => entry_le a b = true));
      [intros a b; now rewrite item_le_entry|].
    now apply StronglySorted_filter.
Qed.

Lemma list_files_sorted_visible_example :
  exists items loc es,
    list_files file_service checkout "rocksdb" "" = inr items
    /\ resolve checkout (path_join (_get_repo_path file_service "rocksdb") "")
       = Some (loc, Dir es)
    /\ map item_name items
       = ["CMake"; "db"; "build.sh"; "Makefile"; "README.md"; ecole; etude]
    /\ map item_name items ≡ₚ filter (fun n => hidden n = false) (map fst es)
    /\ StronglySorted (fun a b => item_le a b = true) items.
Proof.
  eexists _, _, _. split; [vm_compute; reflexivity|]. split; [vm_compute; reflexivity|].
  split; [reflexivity|].
  eapply (list_files_sorted_visible file_service checkout "rocksdb" "");
    vm_compute; reflexivity.
Defined.





(** X3.  The endpoint [get_file_content] never answers 404: the 404 it
    raises for a missing file is raised inside its own [try], so a
    missing file is answered with 500 and the text of that exception. *)
Theorem missing_file_is_server_error (http_text : Z -> string -> string)
    (fs : filesystem) (codebase_id path : string) :
  let r := Routes.get_file_content http_text fs codebase_id path in
  status_of r <> Some 404
  /\ (get_file_content file_service fs codebase_id path = inr None ->
      r = inl (HTTPException 500 (http_text 404 "File not found"))).
Proof.
  cbv zeta. unfold Routes.get_file_content.
  destruct (get_file_content file_service fs codebase_id path) as [e|[content|]];
    cbn [res_bind file_errors str_exc].
  - split; [|discriminate]. destruct e; cbn; discriminate.
  - split; [|discriminate]. cbn. discriminate.
  - split; [cbn; discriminate | reflexivity].
Qed.

(* ------------------------------------------------------------------ *)
(** ** Progress: the rows the handlers build                            *)
(* ------------------------------------------------------------------ *)


Lemma update_progress_lookup (c : Z) (p : ProgressUpdate) (t t' : progress_table)
    (msg : string) (k : Z * Z) :
  update_progress c p t = inr (t', msg) -> k <> (c, pu_week_number p) ->
  t' !! k = t !! k.
Proof.
  intros (r' & -> & _)%update_progress_row Hk. now rewrite lookup_insert_ne.
Qed.

Lemma mark_chapter_lookup (c w ch : Z) (t : progress_table) (k : Z * Z) :
  k <> (c, w) -> (mark_chapter_complete c w ch t).1 !! k = t !! k.
Proof.
  intros Hk. unfold mark_chapter_complete.
  destruct (t !! (c, w)) as [r|]; [destruct (reading_completed r)|];
    cbn [fst reading_completed]; now rewrite lookup_insert_ne.
Qed.

(** X4.  [update_progress] and [mark_chapter_complete] change the row
    of their own (candidate, week) alone: every other row of the progress
    table is as it was. *)
Theorem progress_op_frame (t : progress_table) (o : progress_op) (k : Z * Z) :
  k <> op_key o -> apply_op t o !! k = t !! k.
Proof.
  destruct o as [c p|c w ch]; cbn [apply_op op_key]; intros Hk.
  - destruct (update_progress c p t) as [e|[t' msg]] eqn:Hu; [done|].
    now apply (update_progress_lookup _ _ _ _ _ _ Hu).
  - now apply mark_chapter_lookup.
Qed.

Lemma progress_op_frame_example :
  (1, 1) <> op_key (OpMark 1 2 5)
  /\ apply_op (run_ops two_chapters ∅) (OpMark 1 2 5) !! (1, 1)
     = run_ops two_chapters ∅ !! (1, 1).
Proof.
  assert ((1, 1) <> op_key (OpMark 1 2 5)) as H by (cbn; congruence).
  split; [exact H | apply (progress_op_frame _ _ _ H)].
Defined.

Lemma insert_ok (t : progress_table) (k : Z * Z) (r : Progress) :
  table_ok t -> row_ok r -> table_ok (<[k := r]> t).
Proof.
  intros Ht Hr k' r'. destruct (decide (k = k')) as [<-|Hne].
  - rewrite lookup_insert_eq. now intros [= <-].
  - rewrite lookup_insert_ne by done. apply Ht.
Qed.

Lemma update_progress_inv (c : Z) (p : ProgressUpdate) (t t' : progress_table)
    (msg : string) :
  update_progress c p t = inr (t', msg) ->
  let is_new := bool_decide (t !! (c, pu_week_number p) = None) in
  let r := default new_progress (t !! (c, pu_week_number p)) in
  exists tasks,
    new_tasks is_new p (tasks_completed r) = inr tasks
    /\ t' = <[(c, pu_week_number p) :=
              flush is_new
                {| reading_completed := new_reading p (reading_completed r);
                   tasks_completed := tasks;
                   quiz_score :=
                     match pu_quiz_answers p with
                     | Some a => Some (Z.of_nat (length a))
                     | None => quiz_score r
                     end;
                   quiz_answers :=
                     match pu_quiz_answers p with
                     | Some a => Some a
                     | None => quiz_answers r
                     end |}]> t.
Proof.
  unfold update_progress, new_tasks, new_reading. cbv zeta.
  destruct (t !! (c, pu_week_number p)) as [r|] eqn:Hr; cbn [default bool_decide];
    [rewrite bool_decide_eq_false_2 by done | rewrite bool_decide_eq_true_2 by done];
    (destruct (pu_task_id p) as [task_id|];
     [destruct (add_task task_id _) as [e|tasks]; [discriminate|] |]);
    cbn [res_bind]; destruct (pu_quiz_answers p); intros [= <- _];
    eexists; (split; [reflexivity|]); reflexivity.
Qed.

Lemma new_reading_ok (p : ProgressUpdate) (old : json) :
  ((exists l, old = JList l /\ NoDup l /\ Forall is_int l)
   \/ old = JInt 0 \/ old = JInt 1 \/ old = JNull) ->
  (exists l, or_default (new_reading p old) = JList l /\ NoDup l /\ Forall is_int l)
  \/ or_default (new_reading p old) = JInt 0
  \/ or_default (new_reading p old) = JInt 1.
Proof.
  unfold new_reading. intros H.
  destruct (pu_reading_completed p) as [b|].
  - destruct H as [(l & -> & _)|[-> |[-> | ->]]]; destruct b; cbn; auto.
  - destruct H as [(l & -> & Hn & Hi)|[-> |[-> | ->]]]; cbn; eauto.
    left. exists []. repeat split; constructor.
Qed.

Lemma existsb_eq_str (task_id : string) (l : list json) :
  Forall is_str l -> existsb (eq_str task_id) l = true <-> JStr task_id ∈ l.
Proof.
  induction 1 as [|x l [s ->] Hl IH]; cbn [existsb].
  - split; [discriminate | by intros ?%elem_of_nil].
  - rewrite orb_true_iff, IH, elem_of_cons. cbn [eq_str].
    rewrite String.eqb_eq. split; (intros [H|H]; [left | now right]); congruence.
Qed.

Lemma add_task_list_ok (task_id : string) (l : list json) (tasks : json) :
  NoDup l -> Forall is_str l -> add_task task_id (JList l) = inr tasks ->
  exists l', tasks = JList l' /\ NoDup l' /\ Forall is_str l'.
Proof.
  intros Hn Hs. unfold add_task.
  assert (forall l0, NoDup l0 -> Forall is_str l0 ->
            (if existsb (eq_str task_id) l0 then inr (JList l0)
             else inr (B := json) (A := exn) (JList (l0 ++ [JStr task_id]))) = inr tasks ->
            exists l', tasks = JList l' /\ NoDup l' /\ Forall is_str l') as Hgen.
  { intros l0 Hn0 Hs0. destruct (existsb _ l0) eqn:He; intros [= <-]; [eauto|].
    eexists. split; [reflexivity|]. split.
    - apply NoDup_app. split; [exact Hn0|]. split; [|apply NoDup_singleton].
      intros y Hy ->%list_elem_of_singleton.
      apply (existsb_eq_str task_id l0 Hs0) in Hy. congruence.
    - apply Forall_app. split; [exact Hs0|]. repeat constructor. now exists task_id. }
  destruct (truthy (JList l)); [now apply Hgen|].
  apply (Hgen []); constructor.
Qed.

Lemma committed_ok (P : json -> Prop) (is_new in_place : bool) (loaded current : json) :
  P loaded -> P current -> P (committed is_new in_place loaded current).
Proof. unfold committed. now destruct is_new, in_place. Qed.

Lemma new_tasks_ok (is_new : bool) (p : ProgressUpdate) (old tasks : json) :
  ((exists l, old = JList l /\ NoDup l /\ Forall is_str l)
   \/ (old = JNull /\ is_new = true)) ->
  new_tasks is_new p old = inr tasks ->
  exists l, or_default tasks = JList l /\ NoDup l /\ Forall is_str l.
Proof.
  unfold new_tasks. intros H.
  destruct (pu_task_id p) as [task_id|].
  - destruct H as [(l & -> & Hn & Hs)|[-> ->]].
    + destruct (add_task task_id (JList l)) as [e|tasks0] eqn:Ha; [discriminate|].
      cbn [res_bind]. intros [= <-].
      destruct (add_task_list_ok _ _ _ Hn Hs Ha) as (l' & -> & Hn' & Hs').
      apply (committed_ok
               (fun v => exists l0, or_default v = JList l0 /\ NoDup l0
                                    /\ Forall is_str l0)); cbn; eauto.
    + cbn. intros [= <-]. cbn. eexists. split; [reflexivity|]. split.
      * apply NoDup_singleton.
      * repeat constructor. now exists task_id.
  - intros [= <-]. destruct H as [(l & -> & Hn & Hs)|[-> _]]; cbn; eauto.
    exists []. repeat split; constructor.
Qed.

Lemma new_tasks_list (p : ProgressUpdate) (l : list json) (tasks : json) :
  NoDup l -> Forall is_str l ->
  new_tasks false p (JList l) = inr tasks ->
  exists l', tasks = JList l' /\ NoDup l' /\ Forall is_str l'.
Proof.
  intros Hn Hs. unfold new_tasks. destruct (pu_task_id p) as [task_id|].
  - destruct (add_task task_id (JList l)) as [e|tasks0] eqn:Ha; [discriminate|].
    cbn [res_bind]. intros [= <-].
    destruct (add_task_list_ok _ _ _ Hn Hs Ha) as (l' & -> & Hn' & Hs').
    destruct l; eauto.
  - intros [= <-]. eauto.
Qed.

Lemma new_reading_kept (p : ProgressUpdate) (old : json) :
  ((exists l, old = JList l /\ NoDup l /\ Forall is_int l)
   \/ old = JInt 0 \/ old = JInt 1) ->
  (exists l, new_reading p old = JList l /\ NoDup l /\ Forall is_int l)
  \/ new_reading p old = JInt 0 \/ new_reading p old = JInt 1.
Proof.
  unfold new_reading. intros H. destruct (pu_reading_completed p) as [b|]; [|exact H].
  destruct H as [(l & -> & _)|[-> | ->]]; destruct b; cbn; auto.
Qed.

Lemma update_progress_ok (c : Z) (p : ProgressUpdate) (t t' : progress_table)
    (msg : string) :
  table_ok t -> update_progress c p t = inr (t', msg) -> table_ok t'.
Proof.
  intros Ht (tasks & Htasks & ->)%update_progress_inv.
  apply insert_ok; [exact Ht|]. revert Htasks.
  destruct (t !! (c, pu_week_number p)) as [r|] eqn:Hr;
    cbn [default from_option id].
  - rewrite bool_decide_eq_false_2 by done. cbn [flush].
    destruct (Ht _ _ Hr) as ((l & Hl & Hn & Hs) & Hread & Hquiz).
    rewrite Hl. intros Htasks. split; [|split].
    + exact (new_tasks_list _ _ _ Hn Hs Htasks).
    + now apply new_reading_kept.
    + cbn [quiz_score quiz_answers]. now destruct (pu_quiz_answers p).
  - rewrite bool_decide_eq_true_2 by done. cbn [flush]. intros Htasks.
    split; [|split].
    + cbn [tasks_completed]. apply (new_tasks_ok true p JNull); auto.
    + cbn [reading_completed]. apply new_reading_ok. auto.
    + cbn [quiz_score quiz_answers]. now destruct (pu_quiz_answers p).
Qed.

Lemma mark_chapter_ok (c w ch : Z) (t : progress_table) :
  table_ok t -> table_ok (mark_chapter_complete c w ch t).1.
Proof.
  intros Ht. unfold mark_chapter_complete.
  assert (NoDup [JInt ch] /\ Forall is_int [JInt ch]) as [Hn1 Hi1]
    by (split; [apply NoDup_singleton | repeat constructor; now exists ch]).
  destruct (t !! (c, w)) as [r|] eqn:Hr.
  - destruct (Ht _ _ Hr) as (Htasks & Hread & Hquiz).
    destruct Hread as [(l & Hl & Hn & Hi)|[Hl|Hl]]; rewrite Hl;
      cbn [fst committed flush existsb app]; apply insert_ok; try exact Ht;
      (split; [exact Htasks|]); (split; [|exact Hquiz]);
      cbn [reading_completed]; eauto.
  - cbn [fst committed flush reading_completed tasks_completed existsb app
         or_default quiz_score quiz_answers].
    apply insert_ok; [exact Ht|]. split; [|split]; cbn; eauto.
    exists []. repeat split; constructor.
Qed.

Lemma table_ok_empty : table_ok ∅.
Proof. intros k r. now rewrite lookup_empty. Qed.

Lemma reachable_table_ok (t : progress_table) :
  reachable t -> table_ok t.
Proof.
  induction 1 as [|t o _ IH]; [apply table_ok_empty|].
  destruct o as [c p|c w ch]; cbn [apply_op].
  - destruct (update_progress c p t) as [e|[t' msg]] eqn:Hu; [exact IH|].
    exact (update_progress_ok _ _ _ _ _ IH Hu).
  - now apply mark_chapter_ok.
Qed.

(** X5.  In every progress table the two handlers can build from the
    empty one, each row holds its tasks as a list of strings without
    repetition, its chapters as a list of ints without repetition or the
    flag 0 or 1, and a quiz score that is the number of stored answers. *)
Theorem reachable_rows_well_formed (t : progress_table) (k : Z * Z) (r : Progress) :
  reachable t -> t !! k = Some r -> row_ok r.
Proof. intros Hreach. now apply reachable_table_ok. Qed.

Lemma reachable_run_ops (ops : list progress_op) (t : progress_table) :
  reachable t -> reachable (run_ops ops t).
Proof.
  unfold run_ops. revert t. induction ops as [|o ops IH]; intros t Ht; cbn [foldl].
  - exact Ht.
  - apply IH. now constructor.
Qed.

Lemma reachable_rows_well_formed_example :
  exists r, run_ops two_chapters ∅ !! (1, 1) = Some r /\ row_ok r.
Proof.
  eexists. split; [vm_compute; reflexivity|].
  apply (reachable_rows_well_formed (run_ops two_chapters ∅) (1, 1)).
  - apply reachable_run_ops, reach_empty.
  - vm_compute. reflexivity.
Defined.

Lemma add_task_list_succeeds (task_id : string) (l : list json) :
  exists tasks, add_task task_id (JList l) = inr tasks.
Proof.
  unfold add_task. destruct (truthy (JList l)).
  - destruct (existsb (eq_str task_id) l); eauto.
  - cbn. eauto.
Qed.

(** X6.  On every progress table the two handlers can build from the
    empty one, [update_progress] does not raise, whatever the update. *)
Theorem update_progress_succeeds (t : progress_table) (candidate_id : Z)
    (progress : ProgressUpdate) :
  reachable t ->
  exists t', update_progress candidate_id progress t
             = inr (t', "Progress updated successfully").
Proof.
  intros Hreach. unfold update_progress.
  set (key := (candidate_id, pu_week_number progress)).
  destruct (t !! key) as [r|] eqn:Hr.
  - destruct (reachable_table_ok t Hreach _ _ Hr)
      as ((l & -> & _) & _).
    destruct (pu_task_id progress) as [task_id|].
    + destruct (add_task_list_succeeds task_id l) as [tasks ->]. cbn [res_bind].
      destruct (pu_quiz_answers progress); eauto.
    + cbn [res_bind]. destruct (pu_quiz_answers progress); eauto.
  - destruct (pu_task_id progress) as [task_id|]; cbn [res_bind];
      destruct (pu_quiz_answers progress); eauto.
Qed.

Lemma update_progress_succeeds_example :
  reachable (run_ops two_chapters ∅)
  /\ exists t',
       update_progress 1
         {| pu_week_number := 1; pu_reading_completed := None;
            pu_task_id := Some "task-2"; pu_quiz_answers := Some [0; 3] |}
         (run_ops two_chapters ∅)
       = inr (t', "Progress updated successfully").
Proof.
  assert (reachable (run_ops two_chapters ∅)) as H
    by apply reachable_run_ops, reach_empty.
  split; [exact H | now apply update_progress_succeeds].
Defined.

Lemma new_reading_flag (p : ProgressUpdate) (old : json) (b : bool) :
  pu_reading_completed p = Some b ->
  (forall l, new_reading p old <> JList l) /\ new_reading p old <> JNull.
Proof.
  unfold new_reading. intros ->. cbv zeta.
  destruct old as [|x|n|s|l|kv]; cbn [eq_int]; try (split; [intros l0|]; discriminate).
  - destruct (_ =? _); split; try intros l0; discriminate.
  - destruct (_ =? _); split; try intros l0; discriminate.
Qed.

Lemma flush_reading_kept (is_new : bool) (r : Progress) :
  reading_completed r <> JNull ->
  reading_completed (flush is_new r) = reading_completed r.
Proof.
  intros H. destruct is_new; [|reflexivity]. cbn [flush reading_completed].
  now destruct (reading_completed r).
Qed.

Lemma update_progress_row_lookup (c : Z) (p : ProgressUpdate) (t t' : progress_table)
    (msg : string) :
  update_progress c p t = inr (t', msg) ->
  exists r',
    t' !! (c, pu_week_number p) = Some r'
    /\ (forall a, pu_quiz_answers p = Some a ->
                  quiz_score r' = Some (Z.of_nat (length a)))
    /\ (forall b, pu_reading_completed p = Some b -> completed_chapters r' = 0).
Proof.
  intros (tasks & _ & ->)%update_progress_inv. rewrite lookup_insert_eq.
  eexists. split; [reflexivity|].
  assert (forall b r, quiz_score (flush b r) = quiz_score r) as Hq by (now intros []).
  rewrite Hq. cbn [quiz_score]. split.
  - now intros a ->.
  - intros b Hb. unfold completed_chapters.
    destruct (new_reading_flag p
                (reading_completed (default new_progress (t !! (c, pu_week_number p))))
                b Hb) as [Hl Hn].
    rewrite flush_reading_kept by exact Hn. cbn [reading_completed].
    destruct (new_reading p _) eqn:E; try reflexivity. now destruct (Hl l).
Qed.

(** X7.  After an update that carries quiz answers, the quiz score that
    [get_week_progress] reads for the week is the number of the answers;
    no answer is compared with a correct one. *)
Theorem quiz_score_counts_answers (candidate_id : Z) (progress : ProgressUpdate)
    (t t' : progress_table) (msg : string) (answers : list Z) :
  update_progress candidate_id progress t = inr (t', msg) ->
  pu_quiz_answers progress = Some answers ->
  (get_week_progress candidate_id (pu_week_number progress) t').2
  = Some (Z.of_nat (length answers)).
Proof.
  intros (r' & Hr' & Hq & _)%update_progress_row_lookup Ha.
  unfold get_week_progress. rewrite Hr'. cbn [snd]. now apply Hq.
Qed.

Lemma quiz_score_counts_answers_example :
  let submit := {| pu_week_number := 1; pu_reading_completed := None;
                   pu_task_id := None; pu_quiz_answers := Some [3; 3; 3; 3] |} in
  exists t', update_progress 7 submit ∅ = inr (t', "Progress updated successfully")
             /\ pu_quiz_answers submit = Some [3; 3; 3; 3]
             /\ (get_week_progress 7 1 t').2 = Some 4.
Proof.
  intros submit. eexists. split; [vm_compute; reflexivity|].
  split; [reflexivity|].
  refine (quiz_score_counts_answers 7 submit ∅ _ "Progress updated successfully"
            [3; 3; 3; 3] _ _); reflexivity.
Defined.

(* ------------------------------------------------------------------ *)
(** ** The week percent: bounds, the two scripts, monotonicity          *)
(* ------------------------------------------------------------------ *)







Lemma len_nonneg (v : json) (n : Z) : len v = inr n -> 0 <= n.
Proof. destruct v; try discriminate; cbn; intros [= <-]; lia. Qed.


(** The three parts of a week percent. *)
Lemma week_percent_parts (content : WeeklyContent) (progress : Progress) (q : Q) :
  week_percent content progress = inr q ->
  exists text total_tasks done_tasks total_quiz,
    reading_text content = inr text
    /\ len (coding_tasks content) = inr total_tasks
    /\ completed_tasks progress = inr done_tasks
    /\ len (quiz content) = inr total_quiz
    /\ q = (ratio (completed_chapters progress) (total_chapters text) * 30
            + (if 0 <? total_tasks then ratio done_tasks total_tasks else 0) * 40
            + (if 0 <? total_quiz then ratio (quiz_score_val progress) total_quiz
               else 0) * 30)%Q.
Proof.
  unfold week_percent.
  destruct (reading_text content) as [e|text]; [discriminate|]. cbn [res_bind].
  destruct (len (coding_tasks content)) as [e|tt]; [discriminate|]. cbn [res_bind].
  destruct (completed_tasks progress) as [e|dt]; [discriminate|]. cbn [res_bind].
  destruct (len (quiz content)) as [e|tq]; [discriminate|]. cbn [res_bind].
  intros [= <-]. exists text, tt, dt, tq. repeat split.
Qed.




Lemma len_or_empty (v : json) (n : Z) :
  len v = inr n -> len (if truthy v then v else JList []) = inr n.
Proof.
  destruct v as [| | |s|l|kv]; try discriminate; cbn.
  - destruct s; cbn; [|done]. now intros [= <-].
  - destruct l; cbn; [|done]. now intros [= <-].
  - destruct kv; cbn; [|done]. now intros [= <-].
Qed.

(** X9.  Whenever debug_progress.py computes a week percent,
    verify_progress.py computes the same one. *)
Theorem week_percent_scripts_agree (content : WeeklyContent) (progress : Progress)
    (q : Q) :
  week_percent content progress = inr q ->
  week_percent_verify content progress = inr q.
Proof.
  intros (text & tt & dt & tq & Htext & Htt & Hdt & Htq & ->)%week_percent_parts.
  unfold week_percent_verify.
  rewrite Htext, (len_or_empty _ _ Htt), Hdt, (len_or_empty _ _ Htq).
  cbn [res_bind].
  pose proof (len_nonneg _ _ Htt). pose proof (len_nonneg _ _ Htq).
  assert (forall n, 0 <= n -> negb (n =? 0) = (0 <? n)) as Hpos.
  { intros n Hn. destruct (Z.eqb_spec n 0), (Z.ltb_spec 0 n); cbn; lia. }
  now rewrite !Hpos by assumption.
Qed.

Lemma week_percent_scripts_agree_example :
  exists q, week_percent example_week example_progress = inr q
            /\ week_percent_verify example_week example_progress = inr q.
Proof.
  eexists. split; [vm_compute; reflexivity|].
  apply week_percent_scripts_agree. vm_compute. reflexivity.
Defined.










(* ------------------------------------------------------------------ *)
(** ** Master plans: what a generation costs and what is served         *)
(* ------------------------------------------------------------------ *)


Lemma request_inv_calls {A} (c : Call) (answer : nat -> res A) (w w' : World)
    (r : res A) :
  request c answer w = (r, w') ->
  calls w' = calls w ++ [c] /\ db w' = db w /\ r = answer (length (calls w)).
Proof. unfold request. now intros [= <- <-]. Qed.

Lemma generate_weeks_success (g : Grok) (a : json) (weeks ws : list json)
    (w w' : World) :
  generate_weeks g a weeks w = (inr ws, w') ->
  db w' = db w
  /\ Forall2 week_with_content weeks ws
  /\ exists groups,
       calls w' = calls w ++ concat groups
       /\ Forall2 (week_requests a) weeks groups.
Proof.
  revert ws w w'. induction weeks as [|week rest IH]; intros ws w w';
    cbn [generate_weeks].
  - intros [= <- <-]. split; [done|]. split; [constructor|].
    exists []. split; [now rewrite app_nil_r | constructor].
  - intros H.
    apply bind_inv in H as [(e & _ & [=])|(n & w0 & [_ ->]%lift_inv & H)].
    apply bind_inv in H as [(e & _ & [=])|(reading & w1 & H1 & H)].
    apply request_inv_calls in H1 as (Hc1 & Hd1 & _).
    apply bind_inv in H as [(e & _ & [=])|(tasks & w2 & H2 & H)].
    apply request_inv_calls in H2 as (Hc2 & Hd2 & _).
    apply bind_inv in H as [(e & _ & [=])|(content & w3 & [_ ->]%lift_inv & H)].
    apply bind_inv in H as [(e & _ & [=])|(quiz & w3 & H3 & H)].
    apply request_inv_calls in H3 as (Hc3 & Hd3 & _).
    apply bind_inv in H as [(e & _ & [=])|(x1 & w4 & [Hx1 ->]%lift_inv & H)].
    apply bind_inv in H as [(e & _ & [=])|(x2 & w4 & [Hx2 ->]%lift_inv & H)].
    apply bind_inv in H as [(e & _ & [=])|(full & w4 & [Hx3 ->]%lift_inv & H)].
    apply bind_inv in H as [(e & _ & [=])|(more & w4 & Hrest & H)].
    injection H as <- <-.
    destruct (IH _ _ _ Hrest) as (Hd & Hws & groups & Hc & Hg).
    split; [congruence|]. split.
    + constructor; [|exact Hws]. exists reading, tasks, quiz, x1, x2. auto.
    + exists ([CallReading week a None; CallTasks week a None; CallQuiz week content]
              :: groups).
      split.
      * rewrite Hc, Hc3, Hc2, Hc1. cbn [concat]. now rewrite <- !app_assoc.
      * constructor; [|exact Hg]. now exists content.
Qed.

(** A successful generation, step by step. *)
Lemma generate_master_plan_success (g : Grok) (codebase_id : string)
    (w w' : World) (v : json) :
  generate_master_plan g codebase_id w = (inr v, w') ->
  exists record plan_data weeks_json weeks ws overview overview' groups,
    latest_analysis (db w) codebase_id = Some record
    /\ answer_plan g (length (calls w)) (analysis_data record) = inr plan_data
    /\ get plan_data "weeks" (JList []) = inr weeks_json
    /\ iterate weeks_json = inr weeks
    /\ Forall2 week_with_content weeks ws
    /\ calls w' = calls w ++ CallPlan (analysis_data record) :: concat groups
    /\ Forall2 (week_requests (analysis_data record)) weeks groups
    /\ get plan_data "overview" (JStr EmptyString) = inr overview
    /\ get plan_data "overview" JNull = inr overview'
    /\ db w' = add_master_plan
                 {| mp_id := codebase_id +:+ "_v1";
                    mp_codebase_id := codebase_id;
                    version := 1;
                    plan_overview := overview;
                    weeks_data := JList ws;
                    generated_at := now (db w) |} (db w)
    /\ (forall m', m' ∈ master_plans (db w) -> mp_id m' <> codebase_id +:+ "_v1")
    /\ v = JDict [("id", JStr (codebase_id +:+ "_v1"));
                  ("overview", overview');
                  ("weeks", JList ws)].
Proof.
  unfold generate_master_plan. intros H.
  apply bind_inv in H as [(e & _ & [=])|(d & w0 & [= <- <-] & H)].
  destruct (latest_analysis (db w) codebase_id) as [record|]; [|discriminate].
  apply bind_inv in H as [(e & _ & [=])|(plan_data & w1 & H1 & H)].
  apply request_inv_calls in H1 as (Hc1 & Hd1 & Hplan).
  apply bind_inv in H as [(e & _ & [=])|(weeks_json & w2 & [Hwj ->]%lift_inv & H)].
  apply bind_inv in H as [(e & _ & [=])|(weeks & w2 & [Hweeks ->]%lift_inv & H)].
  apply bind_inv in H as [(e & _ & [=])|(ws & w2 & Hgen & H)].
  apply generate_weeks_success in Hgen as (Hd2 & Hws & groups & Hc2 & Hg).
  apply bind_inv in H as [(e & _ & [=])|(overview & w3 & [Ho ->]%lift_inv & H)].
  apply bind_inv in H as [(e & _ & [=])|([] & w3 & Hins & H)].
  apply insert_master_plan_inv in Hins as [([=] & _)|(_ & -> & Hfresh)].
  apply bind_inv in H as [(e & _ & [=])|(overview' & w4 & [Ho' ->]%lift_inv & H)].
  injection H as <- <-.
  exists record, plan_data, weeks_json, weeks, ws, overview, overview', groups.
  cbn [db calls mp_id] in *.
  repeat split; auto.
  - rewrite Hc2, Hc1. now rewrite <- app_assoc.
  - now rewrite Hd2, Hd1.
  - intros m' Hin. apply Hfresh. now rewrite Hd2, Hd1.
Qed.

Lemma concat_groups_length (a : json) (weeks : list json) (groups : list (list Call)) :
  Forall2 (week_requests a) weeks groups ->
  length (concat groups) = (3 * length weeks)%nat
  /\ Forall (fun c => on_demand c = true) (concat groups).
Proof.
  induction 1 as [|week cs weeks groups [content ->] _ [IHl IHf]]; cbn [concat].
  - split; [reflexivity | constructor].
  - split.
    + rewrite length_app, IHl. cbn [length]. lia.
    + apply Forall_app. split; [|exact IHf]. repeat constructor.
Qed.

(** X13.  A master plan that is generated costs one request for the plan
    on the stored analysis and then three on-demand requests for each
    week, and nothing else. *)
Theorem master_plan_request_count (g : Grok) (codebase_id : string)
    (w w' : World) (v : json) :
  generate_master_plan g codebase_id w = (inr v, w') ->
  exists record weeks new,
    latest_analysis (db w) codebase_id = Some record
    /\ subscript v "weeks" = inr (JList weeks)
    /\ calls w' = calls w ++ CallPlan (analysis_data record) :: new
    /\ length new = (3 * length weeks)%nat
    /\ Forall (fun c => on_demand c = true) new.
Proof.
  intros (record & plan_data & wj & weeks & ws & o & o' & groups & Hrec & _ & _ & _
          & Hws & Hc & Hg & _ & _ & _ & _ & ->)%generate_master_plan_success.
  exists record, ws, (concat groups).
  destruct (concat_groups_length _ _ _ Hg) as [Hl Hf].
  repeat split; auto. rewrite Hl. f_equal. exact (Forall2_length _ _ _ Hws).
Qed.

Lemma master_plan_request_count_example :
  exists v w' record weeks new,
    generate_master_plan steady "rocksdb" (fresh analysed) = (inr v, w')
    /\ latest_analysis (db (fresh analysed)) "rocksdb" = Some record
    /\ subscript v "weeks" = inr (JList weeks)
    /\ calls w' = calls (fresh analysed) ++ CallPlan (analysis_data record) :: new
    /\ length weeks = 2%nat
    /\ length new = (3 * length weeks)%nat
    /\ Forall (fun c => on_demand c = true) new.
Proof.
  edestruct (master_plan_request_count steady "rocksdb" (fresh analysed))
    as (record & weeks & new & H1 & H2 & H3 & H4 & H5); [vm_compute; reflexivity|].
  eexists _, _, record, weeks, new. split; [vm_compute; reflexivity|].
  repeat split; try assumption.
  vm_compute in H2. injection H2 as <-. reflexivity.
Defined.

Lemma first_by_last {A} (key : A -> Z) (l : list A) (m : A) :
  (forall y, y ∈ l -> key y < key m) -> first_by key (l ++ [m]) = Some m.
Proof.
  intros Hl. destruct (first_by key (l ++ [m])) as [x|] eqn:E.
  - apply first_by_spec in E as [Hin Hmax].
    apply elem_of_app in Hin as [Hin|Hin%list_elem_of_singleton]; [|now subst].
    specialize (Hl x Hin).
    assert (key m <= key x) by (apply Hmax, elem_of_app; right; now left). lia.
  - apply first_by_none in E. now destruct l.
Qed.

(** X14.  When no stored master plan of the codebase has a version of 1
    or more, the plan that [generate_master_plan] returns is the one
    [get_master_plan] serves afterwards: same id and weeks, version 1. *)
Theorem generated_plan_is_served (g : Grok) (codebase_id : string)
    (w w' : World) (v : json) :
  generate_master_plan g codebase_id w = (inr v, w') ->
  (forall m, m ∈ master_plans (db w) -> mp_codebase_id m = codebase_id ->
             version m < 1) ->
  exists plan,
    get_master_plan codebase_id (db w') = Some plan
    /\ subscript plan "id" = subscript v "id"
    /\ subscript plan "weeks" = subscript v "weeks"
    /\ subscript plan "version" = inr (JInt 1)
    /\ subscript plan "codebase_id" = inr (JStr codebase_id).
Proof.
  intros (record & plan_data & wj & weeks & ws & o & o' & groups & _ & _ & _ & _
          & _ & _ & _ & _ & _ & Hdb & _ & ->)%generate_master_plan_success Hold.
  unfold get_master_plan, latest_master_plan. rewrite Hdb.
  cbn [master_plans add_master_plan]. rewrite filter_app, filter_cons_True by reflexivity.
  rewrite filter_nil, first_by_last.
  - eexists. split; [reflexivity|]. repeat split.
  - intros m [Hc Hin]%list_elem_of_filter. cbn [version]. now apply Hold.
Qed.

Lemma generated_plan_is_served_example :
  exists v w' plan,
    generate_master_plan steady "rocksdb" (fresh analysed) = (inr v, w')
    /\ get_master_plan "rocksdb" (db w') = Some plan
    /\ subscript plan "weeks" = subscript v "weeks"
    /\ subscript plan "version" = inr (JInt 1).
Proof.
  edestruct (generated_plan_is_served steady "rocksdb" (fresh analysed))
    as (plan & H1 & _ & H3 & H4 & _); [vm_compute; reflexivity | |].
  - intros m Hin. now apply elem_of_nil in Hin.
  - eexists _, _, plan. split; [vm_compute; reflexivity|]. now repeat split.
Defined.

(** X15.  The endpoint that generates a master plan either answers the
    success message with the id of version 1 and the number of weeks,
    having added one row, or answers 500 and leaves the database as it
    was. *)
Theorem master_plan_endpoint_outcome (g : Grok) (codebase_id : string)
    (w w' : World) (r : res json) :
  generate_master_plan_endpoint g codebase_id w = (r, w') ->
  (exists m weeks,
     r = inr (JDict [("message", JStr "Master plan generated successfully");
                     ("plan_id", JStr (codebase_id +:+ "_v1"));
                     ("weeks_count", JInt (Z.of_nat (length weeks)))])
     /\ master_plans (db w') = master_plans (db w) ++ [m]
     /\ weeks_data m = JList weeks)
  \/ (exists detail, r = inl (HTTPException 500 detail) /\ db w' = db w).
Proof.
  unfold generate_master_plan_endpoint.
  destruct (generate_master_plan g codebase_id w) as [[e|v] w1] eqn:H.
  - cbn [res_bind]. intros [= <- <-]. right. eexists. split; [reflexivity|].
    apply generate_master_plan_inv in H as [(e' & _ & Hd)|(v & m & [=] & _)].
    exact Hd.
  - apply generate_master_plan_success in H
      as (record & plan_data & wj & weeks & ws & o & o' & groups & _ & _ & _ & _
          & _ & _ & _ & _ & _ & Hdb & _ & ->).
    cbn. intros [= <- <-]. left. eexists _, ws. split; [reflexivity|].
    rewrite Hdb. split; reflexivity.
Qed.

Lemma master_plan_endpoint_outcome_example :
  let run := generate_master_plan_endpoint flaky "rocksdb" (fresh analysed) in
  (exists m weeks,
     run.1 = inr (JDict [("message", JStr "Master plan generated successfully");
                         ("plan_id", JStr ("rocksdb" +:+ "_v1"));
                         ("weeks_count", JInt (Z.of_nat (length weeks)))])
     /\ master_plans (db run.2) = master_plans (db (fresh analysed)) ++ [m]
     /\ weeks_data m = JList weeks)
  \/ (exists detail, run.1 = inl (HTTPException 500 detail)
                     /\ db run.2 = db (fresh analysed)).
Proof.
  intros run.
  apply (master_plan_endpoint_outcome flaky "rocksdb" (fresh analysed)).
  apply surjective_pairing.
Defined.

(* ------------------------------------------------------------------ *)
(** ** app/routes.py: plan creation and reading a plan back           *)
(* ------------------------------------------------------------------ *)

Lemma personalize_weeks_kept (adjs : list (json * json)) (weeks weeks' : list json) :
  personalize_weeks adjs weeks = inr weeks' -> Forall2 same_kept weeks weeks'.
Proof.
  revert weeks'. induction weeks as [|week rest IH]; intros weeks';
    cbn [personalize_weeks].
  - intros [= <-]. constructor.
  - destruct (personalize_week adjs week) as [e|w1] eqn:E; [discriminate|].
    cbn [res_bind]. destruct (personalize_weeks adjs rest) as [e|more]; [discriminate|].
    cbn [res_bind]. intros [= <-]. constructor; [|now apply IH].
    intros k Hk. exact (personalize_week_kept _ _ _ _ E Hk).
Qed.

(** X16.  A personalization that succeeds makes one request, writes
    nothing, and returns as many weeks as the master plan has, in its
    order, each with every key other than difficulty, emphasis and
    additional_focus as the master plan has it. *)
Theorem personalization_keeps_content (g : Grok) (master_plan resume_analysis p : json)
    (w w' : World) :
  personalize_plan g master_plan resume_analysis w = (inr p, w') ->
  db w' = db w
  /\ calls w' = calls w ++ [CallPersonalize master_plan resume_analysis]
  /\ exists weeks_json weeks weeks',
       get master_plan "weeks" (JList []) = inr weeks_json
       /\ iterate weeks_json = inr weeks
       /\ subscript p "weeks" = inr (JList weeks')
       /\ Forall2 same_kept weeks weeks'.
Proof.
  unfold personalize_plan. intros H.
  apply bind_inv in H as [(e & _ & [=])|(? & w1 & [_ ->]%lift_inv & H)].
  apply bind_inv in H as [(e & _ & [=])|(wk & w1 & [Hwk ->]%lift_inv & H)].
  apply bind_inv in H as [(e & _ & [=])|(weeks & w1 & [Hweeks ->]%lift_inv & H)].
  apply bind_inv in H as [(e & _ & [=])|(? & w1 & [_ ->]%lift_inv & H)].
  apply bind_inv in H as [(e & _ & [=])|(? & w1 & [_ ->]%lift_inv & H)].
  apply bind_inv in H as [(e & _ & [=])|(pers & w1 & Hreq & H)].
  apply request_inv_calls in Hreq as (Hc & Hd & _).
  apply bind_inv in H as [(e & _ & [=])|(? & w2 & [_ ->]%lift_inv & H)].
  apply bind_inv in H as [(e & _ & [=])|(? & w2 & [_ ->]%lift_inv & H)].
  apply bind_inv in H as [(e & _ & [=])|(adjs & w2 & [_ ->]%lift_inv & H)].
  apply bind_inv in H as [(e & _ & [=])|(weeks' & w2 & [Hp ->]%lift_inv & H)].
  apply bind_inv in H as [(e & _ & [=])|(? & w2 & [_ ->]%lift_inv & H)].
  apply bind_inv in H as [(e & _ & [=])|(overview & w2 & [_ ->]%lift_inv & H)].
  apply bind_inv in H as [(e & _ & [=])|(recs & w2 & [_ ->]%lift_inv & H)].
  injection H as <- <-. split; [exact Hd|]. split; [exact Hc|].
  exists wk, weeks, weeks'. repeat split; auto.
  symmetry in Hp. now apply personalize_weeks_kept in Hp.
Qed.

Lemma personalization_keeps_content_example :
  exists p w' weeks',
    personalize_plan steady
      (JDict [("overview", JStr "Four weeks");
              ("weeks", JList [week_v2 1 "Foundations"; week_v2 2 "Core components"])])
      (JDict [("experience_level", JStr "Senior")]) (fresh analysed) = (inr p, w')
    /\ subscript p "weeks" = inr (JList weeks')
    /\ Forall2 same_kept [week_v2 1 "Foundations"; week_v2 2 "Core components"] weeks'
    /\ length (calls w') = 1%nat.
Proof.
  edestruct (fun p => personalization_keeps_content steady
               (JDict [("overview", JStr "Four weeks");
                       ("weeks", JList [week_v2 1 "Foundations";
                                        week_v2 2 "Core components"])])
               (JDict [("experience_level", JStr "Senior")]) p (fresh analysed))
    as (_ & Hc & wj & weeks & weeks' & Hwj & Hweeks & Hp & Hkept);
    [vm_compute; reflexivity|].
  injection Hwj as <-. injection Hweeks as <-.
  eexists _, _, weeks'. split; [vm_compute; reflexivity|].
  split; [exact Hp|]. split; [exact Hkept|]. now rewrite Hc.
Defined.

Lemma reads_attempt {A} (m : M A) : reads m -> reads (attempt m).
Proof.
  intros Hm w r w'. unfold attempt. destruct (m w) as [r0 w0] eqn:E.
  intros [= _ <-]. exact (Hm _ _ _ E).
Qed.

Lemma reads_generate_all_weeks (g : Grok) (a : json) (weeks : list json) :
  reads (generate_all_weeks g a weeks).
Proof.
  induction weeks as [|week rest IH]; cbn [generate_all_weeks].
  - apply reads_ret.
  - apply reads_bind; [apply reads_lift|intros n].
    apply reads_bind; [apply reads_attempt; repeat reads_step|intros outcome].
    apply reads_bind; [exact IH|intros more]. destruct outcome; apply reads_ret.
Qed.

Lemma reads_personalize_plan (g : Grok) (master_plan resume_analysis : json) :
  reads (personalize_plan g master_plan resume_analysis).
Proof. unfold personalize_plan. repeat reads_step. Qed.

(** X17.  In the slow path of plan creation, when every week of the plan
    has a week number, the loop over the weeks does not raise whatever
    the backend answers: a week whose generation fails is skipped, the
    rows to add are for weeks of the plan in its order, and nothing is
    written meanwhile. *)
Theorem failed_weeks_are_skipped (g : Grok) (a : json) (weeks : list json)
    (w : World) :
  Forall (fun week => exists n, subscript week "week_number" = inr n) weeks ->
  exists pending w',
    generate_all_weeks g a weeks w = (inr pending, w')
    /\ sublist (map pc_week_number pending) (week_numbers weeks)
    /\ db w' = db w.
Proof.
  intros Hweeks. revert w. induction Hweeks as [|week rest [n Hn] _ IH]; intros w;
    cbn [generate_all_weeks].
  - exists [], w. repeat split. constructor.
  - unfold bind at 1, lift at 1. rewrite Hn. unfold bind at 1.
    destruct (attempt _ w) as [[e|outcome] w1] eqn:Hm.
    { unfold attempt in Hm.
      match type of Hm with (let '(r, w') := ?m w in _) = _ =>
        destruct (m w) end. discriminate. }
    assert (db w1 = db w) as Hd1.
    { revert Hm. apply reads_attempt. repeat reads_step. }
    destruct (IH w1) as (more & w2 & Hrest & Hsub & Hd2).
    unfold bind at 1. rewrite Hrest. unfold week_numbers. cbn [map].
    destruct outcome as [e|row]; cbn [ret]; eexists _, _;
      (split; [reflexivity|]); (split; [|congruence]).
    + apply sublist_cons. exact Hsub.
    + assert (pc_week_number row = n) as Hrow.
      { unfold attempt in Hm.
        match type of Hm with (let '(r, w') := ?m w in _) = _ =>
          destruct (m w) as [o w0] eqn:E end.
        injection Hm as -> _.
        apply bind_inv in E as [(e & _ & [=])|(reading & w3 & _ & E)].
        apply bind_inv in E as [(e & _ & [=])|(tasks & w4 & _ & E)].
        apply bind_inv in E as [(e & _ & [=])|(content & w5 & _ & E)].
        apply bind_inv in E as [(e & _ & [=])|(quiz & w6 & _ & E)].
        now injection E as <- _. }
      cbn [map]. rewrite Hrow, <- (subscript_field _ _ JNull _ Hn).
      apply sublist_skip. exact Hsub.
Qed.

Lemma failed_weeks_are_skipped_example :
  exists pending w',
    generate_all_weeks flaky (JDict [("architecture", JStr "LSM tree")])
      [week_skeleton 1 "Foundations"; week_skeleton 2 "Core components"]
      {| db := analysed; calls := [CallAnalyze "rocksdb" None] |}
    = (inr pending, w')
    /\ map pc_week_number pending = [JInt 1]
    /\ length (calls w') = 7%nat
    /\ db w' = analysed.
Proof.
  destruct (failed_weeks_are_skipped flaky (JDict [("architecture", JStr "LSM tree")])
              [week_skeleton 1 "Foundations"; week_skeleton 2 "Core components"]
              {| db := analysed; calls := [CallAnalyze "rocksdb" None] |})
    as (pending & w' & H & _ & Hdb);
    [repeat constructor; eexists; vm_compute; reflexivity|].
  exists pending, w'. split; [exact H|].
  assert ((inr pending, w')
          = generate_all_weeks flaky (JDict [("architecture", JStr "LSM tree")])
              [week_skeleton 1 "Foundations"; week_skeleton 2 "Core components"]
              {| db := analysed; calls := [CallAnalyze "rocksdb" None] |})
    as E by now rewrite H.
  vm_compute in E. injection E as -> ->. now repeat split.
Defined.

Lemma plan_weeks_strict (weeks entries : list json) :
  plan_weeks weeks = inr entries -> week_plans true entries = week_plans false entries.
Proof.
  revert entries. induction weeks as [|week rest IH]; intros entries; cbn [plan_weeks].
  - now intros [= <-].
  - destruct (subscript week "week_number") as [e|n]; [discriminate|]. cbn [res_bind].
    destruct (subscript week "title") as [e|title]; [discriminate|]. cbn [res_bind].
    destruct (get week "objectives" _) as [e|objectives]; [discriminate|].
    cbn [res_bind].
    destruct (get week "topics" _) as [e|topics]; [discriminate|]. cbn [res_bind].
    destruct (get week "focus_areas" _) as [e|focus]; [discriminate|]. cbn [res_bind].
    destruct (plan_weeks rest) as [e|more]; [discriminate|]. cbn [res_bind].
    intros [= <-]. cbn [week_plans]. rewrite (IH more eq_refl). reflexivity.
Qed.

Lemma insert_learning_plan_success (candidate_id : Z) (codebase_id : string)
    (data : json) (w w' : World) (lp : LearningPlan) :
  insert_learning_plan candidate_id codebase_id data w = (inr lp, w') ->
  lp = {| lp_id := next_id (map lp_id (learning_plans (db w)));
          lp_candidate_id := candidate_id;
          lp_codebase_id := codebase_id;
          plan_data := data;
          lp_created_at := now (db w) |}
  /\ w' = {| db := add_learning_plan lp (db w); calls := calls w |}.
Proof.
  unfold insert_learning_plan, bind, get_db, commit, ret. now intros [= <- <-].
Qed.

(** A plan that was created, by either path. *)
Lemma create_plan_success (g : Grok) (candidate : Candidate)
    (request : LearningPlanCreate) (w w' : World) (resp : json) :
  create_plan g candidate request w = (inr resp, w') ->
  exists lp rows,
    db w' = add_weekly_content rows (add_learning_plan lp (db w))
    /\ lp_candidate_id lp = cand_id candidate
    /\ lp_codebase_id lp = req_codebase_url request
    /\ lp_created_at lp = now (db w)
    /\ plan_response true lp = inr resp.
Proof.
  unfold create_plan. intros H.
  apply bind_inv in H as [(e & _ & [=])|(d & w0 & [= <- <-] & H)].
  destruct (get_master_plan (req_codebase_url request) (db w)) as [master_plan|].
  - unfold plan_from_master in H.
    apply bind_inv in H as [(e & _ & [=])|(p & w1 & Hp & H)].
    apply personalize_plan_inv in Hp as [Hd1 _].
    apply bind_inv in H as [(e & _ & [=])|(ov & w2 & [_ ->]%lift_inv & H)].
    apply bind_inv in H as [(e & _ & [=])|(recs & w2 & [_ ->]%lift_inv & H)].
    apply bind_inv in H as [(e & _ & [=])|(wj & w2 & [_ ->]%lift_inv & H)].
    apply bind_inv in H as [(e & _ & [=])|(weeks & w2 & [_ ->]%lift_inv & H)].
    apply bind_inv in H as [(e & _ & [=])|(entries & w2 & [Hent ->]%lift_inv & H)].
    apply bind_inv in H as [(e & _ & [=])|(lp & w2 & Hlp & H)].
    apply insert_learning_plan_success in Hlp as [Hlp ->].
    apply bind_inv in H as [(e & _ & [=])|(pending & w3 & [_ ->]%lift_inv & H)].
    apply bind_inv in H as [(e & _ & [=])|(rows & w3 & [_ ->]%lift_inv & H)].
    apply bind_inv in H as [(e & _ & [=])|([] & w3 & [= <-] & H)].
    apply lift_inv in H as [Hresp ->].
    exists lp, rows. cbn [db]. rewrite Hd1.
    split; [reflexivity|]. rewrite Hresp. rewrite Hlp.
    repeat split; [cbn; congruence|]. unfold plan_response. cbn.
    symmetry in Hent. now rewrite (plan_weeks_strict _ _ Hent).
  - unfold plan_from_scratch in H.
    apply bind_inv in H as [(e & _ & [=])|(d & w0 & [= <- <-] & H)].
    apply bind_inv in H as [(e & _ & [=])|(analysis & w1 & Ha & H)].
    assert (db w1 = db w) as Hd1.
    { destruct (latest_analysis _ _); [now injection Ha as _ <-|].
      now apply request_inv_calls in Ha. }
    apply bind_inv in H as [(e & _ & [=])|(data & w2 & Hdata & H)].
    apply request_inv_calls in Hdata as (_ & Hd2 & _).
    apply bind_inv in H as [(e & _ & [=])|(lp & w3 & Hlp & H)].
    apply insert_learning_plan_success in Hlp as [Hlp ->].
    apply bind_inv in H as [(e & _ & [=])|(wj & w4 & [_ ->]%lift_inv & H)].
    apply bind_inv in H as [(e & _ & [=])|(weeks & w4 & [_ ->]%lift_inv & H)].
    apply bind_inv in H as [(e & _ & [=])|(pending & w4 & Hgen & H)].
    apply reads_generate_all_weeks in Hgen. cbn [db] in Hgen.
    apply bind_inv in H as [(e & _ & [=])|(rows & w5 & [_ ->]%lift_inv & H)].
    apply bind_inv in H as [(e & _ & [=])|([] & w5 & [= <-] & H)].
    apply lift_inv in H as [Hresp ->].
    exists lp, rows. cbn [db]. rewrite Hgen, Hd2, Hd1.
    split; [reflexivity|]. rewrite Hresp, Hlp. cbn.
    repeat split; congruence.
Qed.

(** A plan that the endpoint made rather than served. *)
Lemma generate_learning_plan_created (g : Grok) (request : LearningPlanCreate)
    (w w' : World) (resp : json) :
  generate_learning_plan g request w = (inr resp, w') ->
  cached_plan (db w) request = None ->
  exists candidate,
    find_candidate (db w) (req_candidate_id request) = inr (Some candidate)
    /\ truthy (resume_analysis candidate) = true
    /\ create_plan g candidate request w = (inr resp, w').
Proof.
  unfold generate_learning_plan. intros H Hcache.
  apply bind_inv in H as [(e & _ & [=])|(d & w0 & [= <- <-] & H)].
  apply bind_inv in H as [(e & _ & [=])|(c & w0 & [Hc ->]%lift_inv & H)].
  destruct c as [candidate|]; [|discriminate].
  destruct (truthy (resume_analysis candidate)) eqn:Ht; [|discriminate].
  cbn [negb] in H. rewrite Hcache in H.
  exists candidate. split; [now symmetry|]. split; [exact Ht|].
  unfold or_500 in H. destruct (create_plan _ _ _ _) as [[e|v] w1]; [discriminate|].
  exact H.
Qed.

Lemma subscript_get (d : json) (k : string) (dflt v : json) :
  subscript d k = inr v -> get d k dflt = inr v.
Proof.
  unfold subscript, get. destruct d as [| | | | |kv]; try discriminate.
  destruct (assoc k kv); [|discriminate]. now intros [= ->].
Qed.

Lemma week_plans_relax (weeks out : list json) :
  week_plans true weeks = inr out -> week_plans false weeks = inr out.
Proof.
  revert out. induction weeks as [|week rest IH]; intros out; cbn [week_plans];
    [easy|].
  destruct (subscript week "week_number") as [e|n]; [discriminate|]. cbn [res_bind].
  destruct (subscript week "title") as [e|title]; [discriminate|]. cbn [res_bind].
  destruct (subscript week "objectives") as [e|objectives] eqn:E; [discriminate|].
  rewrite (subscript_get _ _ _ _ E). cbn [res_bind].
  destruct (get week "topics" _) as [e|topics]; [discriminate|]. cbn [res_bind].
  destruct (week_plans true rest) as [e|more]; [discriminate|]. cbn [res_bind].
  intros [= <-]. now rewrite (IH more eq_refl).
Qed.

Lemma plan_response_relax (p : LearningPlan) (resp : json) :
  plan_response true p = inr resp -> plan_response false p = inr resp.
Proof.
  unfold plan_response.
  destruct (get (plan_data p) "weeks" _) as [e|wj]; [discriminate|]. cbn [res_bind].
  destruct (iterate wj) as [e|weeks]; [discriminate|]. cbn [res_bind].
  destruct (week_plans true weeks) as [e|out] eqn:E; [discriminate|].
  now rewrite (week_plans_relax _ _ E).
Qed.

(** X18.  When the plans of the candidate are older than the clock's
    time, the response of a plan creation is the response
    [get_learning_plan] gives for the candidate afterwards. *)
Theorem created_plan_reads_back (g : Grok) (request : LearningPlanCreate)
    (w w' : World) (resp : json) :
  generate_learning_plan g request w = (inr resp, w') ->
  cached_plan (db w) request = None ->
  plans_are_older (req_candidate_id request) (db w) ->
  get_learning_plan (req_candidate_id request) w' = (inr resp, w').
Proof.
  intros H Hcache Hold.
  apply generate_learning_plan_created in H as (candidate & Hid & _ & H);
    [|exact Hcache].
  apply find_candidate_id in Hid.
  apply create_plan_success in H as (lp & rows & Hdb & Hc & _ & Ht & Hresp).
  unfold get_learning_plan, bind, get_db, latest_learning_plan. rewrite Hdb.
  cbn [add_weekly_content add_learning_plan learning_plans].
  rewrite filter_app, filter_cons_True, filter_nil by congruence.
  rewrite first_by_last; [unfold lift; now rewrite Hresp|].
  intros p [Hp Hin]%list_elem_of_filter. rewrite Ht. now apply Hold.
Qed.

Lemma created_plan_reads_back_example :
  exists resp w',
    generate_learning_plan terse
      {| req_candidate_id := 7; req_codebase_url := "rocksdb";
         req_github_token := None; force_regenerate := true |}
      (at_time 500 (fresh created)) = (inr resp, w')
    /\ length (learning_plans (db w')) = 2%nat
    /\ get_learning_plan 7 w' = (inr resp, w').
Proof.
  assert (plans_are_older 7 (db (at_time 500 (fresh created)))) as Hold.
  { intros p Hin _. revert p Hin. apply Forall_forall. vm_compute.
    repeat constructor. }
  eexists _, _. split; [vm_compute; reflexivity|]. split; [reflexivity|].
  apply (created_plan_reads_back terse
           {| req_candidate_id := 7; req_codebase_url := "rocksdb";
              req_github_token := None; force_regenerate := true |}
           (at_time 500 (fresh created)));
    [vm_compute; reflexivity | reflexivity | exact Hold].
Defined.

(** X19.  After a plan was created, the same request without the force
    flag, sent less than seven days later, is answered with the same
    response from the stored plan: no request to the backend is made and
    nothing is written. *)
Theorem repeated_request_is_served (g g' : Grok) (request : LearningPlanCreate)
    (w w' : World) (resp : json) (t : Z) :
  generate_learning_plan g request w = (inr resp, w') ->
  cached_plan (db w) request = None ->
  plans_are_older (req_candidate_id request) (db w) ->
  t - now (db w) < seven_days ->
  generate_learning_plan g' (again request) (at_time t w')
  = (inr resp, at_time t w').
Proof.
  intros H Hcache Hold Ht.
  apply generate_learning_plan_created in H as (candidate & Hfind & Htruthy & H);
    [|exact Hcache].
  pose proof (find_candidate_id _ _ _ Hfind) as Hid.
  apply create_plan_success in H as (lp & rows & Hdb & Hc & Hu & Hat & Hresp).
  unfold generate_learning_plan, bind, get_db, lift.
  assert (find_candidate (db (at_time t w')) (req_candidate_id (again request))
          = inr (Some candidate)) as ->.
  { unfold find_candidate, at_time. cbn [db candidates again req_candidate_id].
    rewrite Hdb. exact Hfind. }
  rewrite Htruthy. cbn [negb].
  assert (cached_plan (db (at_time t w')) (again request) = Some lp) as ->.
  { unfold cached_plan, at_time.
    cbn [db learning_plans again force_regenerate req_candidate_id req_codebase_url now].
    rewrite Hdb. cbn [add_weekly_content add_learning_plan learning_plans].
    rewrite filter_app, filter_cons_True, filter_nil by (split; congruence).
    rewrite first_by_last.
    - rewrite Hat. now apply Z.ltb_lt in Ht as ->.
    - intros p [[Hp _] Hin]%list_elem_of_filter. rewrite Hat. now apply Hold. }
  now rewrite (plan_response_relax _ _ Hresp).
Qed.

Lemma repeated_request_is_served_example :
  exists resp w',
    generate_learning_plan steady ada_request (fresh analysed) = (inr resp, w')
    /\ length (calls w') = 7%nat
    /\ generate_learning_plan flaky ada_request (at_time 86400 w')
       = (inr resp, at_time 86400 w').
Proof.
  eexists _, _. split; [vm_compute; reflexivity|]. split; [reflexivity|].
  apply (repeated_request_is_served steady flaky ada_request (fresh analysed));
    [vm_compute; reflexivity | reflexivity | | vm_compute; reflexivity].
  intros p Hin. now apply elem_of_nil in Hin.
Defined.

Lemma flush_rows_plan_id (plan_id : Z) (pending : list PendingContent)
    (rows : list WeeklyContent) :
  flush_rows plan_id pending = inr rows ->
  Forall (fun row => wc_learning_plan_id row = plan_id) rows.
Proof.
  revert rows. induction pending as [|p rest IH]; intros rows; cbn [flush_rows].
  - intros [= <-]. constructor.
  - destruct (as_int (pc_week_number p)) as [e|n]; [discriminate|]. cbn [res_bind].
    destruct (flush_rows plan_id rest) as [e|more]; [discriminate|]. cbn [res_bind].
    intros [= <-]. constructor; [reflexivity|now apply IH].
Qed.

Lemma next_id_fresh (ids : list Z) : Forall (fun i => i < next_id ids) ids.
Proof.
  unfold next_id. induction ids as [|i ids IH]; constructor; cbn [foldr]; [lia|].
  eapply Forall_impl; [exact IH|]. cbn. lia.
Qed.

Lemma appended_nothing (d d' : DB) : d' = d -> appended [] [] d d'.
Proof. intros ->. unfold appended. destruct d. cbn. now rewrite !app_nil_r. Qed.

Lemma appended_plan (p : LearningPlan) (d : DB) :
  appended [p] [] d (add_learning_plan p d).
Proof. unfold appended, add_learning_plan. now rewrite app_nil_r. Qed.

(** What the body of the [try] leaves behind, whatever its outcome:
    nothing, the plan, or the plan and its content rows. *)
Lemma create_plan_frame (g : Grok) (candidate : Candidate)
    (request : LearningPlanCreate) (w w' : World) (r : res json) :
  create_plan g candidate request w = (r, w') ->
  db w' = db w
  \/ exists p rows,
       lp_id p = next_id (map lp_id (learning_plans (db w)))
       /\ db w' = add_weekly_content rows (add_learning_plan p (db w))
       /\ Forall (fun row => wc_learning_plan_id row = lp_id p) rows.
Proof.
  assert (forall p d, add_learning_plan p d = add_weekly_content [] (add_learning_plan p d))
    as Hnil.
  { intros p d. unfold add_weekly_content. cbn. now rewrite app_nil_r. }
  unfold create_plan. intros H.
  apply bind_inv in H as [(e & [=] & _)|(d & w0 & [= <- <-] & H)].
  destruct (get_master_plan (req_codebase_url request) (db w)) as [master_plan|].
  - unfold plan_from_master in H.
    apply bind_inv in H as [(e & H & _)|(p & w1 & Hp & H)].
    { left. exact (reads_personalize_plan _ _ _ _ _ _ H). }
    apply reads_personalize_plan in Hp.
    apply bind_inv in H as [(e & [_ ->]%lift_inv & _)|(ov & w2 & [_ ->]%lift_inv & H)];
      [now left|].
    apply bind_inv in H as [(e & [_ ->]%lift_inv & _)|(recs & w2 & [_ ->]%lift_inv & H)];
      [now left|].
    apply bind_inv in H as [(e & [_ ->]%lift_inv & _)|(wj & w2 & [_ ->]%lift_inv & H)];
      [now left|].
    apply bind_inv in H as [(e & [_ ->]%lift_inv & _)|(weeks & w2 & [_ ->]%lift_inv & H)];
      [now left|].
    apply bind_inv in H as [(e & [_ ->]%lift_inv & _)|(ent & w2 & [_ ->]%lift_inv & H)];
      [now left|].
    apply bind_inv in H as [(e & [=] & _)|(lp & w2 & Hlp & H)].
    apply insert_learning_plan_success in Hlp as [Hlp ->].
    right. exists lp. rewrite <- Hp.
    assert (lp_id lp = next_id (map lp_id (learning_plans (db w1)))) as Hid
      by now rewrite Hlp.
    apply bind_inv in H as [(e & [_ ->]%lift_inv & _)|(pend & w3 & [_ ->]%lift_inv & H)].
    { exists []. cbn [db]. split; [exact Hid|]. split; [apply Hnil|constructor]. }
    apply bind_inv in H as [(e & [_ ->]%lift_inv & _)|(rows & w3 & [Hr ->]%lift_inv & H)].
    { exists []. cbn [db]. split; [exact Hid|]. split; [apply Hnil|constructor]. }
    apply bind_inv in H as [(e & [=] & _)|([] & w3 & [= <-] & H)].
    apply lift_inv in H as [_ ->]. exists rows. cbn [db].
    split; [exact Hid|]. split; [reflexivity|].
    symmetry in Hr. exact (flush_rows_plan_id _ _ _ Hr).
  - unfold plan_from_scratch in H.
    apply bind_inv in H as [(e & [=] & _)|(d & w0 & [= <- <-] & H)].
    assert (forall o w1,
              match latest_analysis (db w) (req_codebase_url request) with
              | Some a => ret (analysis_data a)
              | None => analyze_codebase g (req_codebase_url request)
                          (req_github_token request)
              end w = (o, w1) -> db w1 = db w) as Ha.
    { intros o w1. destruct (latest_analysis _ _); [apply reads_ret|apply reads_request]. }
    apply bind_inv in H as [(e & H & _)|(analysis & w1 & H1 & H)].
    { left. exact (Ha _ _ H). }
    apply Ha in H1. clear Ha.
    apply bind_inv in H as [(e & H & _)|(data & w2 & H2 & H)].
    { left. rewrite <- H1. exact (reads_request _ _ _ _ _ H). }
    apply reads_request in H2.
    apply bind_inv in H as [(e & [=] & _)|(lp & w3 & Hlp & H)].
    apply insert_learning_plan_success in Hlp as [Hlp ->].
    right. exists lp. rewrite <- H1, <- H2.
    assert (lp_id lp = next_id (map lp_id (learning_plans (db w2)))) as Hid
      by now rewrite Hlp.
    apply bind_inv in H as [(e & [_ ->]%lift_inv & _)|(wj & w4 & [_ ->]%lift_inv & H)].
    { exists []. cbn [db]. split; [exact Hid|]. split; [apply Hnil|constructor]. }
    apply bind_inv in H as [(e & [_ ->]%lift_inv & _)|(weeks & w4 & [_ ->]%lift_inv & H)].
    { exists []. cbn [db]. split; [exact Hid|]. split; [apply Hnil|constructor]. }
    apply bind_inv in H as [(e & H & _)|(pend & w4 & Hgen & H)].
    { apply reads_generate_all_weeks in H. cbn [db] in H. rewrite H.
      exists []. split; [exact Hid|]. split; [apply Hnil|constructor]. }
    apply reads_generate_all_weeks in Hgen. cbn [db] in Hgen.
    apply bind_inv in H as [(e & [_ ->]%lift_inv & _)|(rows & w5 & [Hr ->]%lift_inv & H)].
    { rewrite Hgen.
      exists []. split; [exact Hid|]. split; [apply Hnil|constructor]. }
    apply bind_inv in H as [(e & [=] & _)|([] & w5 & [= <-] & H)].
    apply lift_inv in H as [_ ->]. exists rows. cbn [db]. rewrite Hgen.
    split; [exact Hid|]. split; [reflexivity|].
    symmetry in Hr. exact (flush_rows_plan_id _ _ _ Hr).
Qed.

(** X20.  Whatever its outcome, [generate_learning_plan] only adds rows:
    at most one plan, with an id above every stored one, and content
    rows of that plan; no stored row is changed or removed and the other
    tables are as they were. *)
Theorem plan_generation_appends (g : Grok) (request : LearningPlanCreate) (w : World) :
  exists new rows,
    appended new rows (db w) (db (generate_learning_plan g request w).2)
    /\ (length new <= 1)%nat
    /\ Forall (fun p => Forall (fun q => lp_id q < lp_id p) (learning_plans (db w))) new
    /\ Forall (fun row => exists p, p ∈ new /\ wc_learning_plan_id row = lp_id p) rows.
Proof.
  destruct (generate_learning_plan g request w) as [r w'] eqn:H. cbn [snd].
  assert (db w' = db w -> exists new rows,
            appended new rows (db w) (db w')
            /\ (length new <= 1)%nat
            /\ Forall (fun p => Forall (fun q => lp_id q < lp_id p)
                                  (learning_plans (db w))) new
            /\ Forall (fun row => exists p, p ∈ new /\ wc_learning_plan_id row = lp_id p)
                 rows) as Hsame.
  { intros E. exists [], []. split; [now apply appended_nothing|].
    cbn [length]. repeat split; [lia|constructor|constructor]. }
  unfold generate_learning_plan in H.
  apply bind_inv in H as [(e & [=] & _)|(d & w0 & [= <- <-] & H)].
  apply bind_inv in H as [(e & [_ ->]%lift_inv & _)|(c & w0 & [_ ->]%lift_inv & H)];
    [now apply Hsame|].
  destruct c as [candidate|]; [|injection H as _ <-; now apply Hsame].
  destruct (negb _); [injection H as _ <-; now apply Hsame|].
  destruct (cached_plan _ _); [apply lift_inv in H as [_ ->]; now apply Hsame|].
  unfold or_500 in H.
  destruct (create_plan g candidate request w) as [r1 w1] eqn:E.
  assert (w' = w1) as -> by (destruct r1; now injection H as _ <-).
  apply create_plan_frame in E as [E|(p & rows & Hid & E & Hrows)];
    [now apply Hsame|].
  exists [p], rows. split; [exact E|]. cbn [length]. split; [lia|]. split.
  - constructor; [|constructor]. rewrite Hid.
    pose proof (next_id_fresh (map lp_id (learning_plans (db w)))) as Hf.
    now apply Forall_fmap in Hf.
  - eapply Forall_impl; [exact Hrows|]. intros row Hrow. exists p.
    split; [left|exact Hrow].
Qed.

(* ------------------------------------------------------------------ *)
(** ** app/routes.py: the row of a served week                        *)
(* ------------------------------------------------------------------ *)

Lemma reads_add_task_reasons (g : Grok) (ctx : string) (tasks : list (json * bool)) :
  reads (add_task_reasons g ctx tasks).
Proof.
  induction tasks as [|[t b] rest IH]; cbn [add_task_reasons].
  - apply reads_ret.
  - destruct b; repeat reads_step; exact IH.
Qed.

Lemma reads_add_reading_reason (g : Grok) (ctx : string) (reading : json) :
  reads (add_reading_reason g ctx reading).
Proof. unfold add_reading_reason, generate_reasoning. repeat reads_step. Qed.

Lemma reads_fill_task_reasons (g : Grok) (ctx : string) (tasks : json)
    (missing : list bool) :
  reads (fill_task_reasons g ctx tasks missing).
Proof.
  unfold fill_task_reasons. destruct tasks; try apply reads_ret.
  apply reads_bind; [apply reads_add_task_reasons|intros ?; apply reads_ret].
Qed.

Lemma reads_copy_from_master (g : Grok) (x : option string) (m : MasterPlan) (n : Z) :
  reads (copy_from_master g x m n).
Proof.
  unfold copy_from_master.
  repeat first [ apply reads_add_reading_reason | apply reads_fill_task_reasons
               | reads_step ].
Qed.

Lemma reads_generate_on_demand (g : Grok) (x : option string) (lp : LearningPlan)
    (n : Z) :
  reads (generate_on_demand g x lp n).
Proof. unfold generate_on_demand. repeat reads_step. Qed.

(** The rows of a week once its row was created or updated. *)
Lemma filter_replace (P : WeeklyContent -> Prop) `{forall x, Decision (P x)}
    (row : WeeklyContent) (l : list WeeklyContent) :
  P row ->
  filter P (map (fun w => if decide (P w) then row else w) l)
  = map (fun _ => row) (filter P l).
Proof.
  intros Hrow. induction l as [|a l IH]; [reflexivity|]. cbn [map].
  destruct (decide (P a)) as [Ha|Ha].
  - rewrite !filter_cons_True by done. cbn [map]. now rewrite IH.
  - rewrite !filter_cons_False by done. exact IH.
Qed.

Lemma put_then_find (existing : option WeeklyContent) (row : WeeklyContent) (d : DB) :
  scalar_one_or_none
    (find_weekly_content d (wc_learning_plan_id row) (wc_week_number row))
  = inr existing ->
  find_weekly_content (put_weekly_content existing row d)
    (wc_learning_plan_id row) (wc_week_number row) = [row].
Proof.
  unfold find_weekly_content. intros H. cbn [put_weekly_content weekly_content].
  destruct existing as [old|].
  - apply scalar_one_elem in H.
    rewrite (filter_replace
               (fun w => wc_learning_plan_id w = wc_learning_plan_id row
                         ∧ wc_week_number w = wc_week_number row)) by done.
    now rewrite H.
  - destruct (filter _ (weekly_content d)) as [|a [|b l]] eqn:E; try discriminate.
    rewrite filter_app, E, filter_cons_True by done. reflexivity.
Qed.

(** What [materialize] leaves: the row of the week, created or updated. *)
Lemma materialize_stored (g : Grok) (x : option string) (lp : LearningPlan) (n : Z)
    (existing : option WeeklyContent) (w w' : World) (row : WeeklyContent) :
  materialize g x lp n existing w = (inr row, w') ->
  wc_learning_plan_id row = lp_id lp /\ wc_week_number row = n
  /\ db w' = put_weekly_content existing row (db w).
Proof.
  unfold materialize. intros H.
  apply bind_inv in H as [(e & _ & [=])|(d & w0 & [= <- <-] & H)].
  apply bind_inv in H as [(e & _ & [=])|([[reading tasks] quiz] & w1 & Hc & H)].
  assert (db w1 = db w) as Hd.
  { revert Hc. destruct (master_plan_available _);
      [apply reads_copy_from_master|apply reads_generate_on_demand]. }
  apply bind_inv in H as [(e & _ & [=])|([] & w2 & [= <-] & H)].
  injection H as <- <-. cbn [db]. now rewrite Hd.
Qed.

(** What [backfill] leaves: the row as it was, or the row updated. *)
Lemma backfill_stored (g : Grok) (ctx : string) (row row' : WeeklyContent)
    (w w' : World) :
  backfill g ctx row w = (inr row', w') ->
  (row' = row /\ db w' = db w)
  \/ (wc_learning_plan_id row' = wc_learning_plan_id row
      /\ wc_week_number row' = wc_week_number row
      /\ db w' = put_weekly_content (Some row) row' (db w)).
Proof.
  unfold backfill. intros H.
  apply bind_inv in H as [(e & _ & [=])|(no_reason & w1 & [_ ->]%lift_inv & H)].
  apply bind_inv in H as [(e & _ & [=])|(reading & w1 & H1 & H)].
  assert (db w1 = db w) as Hd1.
  { revert H1. destruct no_reason; [apply reads_add_reading_reason|apply reads_ret]. }
  apply bind_inv in H as [(e & _ & [=])|(missing & w2 & H2 & H)].
  assert (db w2 = db w1) as Hd2.
  { revert H2. destruct (truthy _); [apply reads_lift|apply reads_ret]. }
  apply bind_inv in H as [(e & _ & [=])|(tasks & w3 & H3 & H)].
  assert (db w3 = db w2) as Hd3.
  { revert H3. destruct (existsb id missing);
      [apply reads_fill_task_reasons|apply reads_ret]. }
  destruct (no_reason || existsb id missing).
  - apply bind_inv in H as [(e & _ & [=])|([] & w4 & [= <-] & H)].
    injection H as <- <-. right. cbn [db]. repeat split. congruence.
  - injection H as <- <-. left. split; [reflexivity|congruence].
Qed.

(** A request that succeeds leaves one row for the week, the row it
    returns; the other tables are as they were. *)
Lemma get_weekly_content_stored (g : Grok) (prompts : string -> option string)
    (candidate_id week_number : Z) (w w' : World) (row : WeeklyContent) :
  get_weekly_content g prompts candidate_id week_number w = (inr row, w') ->
  exists lp cand,
    latest_learning_plan (db w) candidate_id = Some lp
    /\ find_candidate (db w) candidate_id = inr cand
    /\ find_weekly_content (db w') (lp_id lp) week_number = [row]
    /\ candidates (db w') = candidates (db w)
    /\ learning_plans (db w') = learning_plans (db w)
    /\ master_plans (db w') = master_plans (db w).
Proof.
  unfold get_weekly_content. intros H.
  apply bind_inv in H as [(e & _ & [=])|(d & w0 & [= <- <-] & H)].
  destruct (latest_learning_plan (db w) candidate_id) as [lp|]; [|discriminate].
  apply bind_inv in H as [(e & _ & [=])|(existing & w0 & [Hex ->]%lift_inv & H)].
  apply bind_inv in H as [(e & _ & [=])|(cand & w0 & [Hcand ->]%lift_inv & H)].
  exists lp, cand. split; [reflexivity|]. split; [now symmetry|].
  apply bind_inv in H as [(e & _ & [=])|(row0 & w1 & H1 & H)].
  assert (find_weekly_content (db w1) (lp_id lp) week_number = [row0]
          /\ candidates (db w1) = candidates (db w)
          /\ learning_plans (db w1) = learning_plans (db w)
          /\ master_plans (db w1) = master_plans (db w)) as (Hf1 & Hc1 & Hl1 & Hm1).
  { destruct (materialized existing) as [m|] eqn:Hmat.
    - injection H1 as <- <-. repeat split.
      destruct existing as [old|]; [|discriminate]. cbn in Hmat.
      destruct (_ && _); [|discriminate]. injection Hmat as <-.
      symmetry in Hex. now apply scalar_one_elem in Hex.
    - apply materialize_stored in H1 as (Hp & Hn & ->). repeat split.
      rewrite <- Hp, <- Hn. apply put_then_find. now rewrite Hp, Hn. }
  destruct (usable _) as [ctx|]; [|injection H as <- <-; now repeat split].
  apply backfill_stored in H as [[-> ->]|(Hp & Hn & ->)]; [now repeat split|].
  repeat split; try assumption.
  assert (wc_learning_plan_id row0 = lp_id lp /\ wc_week_number row0 = week_number)
    as [Hp0 Hn0].
  { assert (row0 ∈ find_weekly_content (db w1) (lp_id lp) week_number) as Hin
      by (rewrite Hf1; left).
    now apply list_elem_of_filter in Hin as [[? ?] _]. }
  rewrite <- Hp0, <- Hn0, <- Hp, <- Hn. apply put_then_find.
  rewrite Hp, Hn, Hp0, Hn0, Hf1. reflexivity.
Qed.

(** X21.  After a weekly-content request that succeeds, the table holds
    exactly one row for the week of the candidate's latest plan, and it is
    the row of the response; candidates, plans and master plans are as
    they were. *)
Theorem served_week_is_stored (g : Grok) (prompts : string -> option string)
    (candidate_id week_number : Z) (w w' : World) (row : WeeklyContent) :
  get_weekly_content g prompts candidate_id week_number w = (inr row, w') ->
  exists lp,
    latest_learning_plan (db w) candidate_id = Some lp
    /\ find_weekly_content (db w') (lp_id lp) week_number = [row]
    /\ candidates (db w') = candidates (db w)
    /\ learning_plans (db w') = learning_plans (db w)
    /\ master_plans (db w') = master_plans (db w).
Proof.
  intros H. apply get_weekly_content_stored in H as (lp & cand & H1 & _ & H2).
  now exists lp.
Qed.

Lemma served_week_is_stored_example :
  exists row w',
    get_weekly_content terse no_prompts 7 2 (fresh created) = (inr row, w')
    /\ coding_tasks row = JList []
    /\ find_weekly_content (db w') 1 2 = [row]
    /\ length (weekly_content (db w')) = 2%nat.
Proof.
  eexists _, _. split; [vm_compute; reflexivity|]. split; [reflexivity|].
  split; [|reflexivity].
  edestruct (fun row w' =>
               served_week_is_stored terse no_prompts 7 2 (fresh created) w' row)
    as (lp & Hlp & Hrow & _); [vm_compute; reflexivity|].
  vm_compute in Hlp. injection Hlp as <-. exact Hrow.
Defined.

(** X22.  When a served week has reading material and coding tasks, and
    (if the candidate has an expectation prompt) a reason on each item,
    the same request again gets the same row, with no request to the
    backend and nothing written. *)
Theorem served_week_is_read_again (g g' : Grok) (prompts : string -> option string)
    (candidate_id week_number : Z) (w w' : World) (row : WeeklyContent) :
  get_weekly_content g prompts candidate_id week_number w = (inr row, w') ->
  materialized (Some row) = Some row ->
  (has_prompt prompts (db w) candidate_id -> reasoned row) ->
  get_weekly_content g' prompts candidate_id week_number w' = (inr row, w').
Proof.
  intros H Hmat Hreason.
  apply get_weekly_content_stored in H as (lp & cand & Hlp & Hcand & Hrow & Hc & Hl & _).
  rewrite (get_weekly_content_materialized g' prompts candidate_id week_number w' lp row);
    [| unfold latest_learning_plan; rewrite Hl; exact Hlp
     | now rewrite Hrow
     | exact Hmat].
  unfold find_candidate in *. rewrite Hc, Hcand.
  destruct (usable (expectation_of prompts cand)) as [ctx|] eqn:Hctx; [|reflexivity].
  destruct Hreason as (Hreading & missing & Htasks & Hno); [now exists cand, ctx|].
  cbn in Hmat. destruct (truthy (reading_material row)); [|discriminate].
  destruct (truthy (coding_tasks row)) eqn:Ht; [|discriminate].
  unfold backfill, bind, lift. rewrite Hreading. cbn [ret]. rewrite Ht, Htasks, Hno.
  reflexivity.
Qed.

Lemma served_week_is_read_again_example :
  exists row w',
    get_weekly_content terse prompt_files 7 1 (fresh created) = (inr row, w')
    /\ length (calls w') = 2%nat
    /\ get_weekly_content flaky prompt_files 7 1 w' = (inr row, w').
Proof.
  eexists _, _. split; [vm_compute; reflexivity|]. split; [reflexivity|].
  apply (served_week_is_read_again terse flaky prompt_files 7 1 (fresh created));
    [vm_compute; reflexivity | reflexivity |].
  intros _. split; [reflexivity|]. eexists. split; reflexivity.
Defined.

(** X23.  When a week has no materialized row and the latest master plan
    of the codebase has weeks but not this one, the request is answered
    404; nothing is generated on demand, no request is made and nothing
    is written. *)
Theorem week_outside_master_plan (g : Grok) (prompts : string -> option string)
    (candidate_id week_number : Z) (w : World) (lp : LearningPlan)
    (existing : option WeeklyContent) (cand : option Candidate) (m : MasterPlan)
    (weeks : list json) :
  latest_learning_plan (db w) candidate_id = Some lp ->
  scalar_one_or_none (find_weekly_content (db w) (lp_id lp) week_number)
    = inr existing ->
  materialized existing = None ->
  find_candidate (db w) candidate_id = inr cand ->
  latest_master_plan (db w) (lp_codebase_id lp) = Some m ->
  iterate (weeks_data m) = inr weeks ->
  weeks <> [] ->
  find_week week_number weeks = inr None ->
  get_weekly_content g prompts candidate_id week_number w
  = (inl (HTTPException 404
            ("Week " +:+ str_of_Z week_number +:+ " not found in master plan")), w).
Proof.
  intros Hlp Hex Hmat Hcand Hm Hi Hne Hf.
  unfold get_weekly_content, bind at 1, get_db. rewrite Hlp, Hex, Hcand.
  unfold bind at 1, lift at 1. unfold bind at 1, lift at 1. rewrite Hmat.
  unfold bind at 1, materialize, bind at 1, get_db. rewrite Hm.
  cbn [master_plan_available]. rewrite (iterate_truthy _ _ Hi Hne).
  unfold bind at 1, copy_from_master, bind at 1, lift at 1. rewrite Hi.
  unfold bind at 1, lift at 1. rewrite Hf. reflexivity.
Qed.

Lemma week_outside_master_plan_example :
  get_weekly_content steady prompt_files 7 9 (fresh created)
  = (inl (HTTPException 404 "Week 9 not found in master plan"), fresh created).
Proof.
  eapply (week_outside_master_plan steady prompt_files 7 9 (fresh created));
    try (vm_compute; reflexivity).
  discriminate.
Defined.

(* ------------------------------------------------------------------ *)
(** ** grok_service: the decoding inside the generation methods       *)
(* ------------------------------------------------------------------ *)

Lemma fenced_stripped (fence response s : string) :
  fenced fence response = inr s -> strip s = s.
Proof.
  unfold fenced. destruct (index (split fence response) 1) as [e|after];
    [discriminate|]. cbn [res_bind].
  destruct (index (split "```" after) 0) as [e|body]; [discriminate|].
  cbn [res_bind]. intros [= <-]. apply strip_idem.
Qed.

Lemma parse_fenced (loads : string -> option json) (response s : string)
    (result : json) :
  loads response = None ->
  json_candidate response = inr s -> strip s = s -> loads s = Some result ->
  _parse_json_response loads response = inr result.
Proof.
  intros Hn Hc Hs Hl. rewrite (parse_by_candidate _ _ Hn), Hc. cbn [res_bind].
  rewrite Hs. unfold decode. now rewrite Hl.
Qed.

(** X24.  Whenever the decoding at the end of [generate_coding_tasks]
    yields tasks, [_parse_json_response] decodes the same response, and
    the tasks are those of the document it returns. *)
Theorem tasks_decoding_agrees (loads : string -> option json) (response : string)
    (tasks : json) :
  decode_tasks loads response = inr tasks ->
  exists result,
    _parse_json_response loads response = inr result
    /\ get result "tasks" (JList []) = inr tasks.
Proof.
  unfold decode_tasks. destruct (loads response) as [result|] eqn:Hn.
  { intros H. exists result. split; [|exact H].
    unfold _parse_json_response. now rewrite Hn. }
  destruct (contains "```json" response) eqn:Hj.
  { destruct (fenced "```json" response) as [e|s] eqn:Hf; [discriminate|].
    cbn [res_bind]. unfold loads_or_raise.
    destruct (loads s) as [result|] eqn:Hl; [|discriminate]. cbn [res_bind].
    intros H. exists result. split; [|exact H].
    apply (parse_fenced loads response s); auto.
    - unfold json_candidate. now rewrite Hj.
    - exact (fenced_stripped _ _ _ Hf). }
  destruct (contains "```" response) eqn:Hu.
  { destruct (fenced "```" response) as [e|s] eqn:Hf; [discriminate|].
    cbn [res_bind]. unfold loads_or_raise.
    destruct (loads s) as [result|] eqn:Hl; [|discriminate]. cbn [res_bind].
    intros H. exists result. split; [|exact H].
    apply (parse_fenced loads response s); auto.
    - unfold json_candidate. now rewrite Hj, Hu.
    - exact (fenced_stripped _ _ _ Hf). }
  destruct (_parse_json_response loads response) as [e|result]; [discriminate|].
  cbn [res_bind]. destruct (get result "tasks" _) as [e|v] eqn:Hg; [discriminate|].
  intros [= <-]. now exists result.
Qed.

Lemma tasks_decoding_agrees_example :
  decode_tasks json_loads labeled_tasks = inr (JList [JInt 1; JInt 2])
  /\ exists result,
       _parse_json_response json_loads labeled_tasks = inr result
       /\ get result "tasks" (JList []) = inr (JList [JInt 1; JInt 2]).
Proof.
  split; [vm_compute; reflexivity|].
  apply (tasks_decoding_agrees json_loads labeled_tasks). vm_compute. reflexivity.
Defined.

(** X25.  [GrokService.generate_learning_plan] never returns the plan of
    a response that is not JSON as a whole and has no labeled fence: with
    an unlabeled fence whose text decodes it raises the ValueError all the
    same, although [_parse_json_response] decodes that response; with no
    fence it reaches [return plan] with [plan] unbound. *)
Theorem unlabeled_plan_is_rejected (loads : string -> option json)
    (response : string) :
  loads response = None ->
  contains "```json" response = false ->
  (forall plan, decode_learning_plan loads response <> Returns plan)
  /\ (forall s plan,
        contains "```" response = true ->
        fenced "```" response = inr s -> loads s = Some plan ->
        decode_learning_plan loads response
        = Raises (ValueError "Could not parse JSON from Grok response")
        /\ _parse_json_response loads response = inr plan)
  /\ (contains "```" response = false ->
      decode_learning_plan loads response = UnboundLocalError).
Proof.
  intros Hn Hj. unfold decode_learning_plan. rewrite Hn, Hj.
  split; [|split].
  - intros plan. destruct (contains "```" response); [|discriminate].
    destruct (fenced "```" response) as [e|s]; [discriminate|].
    destruct (loads s); discriminate.
  - intros s plan Hu Hf Hl. rewrite Hu, Hf, Hl. split; [reflexivity|].
    apply (parse_fenced loads response s); auto.
    + unfold json_candidate. now rewrite Hj, Hu.
    + exact (fenced_stripped _ _ _ Hf).
  - intros ->. reflexivity.
Qed.

Lemma unlabeled_plan_is_rejected_example :
  decode_learning_plan json_loads unlabeled_plan
  = Raises (ValueError "Could not parse JSON from Grok response")
  /\ _parse_json_response json_loads unlabeled_plan
     = inr (JDict [("weeks", JList [])])
  /\ decode_learning_plan json_loads "Sorry, no plan today." = UnboundLocalError.
Proof.
  destruct (unlabeled_plan_is_rejected json_loads unlabeled_plan)
    as (_ & H & _); [vm_compute; reflexivity | vm_compute; reflexivity|].
  destruct (H (strip (before "```" (str_drop 3 unlabeled_plan)))
              (JDict [("weeks", JList [])]))
    as [H1 H2]; [vm_compute; reflexivity ..|].
  split; [exact H1|]. split; [exact H2|].
  vm_compute. reflexivity.
Defined.
